(** * Portainer management-plane handlers: mutation execution core

    A shallow embedding of three HTTP handlers of the Portainer API

      - api/http/handler/endpoints/endpoint_registry_access.go
      - api/http/handler/settings/settings_update.go
      - api/http/handler/users/user_update_password.go

    together with the properties their design document states about the
    namespace reconciler, the access synchronizer, the partial-update merge
    of the settings aggregate, the dual-mode mutation executor and the
    password update.

    Conventions.  Go [int]/[int64] values are [Z]; Go strings are [string];
    a Go pointer or a nil-able slice is an [option]; a Go [error] result is
    [option error] ([None] is [nil]) and a [(value, error)] result is a sum.
    Collaborators reached through an interface (stores, services, clients)
    are fields of a handler record; every call that leaves the process is
    recorded in a trace so that ordering properties can be stated. *)

From stdpp Require Import gmap strings list fin_maps.
From Stdlib Require Import ZArith.

Local Open Scope string_scope.
Local Open Scope list_scope.
Local Open Scope Z_scope.

(** ** Errors *)

(** A Go [error] value.  [ErrorString] stands for [errors.New msg] and for
    any error produced by a collaborator; [HandlerError] is
    [httperror.HandlerError], whose wrapped [Err] may be [nil]. *)
#[warnings="-register-all"]
Inductive error : Type :=
| ErrorString (msg : string)
| HandlerError (StatusCode : Z) (Message : string) (Err : option error).

Definition BadRequest (msg : string) (err : option error) : error :=
  HandlerError 400 msg err.
Definition Forbidden (msg : string) (err : option error) : error :=
  HandlerError 403 msg err.
Definition NotFound (msg : string) (err : option error) : error :=
  HandlerError 404 msg err.
Definition InternalServerError (msg : string) (err : option error) : error :=
  HandlerError 500 msg err.

(** ** Iteration over a Go map *)

(** [for el := range m] visits every key of [m] once, in an order the
    language leaves unspecified and that may differ from one [range]
    statement to the next.  A [MapIter] fixes one such choice: for every
    [range] site and every map, an enumeration of the keys. *)
Record MapIter : Type := {
  range_keys : nat → gmap string bool → list string;
  range_keys_perm : ∀ site m, range_keys site m ≡ₚ (map_to_list m).*1
}.

Definition canonicalIter : MapIter :=
  {| range_keys := λ _ m, (map_to_list m).*1;
     range_keys_perm := λ _ m, reflexivity ((map_to_list m).*1) |}.

Definition reverseIter : MapIter :=
  {| range_keys := λ _ m, reverse ((map_to_list m).*1);
     range_keys_perm := λ _ m, reverse_Permutation ((map_to_list m).*1) |}.

(** ** Registry access for an environment (endpoint_registry_access.go) *)

Module endpoints.

(** [type stringSet map[string]bool] *)
Abbreviation stringSet := (gmap string bool).

(** Reading a missing key of a Go map yields the zero value. *)
Definition index (set : stringSet) (el : string) : bool :=
  default false (set !! el).

(** [toSet]: the loop body [set[el] = true] over the slice, front to back. *)
Definition toSet (list : list string) : stringSet :=
  foldl (λ set el, <[el := true]> set) ∅ list.

(** [setDifference]: one [range] over [setA]; [site] names the [range]
    statement of the call for the iteration order. *)
Definition setDifference (it : MapIter) (site : nat)
    (setA setB : stringSet) : stringSet :=
  foldl (λ set el, if negb (index setB el) then <[el := true]> set else set)
        ∅ (range_keys it site setA).

(** The Set Reconciler: the first four statements of [updateKubeAccess].
    The result is [(namespacesToAdd, namespacesToRemove)]. *)
Definition namespaceDelta (it : MapIter) (oldNamespaces newNamespaces : list string)
    : stringSet * stringSet :=
  let oldNamespacesSet := toSet oldNamespaces in
  let newNamespacesSet := toSet newNamespaces in
  let namespacesToRemove := setDifference it 0 oldNamespacesSet newNamespacesSet in
  let namespacesToAdd := setDifference it 1 newNamespacesSet oldNamespacesSet in
  (namespacesToAdd, namespacesToRemove).

(** *** The external secret-provisioning client *)

Section Synchronizer.

(** [portainer.Endpoint] and [portainer.Registry] are only handed on to the
    client; [Cluster] is the state of the remote cluster the client acts on. *)
Context {Endpoint Registry Cluster : Type}.

(** [portainer.KubeClient], restricted to the two methods used here. *)
Record KubeClient : Type := {
  DeleteRegistrySecret : Registry → string → Cluster → option error * Cluster;
  CreateRegistrySecret : Registry → string → Cluster → option error * Cluster
}.

Record Handler : Type := {
  K8sClientFactory_GetKubeClient : Endpoint → error + KubeClient
}.

(** One call issued to the external client, with the error it returned. *)
Inductive KubeCall : Type :=
| CallDelete (namespace : string) (res : option error)
| CallCreate (namespace : string) (res : option error).

Definition call_result (c : KubeCall) : option error :=
  match c with CallDelete _ r | CallCreate _ r => r end.

(** [for namespace := range namespacesToRemove { ... }], over the keys in the
    order of the iteration; returns the error, the cluster and the calls made,
    oldest first. *)
Fixpoint deleteLoop (cli : KubeClient) (registry : Registry)
    (namespaces : list string) (k : Cluster)
    : option error * Cluster * list KubeCall :=
  match namespaces with
  | [] => (None, k, [])
  | namespace :: rest =>
      match DeleteRegistrySecret cli registry namespace k with
      | (Some err, k') => (Some err, k', [CallDelete namespace (Some err)])
      | (None, k') =>
          let '(res, k'', calls) := deleteLoop cli registry rest k' in
          (res, k'', CallDelete namespace None :: calls)
      end
  end.

(** [for namespace := range namespacesToAdd { ... }] *)
Fixpoint createLoop (cli : KubeClient) (registry : Registry)
    (namespaces : list string) (k : Cluster)
    : option error * Cluster * list KubeCall :=
  match namespaces with
  | [] => (None, k, [])
  | namespace :: rest =>
      match CreateRegistrySecret cli registry namespace k with
      | (Some err, k') => (Some err, k', [CallCreate namespace (Some err)])
      | (None, k') =>
          let '(res, k'', calls) := createLoop cli registry rest k' in
          (res, k'', CallCreate namespace None :: calls)
      end
  end.

(** [updateKubeAccess], the Access Synchronizer. *)
Definition updateKubeAccess (handler : Handler) (it : MapIter)
    (endpoint : Endpoint) (registry : Registry)
    (oldNamespaces newNamespaces : list string) (k : Cluster)
    : option error * Cluster * list KubeCall :=
  let '(namespacesToAdd, namespacesToRemove) :=
    namespaceDelta it oldNamespaces newNamespaces in
  match K8sClientFactory_GetKubeClient handler endpoint with
  | inl err => (Some err, k, [])
  | inr cli =>
      let '(res, k', calls) :=
        deleteLoop cli registry (range_keys it 2 namespacesToRemove) k in
      match res with
      | Some err => (Some err, k', calls)
      | None =>
          let '(res', k'', calls') :=
            createLoop cli registry (range_keys it 3 namespacesToAdd) k' in
          (res', k'', calls ++ calls')
      end
  end.

End Synchronizer.

Arguments KubeClient : clear implicits.
Arguments Handler : clear implicits.

(** *** Sample data *)

(** A cluster is the list of namespaces that hold the registry secret; calls
    for a namespace in [failing] return an error and change nothing. *)
Definition sampleClient (failing : list string) : KubeClient unit (list string) :=
  {| DeleteRegistrySecret := λ _ namespace k,
       if bool_decide (namespace ∈ failing)
       then (Some (ErrorString "secret is locked"), k)
       else (None, filter (λ ns, ns ≠ namespace) k);
     CreateRegistrySecret := λ _ namespace k,
       if bool_decide (namespace ∈ failing)
       then (Some (ErrorString "namespace is terminating"), k)
       else (None, namespace :: k) |}.

Definition sampleHandler (failing : list string)
    : Handler unit unit (list string) :=
  {| K8sClientFactory_GetKubeClient := λ _, inr (sampleClient failing) |}.

End endpoints.

(** ** Shared data types (package portainer)

    The struct declarations are not part of the handler files; each record
    lists the fields the handlers name and keeps the others in one opaque
    component ([rest]) that no handler reads or writes. *)

Module portainer.

(** The types of the fields the handlers never name. *)
Record FieldShapes : Type := {
  TLSRest : Type;
  LDAPRest : Type;
  OAuthRest : Type;
  InternalAuthRest : Type;
  SettingsRest : Type;
  UserRest : Type
}.

(** Structs without further fields, for sample data. *)
Definition plainShapes : FieldShapes :=
  {| TLSRest := unit; LDAPRest := unit; OAuthRest := unit;
     InternalAuthRest := unit; SettingsRest := unit; UserRest := unit |}.

(** [portainer.Pair] *)
Definition Pair : Type := string * string.

Module TLSConfiguration.
Record t {sh : FieldShapes} : Type := mk {
  TLS : bool;
  TLSSkipVerify : bool;
  TLSCACertPath : string;
  rest : TLSRest sh
}.
Arguments t : clear implicits.

Definition set_TLSCACertPath {sh} (v : string) (c : t sh) : t sh :=
  mk sh (TLS c) (TLSSkipVerify c) v (rest c).
End TLSConfiguration.

Module LDAPSettings.
Record t {sh : FieldShapes} : Type := mk {
  ReaderDN : string;
  Password : string;
  TLSConfig : TLSConfiguration.t sh;
  StartTLS : bool;
  rest : LDAPRest sh
}.
Arguments t : clear implicits.

Definition set_ReaderDN {sh} (v : string) (l : t sh) : t sh :=
  mk sh v (Password l) (TLSConfig l) (StartTLS l) (rest l).
Definition set_Password {sh} (v : string) (l : t sh) : t sh :=
  mk sh (ReaderDN l) v (TLSConfig l) (StartTLS l) (rest l).
Definition set_TLSConfig {sh} (v : TLSConfiguration.t sh) (l : t sh) : t sh :=
  mk sh (ReaderDN l) (Password l) v (StartTLS l) (rest l).
End LDAPSettings.

Module OAuthSettings.
Record t {sh : FieldShapes} : Type := mk {
  ClientSecret : string;
  KubeSecretKey : option (list Byte.byte);
  rest : OAuthRest sh
}.
Arguments t : clear implicits.

Definition set_ClientSecret {sh} (v : string) (o : t sh) : t sh :=
  mk sh v (KubeSecretKey o) (rest o).
Definition set_KubeSecretKey {sh} (v : option (list Byte.byte)) (o : t sh) : t sh :=
  mk sh (ClientSecret o) v (rest o).
End OAuthSettings.

Module InternalAuthSettings.
Record t {sh : FieldShapes} : Type := mk {
  RequiredPasswordLength : Z;
  rest : InternalAuthRest sh
}.
Arguments t : clear implicits.

Definition set_RequiredPasswordLength {sh} (v : Z) (a : t sh) : t sh :=
  mk sh v (rest a).
End InternalAuthSettings.

Module Settings.
Record t {sh : FieldShapes} : Type := mk {
  LogoURL : string;
  BlackListedLabels : option (list Pair);
  AuthenticationMethod : Z;
  InternalAuthSettings : InternalAuthSettings.t sh;
  LDAPSettings : LDAPSettings.t sh;
  OAuthSettings : OAuthSettings.t sh;
  SnapshotInterval : string;
  TemplatesURL : string;
  EdgeAgentCheckinInterval : Z;
  ShowKomposeBuildOption : bool;
  EnableEdgeComputeFeatures : bool;
  UserSessionTimeout : string;
  KubeconfigExpiry : string;
  EnableTelemetry : bool;
  HelmRepositoryURL : string;
  KubectlShellImage : string;
  TrustOnFirstConnect : bool;
  EnforceEdgeID : bool;
  EdgePortainerURL : string;
  rest : SettingsRest sh
}.
Arguments t : clear implicits.

(** [settings.F = v] for each field [F] the handler assigns. *)
Definition set_LogoURL {sh} (v : string) (s : t sh) : t sh :=
  mk sh v (BlackListedLabels s) (AuthenticationMethod s)
    (InternalAuthSettings s) (LDAPSettings s) (OAuthSettings s)
    (SnapshotInterval s) (TemplatesURL s) (EdgeAgentCheckinInterval s)
    (ShowKomposeBuildOption s) (EnableEdgeComputeFeatures s)
    (UserSessionTimeout s) (KubeconfigExpiry s) (EnableTelemetry s)
    (HelmRepositoryURL s) (KubectlShellImage s) (TrustOnFirstConnect s)
    (EnforceEdgeID s) (EdgePortainerURL s) (rest s).
Definition set_BlackListedLabels {sh} (v : option (list Pair)) (s : t sh) : t sh :=
  mk sh (LogoURL s) v (AuthenticationMethod s) (InternalAuthSettings s)
    (LDAPSettings s) (OAuthSettings s) (SnapshotInterval s) (TemplatesURL s)
    (EdgeAgentCheckinInterval s) (ShowKomposeBuildOption s)
    (EnableEdgeComputeFeatures s) (UserSessionTimeout s) (KubeconfigExpiry s)
    (EnableTelemetry s) (HelmRepositoryURL s) (KubectlShellImage s)
    (TrustOnFirstConnect s) (EnforceEdgeID s) (EdgePortainerURL s) (rest s).
Definition set_AuthenticationMethod {sh} (v : Z) (s : t sh) : t sh :=
  mk sh (LogoURL s) (BlackListedLabels s) v (InternalAuthSettings s)
    (LDAPSettings s) (OAuthSettings s) (SnapshotInterval s) (TemplatesURL s)
    (EdgeAgentCheckinInterval s) (ShowKomposeBuildOption s)
    (EnableEdgeComputeFeatures s) (UserSessionTimeout s) (KubeconfigExpiry s)
    (EnableTelemetry s) (HelmRepositoryURL s) (KubectlShellImage s)
    (TrustOnFirstConnect s) (EnforceEdgeID s) (EdgePortainerURL s) (rest s).
Definition set_InternalAuthSettings {sh} (v : InternalAuthSettings.t sh) (s : t sh) : t sh :=
  mk sh (LogoURL s) (BlackListedLabels s) (AuthenticationMethod s) v
    (LDAPSettings s) (OAuthSettings s) (SnapshotInterval s) (TemplatesURL s)
    (EdgeAgentCheckinInterval s) (ShowKomposeBuildOption s)
    (EnableEdgeComputeFeatures s) (UserSessionTimeout s) (KubeconfigExpiry s)
    (EnableTelemetry s) (HelmRepositoryURL s) (KubectlShellImage s)
    (TrustOnFirstConnect s) (EnforceEdgeID s) (EdgePortainerURL s) (rest s).
Definition set_LDAPSettings {sh} (v : LDAPSettings.t sh) (s : t sh) : t sh :=
  mk sh (LogoURL s) (BlackListedLabels s) (AuthenticationMethod s)
    (InternalAuthSettings s) v (OAuthSettings s) (SnapshotInterval s)
    (TemplatesURL s) (EdgeAgentCheckinInterval s) (ShowKomposeBuildOption s)
    (EnableEdgeComputeFeatures s) (UserSessionTimeout s) (KubeconfigExpiry s)
    (EnableTelemetry s) (HelmRepositoryURL s) (KubectlShellImage s)
    (TrustOnFirstConnect s) (EnforceEdgeID s) (EdgePortainerURL s) (rest s).
Definition set_OAuthSettings {sh} (v : OAuthSettings.t sh) (s : t sh) : t sh :=
  mk sh (LogoURL s) (BlackListedLabels s) (AuthenticationMethod s)
    (InternalAuthSettings s) (LDAPSettings s) v (SnapshotInterval s)
    (TemplatesURL s) (EdgeAgentCheckinInterval s) (ShowKomposeBuildOption s)
    (EnableEdgeComputeFeatures s) (UserSessionTimeout s) (KubeconfigExpiry s)
    (EnableTelemetry s) (HelmRepositoryURL s) (KubectlShellImage s)
    (TrustOnFirstConnect s) (EnforceEdgeID s) (EdgePortainerURL s) (rest s).
Definition set_SnapshotInterval {sh} (v : string) (s : t sh) : t sh :=
  mk sh (LogoURL s) (BlackListedLabels s) (AuthenticationMethod s)
    (InternalAuthSettings s) (LDAPSettings s) (OAuthSettings s) v
    (TemplatesURL s) (EdgeAgentCheckinInterval s) (ShowKomposeBuildOption s)
    (EnableEdgeComputeFeatures s) (UserSessionTimeout s) (KubeconfigExpiry s)
    (EnableTelemetry s) (HelmRepositoryURL s) (KubectlShellImage s)
    (TrustOnFirstConnect s) (EnforceEdgeID s) (EdgePortainerURL s) (rest s).
Definition set_TemplatesURL {sh} (v : string) (s : t sh) : t sh :=
  mk sh (LogoURL s) (BlackListedLabels s) (AuthenticationMethod s)
    (InternalAuthSettings s) (LDAPSettings s) (OAuthSettings s)
    (SnapshotInterval s) v (EdgeAgentCheckinInterval s)
    (ShowKomposeBuildOption s) (EnableEdgeComputeFeatures s)
    (UserSessionTimeout s) (KubeconfigExpiry s) (EnableTelemetry s)
    (HelmRepositoryURL s) (KubectlShellImage s) (TrustOnFirstConnect s)
    (EnforceEdgeID s) (EdgePortainerURL s) (rest s).
Definition set_EdgeAgentCheckinInterval {sh} (v : Z) (s : t sh) : t sh :=
  mk sh (LogoURL s) (BlackListedLabels s) (AuthenticationMethod s)
    (InternalAuthSettings s) (LDAPSettings s) (OAuthSettings s)
    (SnapshotInterval s) (TemplatesURL s) v (ShowKomposeBuildOption s)
    (EnableEdgeComputeFeatures s) (UserSessionTimeout s) (KubeconfigExpiry s)
    (EnableTelemetry s) (HelmRepositoryURL s) (KubectlShellImage s)
    (TrustOnFirstConnect s) (EnforceEdgeID s) (EdgePortainerURL s) (rest s).
Definition set_ShowKomposeBuildOption {sh} (v : bool) (s : t sh) : t sh :=
  mk sh (LogoURL s) (BlackListedLabels s) (AuthenticationMethod s)
    (InternalAuthSettings s) (LDAPSettings s) (OAuthSettings s)
    (SnapshotInterval s) (TemplatesURL s) (EdgeAgentCheckinInterval s) v
    (EnableEdgeComputeFeatures s) (UserSessionTimeout s) (KubeconfigExpiry s)
    (EnableTelemetry s) (HelmRepositoryURL s) (KubectlShellImage s)
    (TrustOnFirstConnect s) (EnforceEdgeID s) (EdgePortainerURL s) (rest s).
Definition set_EnableEdgeComputeFeatures {sh} (v : bool) (s : t sh) : t sh :=
  mk sh (LogoURL s) (BlackListedLabels s) (AuthenticationMethod s)
    (InternalAuthSettings s) (LDAPSettings s) (OAuthSettings s)
    (SnapshotInterval s) (TemplatesURL s) (EdgeAgentCheckinInterval s)
    (ShowKomposeBuildOption s) v (UserSessionTimeout s) (KubeconfigExpiry s)
    (EnableTelemetry s) (HelmRepositoryURL s) (KubectlShellImage s)
    (TrustOnFirstConnect s) (EnforceEdgeID s) (EdgePortainerURL s) (rest s).
Definition set_UserSessionTimeout {sh} (v : string) (s : t sh) : t sh :=
  mk sh (LogoURL s) (BlackListedLabels s) (AuthenticationMethod s)
    (InternalAuthSettings s) (LDAPSettings s) (OAuthSettings s)
    (SnapshotInterval s) (TemplatesURL s) (EdgeAgentCheckinInterval s)
    (ShowKomposeBuildOption s) (EnableEdgeComputeFeatures s) v
    (KubeconfigExpiry s) (EnableTelemetry s) (HelmRepositoryURL s)
    (KubectlShellImage s) (TrustOnFirstConnect s) (EnforceEdgeID s)
    (EdgePortainerURL s) (rest s).
Definition set_KubeconfigExpiry {sh} (v : string) (s : t sh) : t sh :=
  mk sh (LogoURL s) (BlackListedLabels s) (AuthenticationMethod s)
    (InternalAuthSettings s) (LDAPSettings s) (OAuthSettings s)
    (SnapshotInterval s) (TemplatesURL s) (EdgeAgentCheckinInterval s)
    (ShowKomposeBuildOption s) (EnableEdgeComputeFeatures s)
    (UserSessionTimeout s) v (EnableTelemetry s) (HelmRepositoryURL s)
    (KubectlShellImage s) (TrustOnFirstConnect s) (EnforceEdgeID s)
    (EdgePortainerURL s) (rest s).
Definition set_EnableTelemetry {sh} (v : bool) (s : t sh) : t sh :=
  mk sh (LogoURL s) (BlackListedLabels s) (AuthenticationMethod s)
    (InternalAuthSettings s) (LDAPSettings s) (OAuthSettings s)
    (SnapshotInterval s) (TemplatesURL s) (EdgeAgentCheckinInterval s)
    (ShowKomposeBuildOption s) (EnableEdgeComputeFeatures s)
    (UserSessionTimeout s) (KubeconfigExpiry s) v (HelmRepositoryURL s)
    (KubectlShellImage s) (TrustOnFirstConnect s) (EnforceEdgeID s)
    (EdgePortainerURL s) (rest s).
Definition set_HelmRepositoryURL {sh} (v : string) (s : t sh) : t sh :=
  mk sh (LogoURL s) (BlackListedLabels s) (AuthenticationMethod s)
    (InternalAuthSettings s) (LDAPSettings s) (OAuthSettings s)
    (SnapshotInterval s) (TemplatesURL s) (EdgeAgentCheckinInterval s)
    (ShowKomposeBuildOption s) (EnableEdgeComputeFeatures s)
    (UserSessionTimeout s) (KubeconfigExpiry s) (EnableTelemetry s) v
    (KubectlShellImage s) (TrustOnFirstConnect s) (EnforceEdgeID s)
    (EdgePortainerURL s) (rest s).
Definition set_KubectlShellImage {sh} (v : string) (s : t sh) : t sh :=
  mk sh (LogoURL s) (BlackListedLabels s) (AuthenticationMethod s)
    (InternalAuthSettings s) (LDAPSettings s) (OAuthSettings s)
    (SnapshotInterval s) (TemplatesURL s) (EdgeAgentCheckinInterval s)
    (ShowKomposeBuildOption s) (EnableEdgeComputeFeatures s)
    (UserSessionTimeout s) (KubeconfigExpiry s) (EnableTelemetry s)
    (HelmRepositoryURL s) v (TrustOnFirstConnect s) (EnforceEdgeID s)
    (EdgePortainerURL s) (rest s).
Definition set_TrustOnFirstConnect {sh} (v : bool) (s : t sh) : t sh :=
  mk sh (LogoURL s) (BlackListedLabels s) (AuthenticationMethod s)
    (InternalAuthSettings s) (LDAPSettings s) (OAuthSettings s)
    (SnapshotInterval s) (TemplatesURL s) (EdgeAgentCheckinInterval s)
    (ShowKomposeBuildOption s) (EnableEdgeComputeFeatures s)
    (UserSessionTimeout s) (KubeconfigExpiry s) (EnableTelemetry s)
    (HelmRepositoryURL s) (KubectlShellImage s) v (EnforceEdgeID s)
    (EdgePortainerURL s) (rest s).
Definition set_EnforceEdgeID {sh} (v : bool) (s : t sh) : t sh :=
  mk sh (LogoURL s) (BlackListedLabels s) (AuthenticationMethod s)
    (InternalAuthSettings s) (LDAPSettings s) (OAuthSettings s)
    (SnapshotInterval s) (TemplatesURL s) (EdgeAgentCheckinInterval s)
    (ShowKomposeBuildOption s) (EnableEdgeComputeFeatures s)
    (UserSessionTimeout s) (KubeconfigExpiry s) (EnableTelemetry s)
    (HelmRepositoryURL s) (KubectlShellImage s) (TrustOnFirstConnect s) v
    (EdgePortainerURL s) (rest s).
Definition set_EdgePortainerURL {sh} (v : string) (s : t sh) : t sh :=
  mk sh (LogoURL s) (BlackListedLabels s) (AuthenticationMethod s)
    (InternalAuthSettings s) (LDAPSettings s) (OAuthSettings s)
    (SnapshotInterval s) (TemplatesURL s) (EdgeAgentCheckinInterval s)
    (ShowKomposeBuildOption s) (EnableEdgeComputeFeatures s)
    (UserSessionTimeout s) (KubeconfigExpiry s) (EnableTelemetry s)
    (HelmRepositoryURL s) (KubectlShellImage s) (TrustOnFirstConnect s)
    (EnforceEdgeID s) v (rest s).
End Settings.

Module User.
Record t {sh : FieldShapes} : Type := mk {
  ID : Z;
  Username : string;
  Password : string;
  Role : Z;
  TokenIssueAt : Z;
  rest : UserRest sh
}.
Arguments t : clear implicits.

Definition set_Password {sh} (v : string) (u : t sh) : t sh :=
  mk sh (ID u) (Username u) v (Role u) (TokenIssueAt u) (rest u).
Definition set_TokenIssueAt {sh} (v : Z) (u : t sh) : t sh :=
  mk sh (ID u) (Username u) (Password u) (Role u) v (rest u).
End User.

End portainer.

(** ** Go standard library functions used by the handlers *)

Module strings.

(** [strings.HasSuffix] *)
Definition HasSuffix (s suffix : string) : bool :=
  let n := String.length s in
  let m := String.length suffix in
  (m <=? n)%nat && String.eqb (String.substring (n - m) m s) suffix.

(** [strings.TrimSuffix]: [s] without the trailing [suffix], once, when it
    ends with it. *)
Definition TrimSuffix (s suffix : string) : string :=
  if HasSuffix s suffix
  then String.substring 0 (String.length s - String.length suffix) s
  else s.

(** [strings.ToLower] on a string of ASCII characters. *)
Definition lowerAscii (c : Ascii.ascii) : Ascii.ascii :=
  let n := Ascii.nat_of_ascii c in
  if ((65 <=? n) && (n <=? 90))%nat then Ascii.ascii_of_nat (n + 32) else c.

Fixpoint asciiToLower (s : string) : string :=
  match s with
  | EmptyString => EmptyString
  | String c rest => String (lowerAscii c) (asciiToLower rest)
  end.

End strings.

(** ** Settings update (settings_update.go) *)

Module settings.
Import portainer.

Module settingsUpdatePayload.
Record t {sh : FieldShapes} : Type := mk {
  LogoURL : option string;
  BlackListedLabels : option (list Pair);
  AuthenticationMethod : option Z;
  InternalAuthSettings : option (InternalAuthSettings.t sh);
  LDAPSettings : option (LDAPSettings.t sh);
  OAuthSettings : option (OAuthSettings.t sh);
  SnapshotInterval : option string;
  TemplatesURL : option string;
  EdgeAgentCheckinInterval : option Z;
  ShowKomposeBuildOption : option bool;
  EnableEdgeComputeFeatures : option bool;
  UserSessionTimeout : option string;
  KubeconfigExpiry : option string;
  EnableTelemetry : option bool;
  HelmRepositoryURL : option string;
  KubectlShellImage : option string;
  TrustOnFirstConnect : option bool;
  EnforceEdgeID : option bool;
  EdgePortainerURL : option string
}.
Arguments t : clear implicits.

(** [payload.EnableTelemetry = nil] *)
Definition clear_EnableTelemetry {sh} (p : t sh) : t sh :=
  mk sh (LogoURL p) (BlackListedLabels p) (AuthenticationMethod p)
    (InternalAuthSettings p) (LDAPSettings p) (OAuthSettings p)
    (SnapshotInterval p) (TemplatesURL p) (EdgeAgentCheckinInterval p)
    (ShowKomposeBuildOption p) (EnableEdgeComputeFeatures p)
    (UserSessionTimeout p) (KubeconfigExpiry p) None (HelmRepositoryURL p)
    (KubectlShellImage p) (TrustOnFirstConnect p) (EnforceEdgeID p)
    (EdgePortainerURL p).

(** [payload.LogoURL = nil] *)
Definition clear_LogoURL {sh} (p : t sh) : t sh :=
  mk sh None (BlackListedLabels p) (AuthenticationMethod p)
    (InternalAuthSettings p) (LDAPSettings p) (OAuthSettings p)
    (SnapshotInterval p) (TemplatesURL p) (EdgeAgentCheckinInterval p)
    (ShowKomposeBuildOption p) (EnableEdgeComputeFeatures p)
    (UserSessionTimeout p) (KubeconfigExpiry p) (EnableTelemetry p)
    (HelmRepositoryURL p) (KubectlShellImage p) (TrustOnFirstConnect p)
    (EnforceEdgeID p) (EdgePortainerURL p).
End settingsUpdatePayload.

Section Handler.
Context {sh : FieldShapes}.

(** A call that leaves the handler, in the order issued. *)
Inductive Event : Type :=
| EvValidateHelmRepositoryURL (url : string)
| EvSetSnapshotInterval (snapshotInterval : string)
| EvSetUserSessionDuration (userSessionDuration : Z)
| EvGetPathForTLSFile
| EvDeleteTLSFiles.

(** What a run of the handler acts on: the settings aggregate held by the
    datastore and the calls issued so far, oldest first. *)
Record World : Type := mkWorld {
  persisted : Settings.t sh;
  trace : list Event
}.

(** The store handle [tx dataservices.DataStoreTx], restricted to
    [tx.Settings()]: a read or a write of the aggregate may fail with the
    given error. *)
Record DataStoreTx : Type := {
  Settings_fault : option error;
  UpdateSettings_fault : option error
}.

(** The services of [Handler] and the package-level functions and constants
    that [updateSettings] relies on. *)
Record Handler : Type := {
  demoService_IsDemo : bool;
  SnapshotService_SetSnapshotInterval : string → option error;
  FileService_GetPathForTLSFile : string;
  FileService_DeleteTLSFiles : option error;
  libhelm_ValidateHelmRepositoryURL : string → option error;
  time_ParseDuration : string → Z;
  strings_ToLower : string → string;
  DefaultHelmRepositoryURL : string
}.

(** The same handler with another answer of [demoService.IsDemo()]. *)
Definition set_demoService_IsDemo (v : bool) (handler : Handler) : Handler :=
  {| demoService_IsDemo := v;
     SnapshotService_SetSnapshotInterval := SnapshotService_SetSnapshotInterval handler;
     FileService_GetPathForTLSFile := FileService_GetPathForTLSFile handler;
     FileService_DeleteTLSFiles := FileService_DeleteTLSFiles handler;
     libhelm_ValidateHelmRepositoryURL := libhelm_ValidateHelmRepositoryURL handler;
     time_ParseDuration := time_ParseDuration handler;
     strings_ToLower := strings_ToLower handler;
     DefaultHelmRepositoryURL := DefaultHelmRepositoryURL handler |}.

(** Handler code: a computation over the world that returns a value or stops
    at the first [return ..., err]. *)
Definition M (A : Type) : Type := World → (error + A) * World.

#[local] Instance M_ret : MRet M := λ A a w, (inr a, w).
#[local] Instance M_bind : MBind M := λ A B f m w,
  match m w with
  | (inl err, w') => (inl err, w')
  | (inr a, w') => f a w'
  end.

Definition fail {A} (err : error) : M A := λ w, (inl err, w).

Definition emit (ev : Event) : M unit :=
  λ w, (inr (), mkWorld (persisted w) (trace w ++ [ev])).

(** [if err != nil { return nil, wrap err }] *)
Definition check (res : option error) (wrap : error → error) : M unit :=
  match res with
  | Some err => fail (wrap err)
  | None => mret ()
  end.

(** [tx.Settings().Settings()] *)
Definition tx_Settings (tx : DataStoreTx) : M (Settings.t sh) :=
  λ w, match Settings_fault tx with
       | Some err => (inl err, w)
       | None => (inr (persisted w), w)
       end.

(** [tx.Settings().UpdateSettings(settings)] *)
Definition tx_UpdateSettings (tx : DataStoreTx) (settings : Settings.t sh)
    : M unit :=
  λ w, match UpdateSettings_fault tx with
       | Some err => (inl err, w)
       | None => (inr (), mkWorld settings (trace w))
       end.

(** [if payload.F != nil { settings.F = *payload.F }] *)
Definition assignIfPresent {A} (field : option A)
    (set : A → Settings.t sh → Settings.t sh) (settings : Settings.t sh)
    : Settings.t sh :=
  match field with
  | Some v => set v settings
  | None => settings
  end.

(** [err := f(...); if err != nil { return nil, wrap(err) }] around a call
    that is itself handler code. *)
Definition mapErr {A} (wrap : error → error) (m : M A) : M A :=
  λ w, match m w with
       | (inl err, w') => (inl (wrap err), w')
       | (inr a, w') => (inr a, w')
       end.

Definition nonEmpty (s : string) : bool := negb (String.eqb s "").
Definition differs (s1 s2 : string) : bool := negb (String.eqb s1 s2).

(** [updateSnapshotInterval]: the field is assigned before the snapshot
    service is called; the service's error is returned as it is. *)
Definition updateSnapshotInterval (handler : Handler)
    (settings : Settings.t sh) (snapshotInterval : string)
    : M (Settings.t sh) :=
  let settings := Settings.set_SnapshotInterval snapshotInterval settings in
  emit (EvSetSnapshotInterval snapshotInterval);;
  check (SnapshotService_SetSnapshotInterval handler snapshotInterval) id;;
  mret settings.

(** [updateTLS] *)
Definition updateTLS (handler : Handler) (settings : Settings.t sh)
    : M (Settings.t sh) :=
  let ldap := Settings.LDAPSettings settings in
  let tlsConfig := LDAPSettings.TLSConfig ldap in
  let setCACertPath path :=
    Settings.set_LDAPSettings
      (LDAPSettings.set_TLSConfig
         (TLSConfiguration.set_TLSCACertPath path tlsConfig) ldap) settings in
  if (TLSConfiguration.TLS tlsConfig || LDAPSettings.StartTLS ldap)
     && negb (TLSConfiguration.TLSSkipVerify tlsConfig)
  then
    emit EvGetPathForTLSFile;;
    let caCertPath := FileService_GetPathForTLSFile handler in
    mret (setCACertPath caCertPath)
  else
    let settings := setCACertPath "" in
    emit EvDeleteTLSFiles;;
    check (FileService_DeleteTLSFiles handler)
      (λ err, InternalServerError "Unable to remove TLS files from disk" (Some err));;
    mret settings.

Import settingsUpdatePayload.

(** Lines 172-188: [if payload.HelmRepositoryURL != nil { ... }] *)
Definition mergeHelmRepositoryURL (handler : Handler) (payload : t sh)
    (settings : Settings.t sh) : M (Settings.t sh) :=
  match HelmRepositoryURL payload with
  | Some url =>
      if nonEmpty url then
        let newHelmRepo :=
          strings.TrimSuffix (strings_ToLower handler url) "/" in
        (if differs newHelmRepo (Settings.HelmRepositoryURL settings)
            && differs newHelmRepo (DefaultHelmRepositoryURL handler)
         then
           emit (EvValidateHelmRepositoryURL url);;
           check (libhelm_ValidateHelmRepositoryURL handler url)
             (λ err, BadRequest
                "Invalid Helm repository URL. Must correspond to a valid URL format"
                (Some err))
         else mret ());;
        mret (Settings.set_HelmRepositoryURL newHelmRepo settings)
      else mret (Settings.set_HelmRepositoryURL "" settings)
  | None => mret settings
  end.

(** Lines 194-196: only [RequiredPasswordLength] is copied. *)
Definition mergeInternalAuthSettings (payload : t sh)
    (settings : Settings.t sh) : Settings.t sh :=
  match InternalAuthSettings payload with
  | Some internalAuth =>
      Settings.set_InternalAuthSettings
        (InternalAuthSettings.set_RequiredPasswordLength
           (InternalAuthSettings.RequiredPasswordLength internalAuth)
           (Settings.InternalAuthSettings settings)) settings
  | None => settings
  end.

(** Lines 198-213: [if payload.LDAPSettings != nil { ... }] *)
Definition mergeLDAPSettings (payload : t sh) (settings : Settings.t sh)
    : Settings.t sh :=
  match LDAPSettings payload with
  | Some ldap =>
      let ldapReaderDN := LDAPSettings.ReaderDN (Settings.LDAPSettings settings) in
      let ldapPassword := LDAPSettings.Password (Settings.LDAPSettings settings) in
      let ldapReaderDN :=
        if nonEmpty (LDAPSettings.ReaderDN ldap)
        then LDAPSettings.ReaderDN ldap else ldapReaderDN in
      let ldapPassword :=
        if nonEmpty (LDAPSettings.Password ldap)
        then LDAPSettings.Password ldap else ldapPassword in
      let settings := Settings.set_LDAPSettings ldap settings in
      let settings :=
        Settings.set_LDAPSettings
          (LDAPSettings.set_ReaderDN ldapReaderDN (Settings.LDAPSettings settings))
          settings in
      Settings.set_LDAPSettings
        (LDAPSettings.set_Password ldapPassword (Settings.LDAPSettings settings))
        settings
  | None => settings
  end.

(** Lines 215-228: [if payload.OAuthSettings != nil { ... }] *)
Definition mergeOAuthSettings (payload : t sh) (settings : Settings.t sh)
    : Settings.t sh :=
  match OAuthSettings payload with
  | Some oauth =>
      let clientSecret := OAuthSettings.ClientSecret oauth in
      let clientSecret :=
        if String.eqb clientSecret ""
        then OAuthSettings.ClientSecret (Settings.OAuthSettings settings)
        else clientSecret in
      let kubeSecret := OAuthSettings.KubeSecretKey oauth in
      let kubeSecret :=
        match kubeSecret with
        | None => OAuthSettings.KubeSecretKey (Settings.OAuthSettings settings)
        | Some _ => kubeSecret
        end in
      let settings := Settings.set_OAuthSettings oauth settings in
      let settings :=
        Settings.set_OAuthSettings
          (OAuthSettings.set_ClientSecret clientSecret (Settings.OAuthSettings settings))
          settings in
      Settings.set_OAuthSettings
        (OAuthSettings.set_KubeSecretKey kubeSecret (Settings.OAuthSettings settings))
        settings
  | None => settings
  end.

(** Lines 246-251 *)
Definition mergeSnapshotInterval (handler : Handler) (payload : t sh)
    (settings : Settings.t sh) : M (Settings.t sh) :=
  match SnapshotInterval payload with
  | Some snapshotInterval =>
      if differs snapshotInterval (Settings.SnapshotInterval settings) then
        mapErr
          (λ err, InternalServerError "Unable to update snapshot interval" (Some err))
          (updateSnapshotInterval handler settings snapshotInterval)
      else mret settings
  | None => mret settings
  end.

(** Lines 261-267: the error of [time.ParseDuration] is dropped. *)
Definition mergeUserSessionTimeout (handler : Handler) (payload : t sh)
    (settings : Settings.t sh) : M (Settings.t sh) :=
  match UserSessionTimeout payload with
  | Some userSessionTimeout =>
      let settings := Settings.set_UserSessionTimeout userSessionTimeout settings in
      let userSessionDuration := time_ParseDuration handler userSessionTimeout in
      emit (EvSetUserSessionDuration userSessionDuration);;
      mret settings
  | None => mret settings
  end.

(** Lines 151-154: the payload is a by-value parameter, so the caller's copy is
    not affected. *)
Definition suppressForDemo (handler : Handler) (payload : t sh) : t sh :=
  if demoService_IsDemo handler
  then clear_LogoURL (clear_EnableTelemetry payload)
  else payload.

(** [updateSettings] *)
Definition updateSettings (handler : Handler) (tx : DataStoreTx)
    (payload : t sh) : M (Settings.t sh) :=
  settings ← mapErr
    (λ err, InternalServerError
       "Unable to retrieve the settings from the database" (Some err))
    (tx_Settings tx);
  let payload := suppressForDemo handler payload in
  let settings := assignIfPresent (AuthenticationMethod payload)
                    Settings.set_AuthenticationMethod settings in
  let settings := assignIfPresent (LogoURL payload) Settings.set_LogoURL settings in
  let settings := assignIfPresent (TemplatesURL payload)
                    Settings.set_TemplatesURL settings in
  let settings := assignIfPresent (ShowKomposeBuildOption payload)
                    Settings.set_ShowKomposeBuildOption settings in
  settings ← mergeHelmRepositoryURL handler payload settings;
  let settings := assignIfPresent (BlackListedLabels payload)
                    (λ v, Settings.set_BlackListedLabels (Some v)) settings in
  let settings := mergeInternalAuthSettings payload settings in
  let settings := mergeLDAPSettings payload settings in
  let settings := mergeOAuthSettings payload settings in
  let settings := assignIfPresent (EnableEdgeComputeFeatures payload)
                    Settings.set_EnableEdgeComputeFeatures settings in
  let settings := assignIfPresent (TrustOnFirstConnect payload)
                    Settings.set_TrustOnFirstConnect settings in
  let settings := assignIfPresent (EnforceEdgeID payload)
                    Settings.set_EnforceEdgeID settings in
  let settings := assignIfPresent (EdgePortainerURL payload)
                    Settings.set_EdgePortainerURL settings in
  settings ← mergeSnapshotInterval handler payload settings;
  let settings := assignIfPresent (EdgeAgentCheckinInterval payload)
                    Settings.set_EdgeAgentCheckinInterval settings in
  let settings := assignIfPresent (KubeconfigExpiry payload)
                    Settings.set_KubeconfigExpiry settings in
  settings ← mergeUserSessionTimeout handler payload settings;
  let settings := assignIfPresent (EnableTelemetry payload)
                    Settings.set_EnableTelemetry settings in
  settings ← updateTLS handler settings;
  let settings := assignIfPresent (KubectlShellImage payload)
                    Settings.set_KubectlShellImage settings in
  mapErr
    (λ err, InternalServerError
       "Unable to persist settings changes inside the database" (Some err))
    (tx_UpdateSettings tx settings);;
  mret settings.

End Handler.

Arguments World : clear implicits.
Arguments Event : clear implicits.
Arguments Handler : clear implicits.

(** *** Sample data *)

Definition sampleLDAP (password : string) : LDAPSettings.t plainShapes :=
  LDAPSettings.mk plainShapes "cn=reader" password
    (TLSConfiguration.mk plainShapes false false "" ()) false ().

Definition sampleOAuth (clientSecret : string) : OAuthSettings.t plainShapes :=
  OAuthSettings.mk plainShapes clientSecret None ().

(** Stored settings with secret ["S1"], session timeout ["8h"] and snapshot
    interval ["5m"]. *)
Definition sampleSettings : Settings.t plainShapes :=
  Settings.mk plainShapes "" None 1
    (InternalAuthSettings.mk plainShapes 12 ())
    (sampleLDAP "S1") (sampleOAuth "S1")
    "5m" "" 5 false false "8h" "0" false "https://charts.example.com" ""
    false false "" ().

Definition sampleWorld : World plainShapes := mkWorld sampleSettings [].

Definition emptyPayload : settingsUpdatePayload.t plainShapes :=
  settingsUpdatePayload.mk plainShapes None None None None None None None None
    None None None None None None None None None None None.

(** [{"UserSessionTimeout": "5m", "SnapshotInterval": "1m"}] *)
Definition timeoutPayload : settingsUpdatePayload.t plainShapes :=
  settingsUpdatePayload.mk plainShapes None None None None None None (Some "1m")
    None None None None (Some "5m") None None None None None None None.

(** LDAP and OAuth blocks present, with the given secrets. *)
Definition secretsPayload (password clientSecret : string)
    : settingsUpdatePayload.t plainShapes :=
  settingsUpdatePayload.mk plainShapes None None None None
    (Some (sampleLDAP password)) (Some (sampleOAuth clientSecret)) None None
    None None None None None None None None None None None.

(** [{"EnableTelemetry": true, "LogoURL": "https://logo.example.com/l.png"}] *)
Definition brandingPayload : settingsUpdatePayload.t plainShapes :=
  settingsUpdatePayload.mk plainShapes (Some "https://logo.example.com/l.png")
    None None None None None None None None None None None None (Some true)
    None None None None None.

(** [{"HelmRepositoryURL": url}] *)
Definition helmPayload (url : string) : settingsUpdatePayload.t plainShapes :=
  settingsUpdatePayload.mk plainShapes None None None None None None None None
    None None None None None None (Some url) None None None None.

(** A store handle whose reads and writes succeed, and one whose write fails. *)
Definition soundStore : DataStoreTx :=
  {| Settings_fault := None; UpdateSettings_fault := None |}.
Definition readOnlyStore : DataStoreTx :=
  {| Settings_fault := None;
     UpdateSettings_fault := Some (ErrorString "database is read-only") |}.

(** Collaborators that all succeed; [helmReachable] tells which repository
    URLs pass the check of [libhelm]. *)
Definition sampleHandler (isDemo : bool) (helmReachable : string → bool)
    : Handler :=
  {| demoService_IsDemo := isDemo;
     SnapshotService_SetSnapshotInterval := λ _, None;
     FileService_GetPathForTLSFile := "/data/tls/ldap/ca.pem";
     FileService_DeleteTLSFiles := None;
     libhelm_ValidateHelmRepositoryURL := λ url,
       if helmReachable url then None
       else Some (ErrorString "helm repository is unreachable");
     time_ParseDuration := λ s,
       if String.eqb s "5m" then 300000000000 else 0;
     strings_ToLower := strings.asciiToLower;
     DefaultHelmRepositoryURL := "https://charts.bitnami.com/bitnami" |}.

End settings.

(** ** Password update (user_update_password.go) *)

Module users.
Import portainer.

Record userUpdatePasswordPayload : Type := {
  Password : string;
  NewPassword : string
}.

(** [govalidator.IsNull] *)
Definition IsNull (str : string) : bool := (String.length str =? 0)%nat.

(** [(payload *userUpdatePasswordPayload) Validate] *)
Definition Validate (payload : userUpdatePasswordPayload) : option error :=
  if IsNull (Password payload) then Some (ErrorString "Invalid current password")
  else if IsNull (NewPassword payload) then Some (ErrorString "Invalid new password")
  else None.

(** [portainer.TokenData], the two fields read here. *)
Record TokenData : Type := {
  ID : Z;
  Role : Z
}.

(** What the handler extracts from [r *http.Request]: the numeric route
    variable ["id"], the token data of the security context and the decoded
    JSON body, each of which may be unavailable. *)
Record Request : Type := {
  route_id : error + Z;
  token_data : error + TokenData;
  json_body : error + userUpdatePasswordPayload
}.

(** [request.DecodeAndValidateJSONPayload]: decode, then [Validate]. *)
Definition DecodeAndValidateJSONPayload (r : Request)
    : error + userUpdatePasswordPayload :=
  match json_body r with
  | inl err => inl err
  | inr payload =>
      match Validate payload with
      | Some err => inl err
      | None => inr payload
      end
  end.

Section Handler.
Context {sh : FieldShapes}.

(** [handler.DataStore], restricted to [User()]: the stored users by
    identifier; a read or an update may fail with the given error. *)
Record DataStore : Type := mkDataStore {
  stored_users : gmap Z (User.t sh);
  User_Read_fault : option error;
  User_Update_fault : option error
}.

Inductive ReadResult : Type :=
| ReadOk (user : User.t sh)
| ReadNotFound (err : error)
| ReadFailed (err : error).

(** [handler.DataStore.User().Read(id)], with the outcome of
    [IsErrObjectNotFound] on its error made part of the result. *)
Definition User_Read (ds : DataStore) (ErrObjectNotFound : error) (id : Z)
    : ReadResult :=
  match User_Read_fault ds with
  | Some err => ReadFailed err
  | None =>
      match stored_users ds !! id with
      | Some user => ReadOk user
      | None => ReadNotFound ErrObjectNotFound
      end
  end.

(** [handler.DataStore.User().Update(id, user)] *)
Definition User_Update (ds : DataStore) (id : Z) (user : User.t sh)
    : option error * DataStore :=
  match User_Update_fault ds with
  | Some err => (Some err, ds)
  | None =>
      (None, mkDataStore (<[id := user]> (stored_users ds))
               (User_Read_fault ds) (User_Update_fault ds))
  end.

(** The services of [Handler], the clock and the package-level constants
    that [userUpdatePassword] relies on. *)
Record Handler : Type := {
  demoService_IsDemoUser : Z → bool;
  CryptoService_CompareHashAndData : string → string → option error;
  CryptoService_Hash : string → error + string;
  passwordStrengthChecker_Check : string → bool;
  time_Now_Unix : Z;
  AdministratorRole : Z;
  ErrNotAvailableInDemo : error;
  ErrNotAvailableInDemo_Error : string;
  ErrUnauthorized : error;
  ErrObjectNotFound : error;
  errCryptoHashFailure : error
}.

(** [userUpdatePassword]: the returned [*httperror.HandlerError] ([None] after
    [response.Empty(w)]) and the datastore afterwards. *)
Definition userUpdatePassword (handler : Handler) (r : Request) (ds : DataStore)
    : option error * DataStore :=
  match route_id r with
  | inl err =>
      (Some (BadRequest "Invalid user identifier route variable" (Some err)), ds)
  | inr userID =>
  if demoService_IsDemoUser handler userID then
    (Some (Forbidden (ErrNotAvailableInDemo_Error handler)
             (Some (ErrNotAvailableInDemo handler))), ds)
  else
  match token_data r with
  | inl err =>
      (Some (InternalServerError "Unable to retrieve user authentication token"
               (Some err)), ds)
  | inr tokenData =>
  if negb (Role tokenData =? AdministratorRole handler)
     && negb (ID tokenData =? userID)
  then
    (Some (Forbidden "Permission denied to update user"
             (Some (ErrUnauthorized handler))), ds)
  else
  match DecodeAndValidateJSONPayload r with
  | inl err => (Some (BadRequest "Invalid request payload" (Some err)), ds)
  | inr payload =>
  match User_Read ds (ErrObjectNotFound handler) userID with
  | ReadNotFound err =>
      (Some (NotFound
               "Unable to find a user with the specified identifier inside the database"
               (Some err)), ds)
  | ReadFailed err =>
      (Some (InternalServerError
               "Unable to find a user with the specified identifier inside the database"
               (Some err)), ds)
  | ReadOk user =>
  match CryptoService_CompareHashAndData handler
          (User.Password user) (Password payload) with
  | Some _ =>
      (Some (Forbidden "Current password doesn't match"
               (Some (ErrorString
                  "Current password does not match the password provided. Please try again"))),
       ds)
  | None =>
  if negb (passwordStrengthChecker_Check handler (NewPassword payload)) then
    (Some (BadRequest "Password does not meet the requirements" None), ds)
  else
  match CryptoService_Hash handler (NewPassword payload) with
  | inl _ =>
      (Some (InternalServerError "Unable to hash user password"
               (Some (errCryptoHashFailure handler))), ds)
  | inr hash =>
  let user := User.set_Password hash user in
  let user := User.set_TokenIssueAt (time_Now_Unix handler) user in
  match User_Update ds (User.ID user) user with
  | (Some err, ds') =>
      (Some (InternalServerError
               "Unable to persist user changes inside the database" (Some err)),
       ds')
  | (None, ds') => (None, ds')
  end end end end end end end.

End Handler.

Arguments DataStore : clear implicits.

(** *** Sample data *)

Definition sampleHash (password : string) : string :=
  String.append "sha:" password.

Definition sampleUser (id : Z) (name password : string) : User.t plainShapes :=
  User.mk plainShapes id name (sampleHash password) 2 1600000000 ().

Definition sampleStore : DataStore plainShapes :=
  mkDataStore (<[7 := sampleUser 7 "alice" "old secret"]>
                 (<[8 := sampleUser 8 "bob" "hunter2"]> ∅)) None None.

Definition sampleHandler : Handler :=
  {| demoService_IsDemoUser := λ _, false;
     CryptoService_CompareHashAndData := λ hash password,
       if String.eqb hash (sampleHash password) then None
       else Some (ErrorString "hash and password do not match");
     CryptoService_Hash := λ password, inr (sampleHash password);
     passwordStrengthChecker_Check := λ password,
       (12 <=? String.length password)%nat;
     time_Now_Unix := 1700000000;
     AdministratorRole := 1;
     ErrNotAvailableInDemo := ErrorString "This feature is not available in the demo version of Portainer";
     ErrNotAvailableInDemo_Error := "This feature is not available in the demo version of Portainer";
     ErrUnauthorized := ErrorString "Unauthorized";
     ErrObjectNotFound := ErrorString "object not found inside the database";
     errCryptoHashFailure := ErrorString "Unable to hash data" |}.

(** User 7 changes their own password. *)
Definition sampleRequest : Request :=
  {| route_id := inr 7;
     token_data := inr {| ID := 7; Role := 2 |};
     json_body := inr {| Password := "old secret";
                         NewPassword := "correct horse battery" |} |}.

End users.

(** ** The dual-mode mutation executor

    Both [settingsUpdate] and [endpointRegistryAccess] run their mutation body
    either on [handler.DataStore] itself or inside [handler.DataStore.UpdateTx],
    depending on the feature flag [portainer.FeatureNoTx]. *)

Module executor.

(** An aggregate is addressed by its kind and its numeric identifier. *)
Abbreviation Key := (string * Z)%type.

Section Executor.
Context {V R : Type}.

(** Modelled from the spec: the store capability interface
    [dataservices.DataStoreTx] that both handle kinds satisfy (section 6,
    Store): [readAggregate(kind, id) -> (value, NotFoundError|other)] and
    [writeAggregate(kind, id, value) -> error]. *)
Class StoreCapability (H : Type) : Type := {
  readAggregate : Key → H → error + V;
  writeAggregate : Key → V → H → option error * H
}.

(** Modelled from the spec: a mutation body written against the capability
    interface only.  It returns a result, returns an error, or performs a
    read or a write and continues according to the outcome. *)
Inductive Mutation : Type :=
| Return (r : R)
| Fail (err : error)
| Read (key : Key) (k : error + V → Mutation)
| Write (key : Key) (value : V) (k : option error → Mutation).

(** Modelled from the spec: running a body on a handle of either kind; the
    body sees the store only through the two operations of the interface. *)
Fixpoint run {H : Type} `{StoreCapability H} (body : Mutation) (h : H)
    : (error + R) * H :=
  match body with
  | Return r => (inr r, h)
  | Fail err => (inl err, h)
  | Read key k => run (k (readAggregate key h)) h
  | Write key value k =>
      let '(res, h') := writeAggregate key value h in
      run (k res) h'
  end.

(** The error a read of an absent aggregate yields. *)
Context (ErrObjectNotFound : error).

(** Modelled from the spec: the direct handle [handler.DataStore], which is
    the persisted state itself; every write reaches it at once. *)
#[local] Instance direct_capability : StoreCapability (gmap Key V) := {
  readAggregate key store :=
    match store !! key with
    | Some v => inr v
    | None => inl ErrObjectNotFound
    end;
  writeAggregate key value store := (None, <[key := value]> store)
}.

(** Modelled from the spec: the transactional handle; it reads through its
    pending writes to the state the transaction started from, and keeps
    writes pending until the transaction commits. *)
Record TxStore : Type := mkTx {
  snapshot : gmap Key V;
  pending : gmap Key V
}.

#[local] Instance tx_capability : StoreCapability TxStore := {
  readAggregate key tx :=
    match pending tx !! key with
    | Some v => inr v
    | None =>
        match snapshot tx !! key with
        | Some v => inr v
        | None => inl ErrObjectNotFound
        end
    end;
  writeAggregate key value tx :=
    (None, mkTx (snapshot tx) (<[key := value]> (pending tx)))
}.

(** Modelled from the spec: opening a transaction on the persisted state. *)
Definition begin (store : gmap Key V) : TxStore := mkTx store ∅.

(** Modelled from the spec: committing applies the pending writes to the
    state the transaction started from. *)
Definition commit (tx : TxStore) : gmap Key V := pending tx ∪ snapshot tx.

(** Modelled from the spec: [handler.DataStore.UpdateTx] (section 4.4): open
    an atomic transaction, invoke the body with a transactional handle, commit
    if the body returns success, roll back if it returns an error, and hand
    the error on unchanged. *)
Definition UpdateTx (body : Mutation) (store : gmap Key V)
    : (error + R) * gmap Key V :=
  match run body (begin store) with
  | (inr r, tx) => (inr r, commit tx)
  | (inl err, _) => (inl err, store)
  end.

(** Lines 122-130 of settings_update.go and 54-60 of
    endpoint_registry_access.go; [noTx] is
    [featureflags.IsEnabled(portainer.FeatureNoTx)]. *)
Definition execute (noTx : bool) (body : Mutation) (store : gmap Key V)
    : (error + R) * gmap Key V :=
  if noTx then run (H := gmap Key V) body store
  else UpdateTx body store.

End Executor.

Arguments Mutation : clear implicits.
Arguments TxStore : clear implicits.

(** *** Sample data *)

(** A counter held in the aggregate [("settings", 1)]. *)
Definition sampleStore : gmap Key Z := <[("settings", 1) := 41]> ∅.

(** Read the counter, store its successor, return the value read. *)
Definition sampleBody : Mutation Z Z :=
  Read ("settings", 1) (λ res,
    match res with
    | inl err => Fail err
    | inr v =>
        Write ("settings", 1) (v + 1) (λ res,
          match res with
          | Some err => Fail err
          | None => Return v
          end)
    end).

Definition sampleNotFound : error :=
  ErrorString "object not found inside the database".

End executor.

(** ** Reporting the error of a mutation

    Both [endpointRegistryAccess] (lines 62-69) and [settingsUpdate] (lines
    132-139) end with the same statements: an error that is a
    [*httperror.HandlerError] is returned as it is, any other one becomes an
    internal server error. *)
Definition classify (err : error) : error :=
  match err with
  | HandlerError _ _ _ => err
  | ErrorString _ => InternalServerError "Unexpected error" (Some err)
  end.

(** ** Registry access: further data types (package portainer) *)

Module portainer_registry.

(** The types the handler only stores and copies: the two access-policy
    maps, and the fields of an environment and of a registry that it never
    names. *)
Record AccessShapes : Type := {
  UserPolicies : Type;
  TeamPolicies : Type;
  EndpointRest : Type;
  RegistryRest : Type
}.

(** [portainer.RegistryAccessPolicies]; a [nil] map or slice is [None]. *)
Module RegistryAccessPolicies.
Record t {sh : AccessShapes} : Type := mk {
  UserAccessPolicies : option (UserPolicies sh);
  TeamAccessPolicies : option (TeamPolicies sh);
  Namespaces : option (list string)
}.
Arguments t : clear implicits.

(** [portainer.RegistryAccessPolicies{}] *)
Definition zero {sh} : t sh := mk sh None None None.

Definition set_UserAccessPolicies {sh} (v : option (UserPolicies sh)) (p : t sh)
    : t sh :=
  mk sh v (TeamAccessPolicies p) (Namespaces p).
Definition set_TeamAccessPolicies {sh} (v : option (TeamPolicies sh)) (p : t sh)
    : t sh :=
  mk sh (UserAccessPolicies p) v (Namespaces p).
Definition set_Namespaces {sh} (v : option (list string)) (p : t sh) : t sh :=
  mk sh (UserAccessPolicies p) (TeamAccessPolicies p) v.
End RegistryAccessPolicies.

(** [portainer.Endpoint]; [EndpointType] is its field [Type]. *)
Module Endpoint.
Record t {sh : AccessShapes} : Type := mk {
  ID : Z;
  EndpointType : Z;
  rest : EndpointRest sh
}.
Arguments t : clear implicits.
End Endpoint.

(** [portainer.Registry]; [RegistryAccesses] is a map from environment
    identifiers to access policies, [nil] when never set. *)
Module Registry.
Record t {sh : AccessShapes} : Type := mk {
  ID : Z;
  RegistryAccesses : option (gmap Z (RegistryAccessPolicies.t sh));
  rest : RegistryRest sh
}.
Arguments t : clear implicits.

Definition set_RegistryAccesses {sh}
    (v : option (gmap Z (RegistryAccessPolicies.t sh))) (r : t sh) : t sh :=
  mk sh (ID r) v (rest r).
End Registry.

End portainer_registry.

(** ** Registry access: the mutation body and the handler
    (endpoint_registry_access.go, lines 16-134) *)

Module endpoint_registry_access.
Import portainer_registry endpoints.

Module registryAccessPayload.
Record t {sh : AccessShapes} : Type := mk {
  UserAccessPolicies : option (UserPolicies sh);
  TeamAccessPolicies : option (TeamPolicies sh);
  Namespaces : option (list string)
}.
Arguments t : clear implicits.

(** [(payload *registryAccessPayload) Validate] accepts every payload. *)
Definition Validate {sh} (payload : t sh) : option error := None.
End registryAccessPayload.

(** The namespace a call to the cluster client is about. *)
Definition call_namespace (c : KubeCall) : string :=
  match c with CallDelete namespace _ | CallCreate namespace _ => namespace end.

(** [security.RestrictedRequestContext], the field read here. *)
Record RestrictedRequestContext : Type := {
  IsAdmin : bool
}.

Section Handler.
Context {sh : AccessShapes} {Cluster : Type}.

(** What the handler extracts from [r *http.Request]: the two numeric route
    variables, the restricted request context and the decoded JSON body. *)
Record Request : Type := {
  route_id : error + Z;
  route_registryId : error + Z;
  restricted_context : error + RestrictedRequestContext;
  json_body : error + registryAccessPayload.t sh
}.

(** [request.DecodeAndValidateJSONPayload]: decode, then [Validate]. *)
Definition DecodeAndValidateJSONPayload (r : Request)
    : error + registryAccessPayload.t sh :=
  match json_body r with
  | inl err => inl err
  | inr payload =>
      match registryAccessPayload.Validate payload with
      | Some err => inl err
      | None => inr payload
      end
  end.

(** The environments and registries held by the datastore. *)
Record Store : Type := mkStore {
  stored_endpoints : gmap Z (Endpoint.t sh);
  stored_registries : gmap Z (Registry.t sh)
}.

(** What a run acts on: the datastore, the remote cluster, and the calls
    issued to the cluster client so far, oldest first. *)
Record World : Type := mkWorld {
  store : Store;
  cluster : Cluster;
  calls : list KubeCall
}.

(** The store handle [tx dataservices.DataStoreTx], restricted to
    [tx.Endpoint()] and [tx.Registry()]: each operation may fail with the
    given error; [ErrObjectNotFound] is the error of a read of an absent
    object, the one [tx.IsErrObjectNotFound] recognizes. *)
Record DataStoreTx : Type := {
  Endpoint_fault : option error;
  Registry_Read_fault : option error;
  Registry_Update_fault : option error;
  ErrObjectNotFound : error
}.

(** The outcome of a read, with the answer of [tx.IsErrObjectNotFound] on
    its error made part of it. *)
Inductive ReadResult (A : Type) : Type :=
| ReadOk (a : A)
| ReadNotFound (err : error)
| ReadFailed (err : error).
Arguments ReadOk {A}.
Arguments ReadNotFound {A}.
Arguments ReadFailed {A}.

(** [tx.Endpoint().Endpoint(endpointID)] *)
Definition tx_Endpoint (tx : DataStoreTx) (endpointID : Z) (w : World)
    : ReadResult (Endpoint.t sh) :=
  match Endpoint_fault tx with
  | Some err => ReadFailed err
  | None =>
      match stored_endpoints (store w) !! endpointID with
      | Some endpoint => ReadOk endpoint
      | None => ReadNotFound (ErrObjectNotFound tx)
      end
  end.

(** [tx.Registry().Read(registryID)] *)
Definition tx_Registry_Read (tx : DataStoreTx) (registryID : Z) (w : World)
    : ReadResult (Registry.t sh) :=
  match Registry_Read_fault tx with
  | Some err => ReadFailed err
  | None =>
      match stored_registries (store w) !! registryID with
      | Some registry => ReadOk registry
      | None => ReadNotFound (ErrObjectNotFound tx)
      end
  end.

(** [tx.Registry().Update(ID, registry)] *)
Definition tx_Registry_Update (tx : DataStoreTx) (ID : Z)
    (registry : Registry.t sh) (w : World) : option error * World :=
  match Registry_Update_fault tx with
  | Some err => (Some err, w)
  | None =>
      (None,
       mkWorld
         (mkStore (stored_endpoints (store w))
            (<[ID := registry]> (stored_registries (store w))))
         (cluster w) (calls w))
  end.

(** The services of [Handler] that [updateRegistryAccess] relies on, and the
    three environment types that denote a Kubernetes environment. *)
Record Services : Type := {
  kube : endpoints.Handler (Endpoint.t sh) (Registry.t sh) Cluster;
  requestBouncer_AuthorizedEndpointOperation :
    Request → Endpoint.t sh → option error;
  KubernetesLocalEnvironment : Z;
  AgentOnKubernetesEnvironment : Z;
  EdgeAgentOnKubernetesEnvironment : Z
}.

(** Line 119: the environment is a Kubernetes one. *)
Definition isKubernetes (services : Services) (endpoint : Endpoint.t sh) : bool :=
  (Endpoint.EndpointType endpoint =? KubernetesLocalEnvironment services)
  || (Endpoint.EndpointType endpoint =? AgentOnKubernetesEnvironment services)
  || (Endpoint.EndpointType endpoint =? EdgeAgentOnKubernetesEnvironment services).

(** A [nil] slice ranges like the empty one. *)
Definition slice (namespaces : option (list string)) : list string :=
  default [] namespaces.

(** Lines 109-117: the access policies of the environment in the registry,
    after [RegistryAccesses] and its entry for [endpoint.ID] have been
    created when missing.  The result is the registry as mutated and the
    copy [registryAccess]. *)
Definition registryAccessOf (endpoint : Endpoint.t sh) (registry : Registry.t sh)
    : Registry.t sh * RegistryAccessPolicies.t sh :=
  let accesses := default ∅ (Registry.RegistryAccesses registry) in
  let accesses :=
    match accesses !! Endpoint.ID endpoint with
    | Some _ => accesses
    | None => <[Endpoint.ID endpoint := RegistryAccessPolicies.zero]> accesses
    end in
  (Registry.set_RegistryAccesses (Some accesses) registry,
   default RegistryAccessPolicies.zero (accesses !! Endpoint.ID endpoint)).

(** [updateRegistryAccess] *)
Definition updateRegistryAccess (services : Services) (it : MapIter)
    (tx : DataStoreTx) (r : Request) (endpointID registryID : Z) (w : World)
    : option error * World :=
  match tx_Endpoint tx endpointID w with
  | ReadNotFound err =>
      (Some (NotFound
         "Unable to find an environment with the specified identifier inside the database"
         (Some err)), w)
  | ReadFailed err =>
      (Some (InternalServerError
         "Unable to find an environment with the specified identifier inside the database"
         (Some err)), w)
  | ReadOk endpoint =>
  match restricted_context r with
  | inl err =>
      (Some (InternalServerError "Unable to retrieve info from request context"
               (Some err)), w)
  | inr securityContext =>
  match requestBouncer_AuthorizedEndpointOperation services r endpoint with
  | Some err =>
      (Some (Forbidden "Permission denied to access environment" (Some err)), w)
  | None =>
  if negb (IsAdmin securityContext) then
    (Some (Forbidden "User is not authorized" None), w)
  else
  match tx_Registry_Read tx registryID w with
  | ReadNotFound err =>
      (Some (NotFound
         "Unable to find an environment with the specified identifier inside the database"
         (Some err)), w)
  | ReadFailed err =>
      (Some (InternalServerError
         "Unable to find an environment with the specified identifier inside the database"
         (Some err)), w)
  | ReadOk registry =>
  match DecodeAndValidateJSONPayload r with
  | inl err => (Some (BadRequest "Invalid request payload" (Some err)), w)
  | inr payload =>
  let '(registry, registryAccess) := registryAccessOf endpoint registry in
  let persist (registryAccess : RegistryAccessPolicies.t sh) (w : World) :=
    let registry :=
      Registry.set_RegistryAccesses
        (Some (<[endpointID := registryAccess]>
                 (default ∅ (Registry.RegistryAccesses registry))))
        registry in
    tx_Registry_Update tx (Registry.ID registry) registry w in
  if isKubernetes services endpoint then
    let '(res, k, issued) :=
      updateKubeAccess (kube services) it endpoint registry
        (slice (RegistryAccessPolicies.Namespaces registryAccess))
        (slice (registryAccessPayload.Namespaces payload)) (cluster w) in
    let w := mkWorld (store w) k (calls w ++ issued) in
    match res with
    | Some err =>
        (Some (InternalServerError "Unable to update kube access policies"
                 (Some err)), w)
    | None =>
        persist
          (RegistryAccessPolicies.set_Namespaces
             (registryAccessPayload.Namespaces payload) registryAccess) w
    end
  else
    persist
      (RegistryAccessPolicies.set_TeamAccessPolicies
         (registryAccessPayload.TeamAccessPolicies payload)
         (RegistryAccessPolicies.set_UserAccessPolicies
            (registryAccessPayload.UserAccessPolicies payload) registryAccess))
      w
  end end end end end.

(** [endpointRegistryAccess]; [noTx] is
    [featureflags.IsEnabled(portainer.FeatureNoTx)], [DataStore] is
    [handler.DataStore] used as a store handle, and [UpdateTx] is
    [handler.DataStore.UpdateTx], which is not part of this file. *)
Definition endpointRegistryAccess (services : Services) (it : MapIter)
    (noTx : bool) (DataStore : DataStoreTx)
    (UpdateTx : (DataStoreTx → World → option error * World) →
                World → option error * World)
    (r : Request) (w : World) : option error * World :=
  match route_id r with
  | inl err =>
      (Some (BadRequest "Invalid environment identifier route variable"
               (Some err)), w)
  | inr endpointID =>
  match route_registryId r with
  | inl err =>
      (Some (BadRequest "Invalid registry identifier route variable" (Some err)),
       w)
  | inr registryID =>
  let '(err, w) :=
    if noTx then updateRegistryAccess services it DataStore r endpointID registryID w
    else UpdateTx (λ tx, updateRegistryAccess services it tx r endpointID registryID) w
  in
  match err with
  | Some err => (Some (classify err), w)
  | None => (None, w)
  end
  end end.

(** Modelled from the spec: [handler.DataStore.UpdateTx] (section 4.4) in the
    world of this handler.  The body is invoked with a transactional handle
    and runs on the transaction's view of the datastore, which starts as the
    persisted state.  If the body returns success the view is committed: it
    is the persisted state from then on.  If the body returns an error the
    transaction is rolled back: the datastore is the one from before, while
    the cluster and the calls made to it, which are not part of the
    datastore, stay as the body left them.  The error is handed on unchanged.
    The transactional handle satisfies [dataservices.DataStoreTx] as
    [handler.DataStore] does, and its operations fail where those of
    [DataStore] fail. *)
Definition UpdateTx (DataStore : DataStoreTx)
    (body : DataStoreTx → World → option error * World) (w : World)
    : option error * World :=
  match body DataStore w with
  | (None, w') => (None, w')
  | (Some err, w') => (Some err, mkWorld (store w) (cluster w') (calls w'))
  end.

End Handler.

Arguments Request : clear implicits.
Arguments Store : clear implicits.
Arguments World : clear implicits.
Arguments Services : clear implicits.

(** *** Sample data *)

(** Access policies as lists of user or team identifiers. *)
Definition sampleShapes : AccessShapes :=
  {| UserPolicies := list Z; TeamPolicies := list Z;
     EndpointRest := unit; RegistryRest := unit |}.

(** Environment 3 is a local Kubernetes one (type 5), environment 4 is not. *)
Definition kubernetesEndpoint : Endpoint.t sampleShapes :=
  Endpoint.mk sampleShapes 3 5 ().
Definition dockerEndpoint : Endpoint.t sampleShapes :=
  Endpoint.mk sampleShapes 4 1 ().

(** Registry 9 is available in the namespaces [ns1] and [ns2] of
    environment 3, where user 1 may use it. *)
Definition sampleRegistry : Registry.t sampleShapes :=
  Registry.mk sampleShapes 9
    (Some (<[3 := RegistryAccessPolicies.mk sampleShapes (Some [1]) None
                    (Some ["ns1"; "ns2"])]> ∅))
    ().

Definition sampleWorld : World sampleShapes (list string) :=
  mkWorld
    (mkStore (<[3 := kubernetesEndpoint]> (<[4 := dockerEndpoint]> ∅))
             (<[9 := sampleRegistry]> ∅))
    ["ns1"; "ns2"] [].

(** A cluster client as [endpoints.sampleClient], for these registries. *)
Definition sampleClient (failing : list string)
    : KubeClient (Registry.t sampleShapes) (list string) :=
  {| DeleteRegistrySecret := λ _ namespace k,
       if bool_decide (namespace ∈ failing)
       then (Some (ErrorString "secret is locked"), k)
       else (None, filter (λ ns, ns ≠ namespace) k);
     CreateRegistrySecret := λ _ namespace k,
       if bool_decide (namespace ∈ failing)
       then (Some (ErrorString "namespace is terminating"), k)
       else (None, namespace :: k) |}.

Definition sampleServices (failing : list string)
    : Services sampleShapes (list string) :=
  {| kube := {| K8sClientFactory_GetKubeClient := λ _, inr (sampleClient failing) |};
     requestBouncer_AuthorizedEndpointOperation := λ _ _, None;
     KubernetesLocalEnvironment := 5;
     AgentOnKubernetesEnvironment := 6;
     EdgeAgentOnKubernetesEnvironment := 7 |}.

(** A datastore whose operations succeed, and one that refuses to write. *)
Definition soundStore : DataStoreTx :=
  {| Endpoint_fault := None; Registry_Read_fault := None;
     Registry_Update_fault := None;
     ErrObjectNotFound := ErrorString "object not found inside the database" |}.
Definition readOnlyStore : DataStoreTx :=
  {| Endpoint_fault := None; Registry_Read_fault := None;
     Registry_Update_fault := Some (ErrorString "database is read-only");
     ErrObjectNotFound := ErrorString "object not found inside the database" |}.

(** A request for the given environment and registry 9. *)
Definition sampleRequest (isAdmin : bool) (endpointID : Z)
    (payload : registryAccessPayload.t sampleShapes) : Request sampleShapes :=
  {| route_id := inr endpointID;
     route_registryId := inr 9;
     restricted_context := inr {| IsAdmin := isAdmin |};
     json_body := inr payload |}.

(** [{"Namespaces": ["ns2", "ns3"]}] *)
Definition namespacesPayload : registryAccessPayload.t sampleShapes :=
  registryAccessPayload.mk sampleShapes None None (Some ["ns2"; "ns3"]).

(** [{"UserAccessPolicies": ..., "TeamAccessPolicies": ...}] for users 1 and 2
    and team 5. *)
Definition policiesPayload : registryAccessPayload.t sampleShapes :=
  registryAccessPayload.mk sampleShapes (Some [1; 2]) (Some [5]) None.

(** An [UpdateTx] for runs in which the feature flag is set and it is not
    called. *)
Definition unusedUpdateTx
    (body : DataStoreTx → World sampleShapes (list string) →
            option error * World sampleShapes (list string))
    (w : World sampleShapes (list string))
    : option error * World sampleShapes (list string) :=
  (Some (ErrorString "no transaction available"), w).

End endpoint_registry_access.

(** ** Settings update: validation and the handler
    (settings_update.go, lines 60-143) *)

Module settings_update.
Import portainer settings settingsUpdatePayload.

(** The library functions [Validate] calls: [govalidator.IsURL], the error
    of [time.ParseDuration], and the error of [edge.ParseHostForEdge]. *)
Record Validators : Type := {
  govalidator_IsURL : string → bool;
  time_ParseDuration_error : string → option error;
  edge_ParseHostForEdge_error : string → option error
}.

Section Handler.
Context {sh : FieldShapes}.

(** The test made on each URL field: present, not the empty string, and
    not accepted by [govalidator.IsURL]. *)
Definition badURL (v : Validators) (field : option string) : bool :=
  match field with
  | Some url => nonEmpty url && negb (govalidator_IsURL v url)
  | None => false
  end.

(** [(payload *settingsUpdatePayload) Validate] *)
Definition Validate (v : Validators) (payload : t sh) : option error :=
  if match AuthenticationMethod payload with
     | Some method => negb (method =? 1) && negb (method =? 2) && negb (method =? 3)
     | None => false
     end
  then Some (ErrorString
         "Invalid authentication method value. Value must be one of: 1 (internal), 2 (LDAP/AD) or 3 (OAuth)")
  else if badURL v (LogoURL payload)
  then Some (ErrorString "Invalid logo URL. Must correspond to a valid URL format")
  else if badURL v (TemplatesURL payload)
  then Some (ErrorString
         "Invalid external templates URL. Must correspond to a valid URL format")
  else if badURL v (HelmRepositoryURL payload)
  then Some (ErrorString
         "Invalid Helm repository URL. Must correspond to a valid URL format")
  else if match UserSessionTimeout payload with
          | Some timeout => bool_decide (is_Some (time_ParseDuration_error v timeout))
          | None => false
          end
  then Some (ErrorString "Invalid user session timeout")
  else if match KubeconfigExpiry payload with
          | Some expiry => bool_decide (is_Some (time_ParseDuration_error v expiry))
          | None => false
          end
  then Some (ErrorString "Invalid Kubeconfig Expiry")
  else match EdgePortainerURL payload with
       | Some url =>
           if nonEmpty url then edge_ParseHostForEdge_error v url else None
       | None => None
       end.

(** [request.DecodeAndValidateJSONPayload]: decode, then [Validate]. *)
Definition DecodeAndValidateJSONPayload (v : Validators) (json_body : error + t sh)
    : error + t sh :=
  match json_body with
  | inl err => inl err
  | inr payload =>
      match Validate v payload with
      | Some err => inl err
      | None => inr payload
      end
  end.

(** [settingsUpdate]: the returned [*httperror.HandlerError], or the settings
    written as the JSON response.  [json_body] is the decoded request body,
    [noTx] is [featureflags.IsEnabled(portainer.FeatureNoTx)], [DataStore] is
    [handler.DataStore] used as a store handle; [UpdateTx] (the method of
    [handler.DataStore]) and [hideFields] are not part of this file. *)
Definition settingsUpdate (handler : Handler) (v : Validators)
    (hideFields : Settings.t sh → Settings.t sh)
    (noTx : bool) (DataStore : DataStoreTx)
    (UpdateTx : (DataStoreTx → M (Settings.t sh)) → M (Settings.t sh))
    (json_body : error + t sh) : M (Settings.t sh) :=
  λ w,
  match DecodeAndValidateJSONPayload v json_body with
  | inl err => (inl (BadRequest "Invalid request payload" (Some err)), w)
  | inr payload =>
      let '(res, w) :=
        if noTx then updateSettings handler DataStore payload w
        else UpdateTx (λ tx, updateSettings handler tx payload) w in
      match res with
      | inl err => (inl (classify err), w)
      | inr settings => (inr (hideFields settings), w)
      end
  end.

(** Modelled from the spec: [handler.DataStore.UpdateTx] (section 4.4) in the
    world of this handler.  The body is invoked with a transactional handle
    and runs on the transaction's view of the settings, which starts as the
    persisted ones.  If the body returns success the view is committed; if
    it returns an error the transaction is rolled back, and the persisted
    settings are those from before, while the calls made to other services,
    which are not part of the datastore, stay made.  The error is handed on
    unchanged.  The transactional handle satisfies [dataservices.DataStoreTx]
    as [handler.DataStore] does, and its operations fail where those of
    [DataStore] fail. *)
Definition UpdateTx {A : Type} (DataStore : DataStoreTx)
    (body : DataStoreTx → @M sh A) : @M sh A :=
  λ w,
  match body DataStore w with
  | (inr a, w') => (inr a, w')
  | (inl err, w') => (inl err, mkWorld (persisted w) (trace w'))
  end.

End Handler.

(** *** Sample data *)

(** URLs start with a scheme, durations are one of a few literals, every
    edge URL is accepted. *)
Definition sampleValidators : Validators :=
  {| govalidator_IsURL := λ url,
       String.prefix "https://" url || String.prefix "http://" url;
     time_ParseDuration_error := λ s,
       if bool_decide (s ∈ ["5m"; "1m"; "8h"; "24h"; "0"]) then None
       else Some (ErrorString "time: invalid duration");
     edge_ParseHostForEdge_error := λ _, None |}.

(** [{"AuthenticationMethod": 2, "UserSessionTimeout": "5m",
      "TemplatesURL": "https://templates.example.com/t.json"}] *)
Definition validPayload : settingsUpdatePayload.t plainShapes :=
  settingsUpdatePayload.mk plainShapes None None (Some 2) None None None None
    (Some "https://templates.example.com/t.json") None None None (Some "5m")
    None None None None None None None.

(** [{"AuthenticationMethod": 4}] *)
Definition invalidPayload : settingsUpdatePayload.t plainShapes :=
  settingsUpdatePayload.mk plainShapes None None (Some 4) None None None None
    None None None None None None None None None None None None.

(** LDAP over StartTLS with server verification, and a CA path the handler
    is to overwrite. *)
Definition startTLSPayload : settingsUpdatePayload.t plainShapes :=
  settingsUpdatePayload.mk plainShapes None None None None
    (Some (LDAPSettings.mk plainShapes "" "S2"
             (TLSConfiguration.mk plainShapes false false "/tmp/ca.pem" ())
             true ()))
    None None None None None None None None None None None None None None.

(** A handler whose collaborators succeed, except that the TLS files cannot
    be removed. *)
Definition stuckFilesHandler : Handler :=
  {| demoService_IsDemo := false;
     SnapshotService_SetSnapshotInterval := λ _, None;
     FileService_GetPathForTLSFile := "/data/tls/ldap/ca.pem";
     FileService_DeleteTLSFiles := Some (ErrorString "permission denied");
     libhelm_ValidateHelmRepositoryURL := λ _, None;
     time_ParseDuration := λ _, 0;
     strings_ToLower := strings.asciiToLower;
     DefaultHelmRepositoryURL := "https://charts.bitnami.com/bitnami" |}.

(** The settings as they are, for [hideFields], and an [UpdateTx] for runs
    in which the feature flag is set and it is not called. *)
Definition showAll (settings : Settings.t plainShapes) : Settings.t plainShapes :=
  settings.
Definition unusedUpdateTx
    (body : DataStoreTx → @M plainShapes (Settings.t plainShapes))
    : @M plainShapes (Settings.t plainShapes) :=
  λ w, (inl (ErrorString "no transaction available"), w).

End settings_update.

(** * Properties *)

(** ** Iteration over a Go map *)

Lemma range_keys_elem_of (it : MapIter) site (m : gmap string bool) el :
  el ∈ range_keys it site m ↔ is_Some (m !! el).
Proof.
  rewrite (range_keys_perm it site m), list_elem_of_fmap. split.
  - intros [[k v] [-> Hkv]]. apply elem_of_map_to_list in Hkv. by exists v.
  - intros [v Hv]. exists (el, v). split; [done|]. by apply elem_of_map_to_list.
Qed.

(** ** The Set Reconciler *)

Section ReconcilerProperties.
Import endpoints.

Lemma toSet_foldl_lookup (l : list string) (acc : stringSet) (el : string) :
  foldl (λ set el, <[el := true]> set) acc l !! el
  = if decide (el ∈ l) then Some true else acc !! el.
Proof.
  revert acc. induction l as [|x l IH]; intros acc; simpl.
  - destruct (decide (el ∈ [])) as [Hin|_]; [by apply elem_of_nil in Hin | done].
  - rewrite IH. destruct (decide (el ∈ l)) as [Hin|Hin].
    + rewrite decide_True; [done | by apply list_elem_of_further].
    + destruct (decide (el = x)) as [->|Hne].
      * rewrite lookup_insert_eq, decide_True; [done | apply list_elem_of_here].
      * rewrite lookup_insert_ne by done. rewrite decide_False; [done|].
        intros [?|?]%elem_of_cons; done.
Qed.

Lemma toSet_lookup (l : list string) (el : string) :
  toSet l !! el = if decide (el ∈ l) then Some true else None.
Proof. unfold toSet. by rewrite toSet_foldl_lookup, lookup_empty. Qed.

Lemma index_toSet (l : list string) (el : string) :
  index (toSet l) el = bool_decide (el ∈ l).
Proof.
  unfold index. rewrite toSet_lookup.
  case_decide; [by rewrite bool_decide_eq_true_2 | by rewrite bool_decide_eq_false_2].
Qed.

Lemma setDifference_foldl_lookup (setB acc : stringSet) (keys : list string) el :
  foldl (λ set el, if negb (index setB el) then <[el := true]> set else set)
        acc keys !! el
  = if decide (el ∈ keys ∧ index setB el = false) then Some true else acc !! el.
Proof.
  revert acc. induction keys as [|x keys IH]; intros acc; simpl.
  - destruct (decide (el ∈ [] ∧ index setB el = false)) as [[Hin _]|_]; [|done].
    by apply elem_of_nil in Hin.
  - rewrite IH. destruct (decide (el ∈ keys ∧ index setB el = false)) as [[Hin Hb]|Hn].
    + rewrite decide_True; [done|]. split; [by apply list_elem_of_further | done].
    + destruct (decide (el = x)) as [->|Hne].
      * destruct (index setB x) eqn:Hb; simpl.
        -- rewrite decide_False; [done|]. by intros [_ ?].
        -- rewrite lookup_insert_eq, decide_True; [done|].
           split; [apply list_elem_of_here | done].
      * rewrite decide_False.
        -- destruct (negb (index setB x)); [by rewrite lookup_insert_ne | done].
        -- intros [Hin Hb]. apply Hn. split; [|done].
           apply elem_of_cons in Hin as [?|?]; done.
Qed.

(** The result of [setDifference] does not depend on the iteration order. *)
Lemma setDifference_lookup it site (setA setB : stringSet) el :
  setDifference it site setA setB !! el
  = if decide (is_Some (setA !! el) ∧ index setB el = false)
    then Some true else None.
Proof.
  unfold setDifference. rewrite setDifference_foldl_lookup, lookup_empty.
  destruct (decide (is_Some (setA !! el) ∧ index setB el = false)) as [[H1 H2]|Hn].
  - rewrite decide_True; [done|]. split; [by apply range_keys_elem_of | done].
  - rewrite decide_False; [done|]. intros [H1 H2]. apply Hn.
    split; [by apply range_keys_elem_of in H1 | done].
Qed.

Lemma setDifference_toSet_lookup it site (listA listB : list string) el :
  setDifference it site (toSet listA) (toSet listB) !! el
  = if decide (el ∈ listA ∧ el ∉ listB) then Some true else None.
Proof.
  rewrite setDifference_lookup, index_toSet, toSet_lookup.
  destruct (decide (el ∈ listA)) as [HA|HA], (decide (el ∈ listB)) as [HB|HB].
  - rewrite bool_decide_eq_true_2 by done.
    rewrite !decide_False; [done | tauto | by intros [_ ?]].
  - rewrite bool_decide_eq_false_2 by done.
    rewrite !decide_True; [done | tauto | by split; [eexists|]].
  - rewrite !decide_False; [done | tauto | by intros [[? ?] _]].
  - rewrite !decide_False; [done | tauto | by intros [[? ?] _]].
Qed.

Lemma dom_setDifference_toSet it site (listA listB : list string) :
  dom (setDifference it site (toSet listA) (toSet listB))
  = (list_to_set listA ∖ list_to_set listB : gset string).
Proof.
  apply set_eq. intros el.
  rewrite elem_of_dom, setDifference_toSet_lookup, elem_of_difference,
    !elem_of_list_to_set.
  destruct (decide (el ∈ listA ∧ el ∉ listB)) as [H|H].
  - split; [done | by eexists].
  - split; [by intros [? ?] | done].
Qed.

(** C1.  For every pair of namespace lists [old] and [new] and every
    iteration order, the reconciler returns exactly [toAdd = new − old] and
    [toRemove = old − new] as sets of the distinct elements of the inputs:
    the keys of each result are the set difference and every key is mapped
    to [true].  For two empty inputs both results are empty. *)
Theorem reconciler_set_difference (it : MapIter) (old new : list string) :
  dom (namespaceDelta it old new).1
    = (list_to_set new ∖ list_to_set old : gset string)
  ∧ dom (namespaceDelta it old new).2
    = (list_to_set old ∖ list_to_set new : gset string)
  ∧ (∀ ns, ns ∈ dom (namespaceDelta it old new).1
           ↔ (namespaceDelta it old new).1 !! ns = Some true)
  ∧ (∀ ns, ns ∈ dom (namespaceDelta it old new).2
           ↔ (namespaceDelta it old new).2 !! ns = Some true)
  ∧ namespaceDelta it [] [] = (∅, ∅).
Proof.
  unfold namespaceDelta; simpl. split_and!.
  - apply dom_setDifference_toSet.
  - apply dom_setDifference_toSet.
  - intros ns. rewrite elem_of_dom, setDifference_toSet_lookup.
    destruct (decide (ns ∈ new ∧ ns ∉ old)); split; try done; by intros [? ?].
  - intros ns. rewrite elem_of_dom, setDifference_toSet_lookup.
    destruct (decide (ns ∈ old ∧ ns ∉ new)); split; try done; by intros [? ?].
  - f_equal; apply map_eq; intros el;
      rewrite setDifference_toSet_lookup, lookup_empty;
      (rewrite decide_False; [done|]); intros [H _]; by apply elem_of_nil in H.
Qed.

(** C3.  For every pair of namespace lists [old] and [new], no namespace is
    a key of both [toAdd] and [toRemove]. *)
Theorem reconciler_delta_disjoint (it : MapIter) (old new : list string) :
  dom (namespaceDelta it old new).1 ## dom (namespaceDelta it old new).2.
Proof.
  unfold namespaceDelta; simpl. rewrite !dom_setDifference_toSet.
  apply elem_of_disjoint.
  intros ns [_ Hold]%elem_of_difference [Hold' _]%elem_of_difference. done.
Qed.

End ReconcilerProperties.

(** ** The Access Synchronizer *)

Section SynchronizerProperties.
Import endpoints.
Context {Endpoint Registry Cluster : Type}.
Implicit Types (cli : KubeClient Registry Cluster) (k : Cluster).
Implicit Types (calls : list KubeCall) (res : option error).

(** Every call of the removal loop is a delete of one of its namespaces. *)
Lemma deleteLoop_calls cli (registry : Registry) namespaces k res k' calls :
  deleteLoop cli registry namespaces k = (res, k', calls) →
  Forall (λ c, ∃ ns r, c = CallDelete ns r ∧ ns ∈ namespaces) calls.
Proof.
  revert k res k' calls. induction namespaces as [|ns rest IH]; simpl; intros k res k' calls Hrun.
  - injection Hrun as <- <- <-. constructor.
  - destruct (DeleteRegistrySecret cli registry ns k) as [[err|] k1].
    + injection Hrun as <- <- <-. repeat constructor.
      exists ns, (Some err). split; [done | apply list_elem_of_here].
    + destruct (deleteLoop cli registry rest k1) as [[res1 k2] calls1] eqn:Hrest.
      injection Hrun as <- <- <-. constructor.
      * exists ns, None. split; [done | apply list_elem_of_here].
      * eapply Forall_impl; [by eapply IH|].
        intros c (ns' & r & -> & Hin). exists ns', r.
        split; [done | by apply list_elem_of_further].
Qed.

Lemma createLoop_calls cli (registry : Registry) namespaces k res k' calls :
  createLoop cli registry namespaces k = (res, k', calls) →
  Forall (λ c, ∃ ns r, c = CallCreate ns r ∧ ns ∈ namespaces) calls.
Proof.
  revert k res k' calls. induction namespaces as [|ns rest IH]; simpl; intros k res k' calls Hrun.
  - injection Hrun as <- <- <-. constructor.
  - destruct (CreateRegistrySecret cli registry ns k) as [[err|] k1].
    + injection Hrun as <- <- <-. repeat constructor.
      exists ns, (Some err). split; [done | apply list_elem_of_here].
    + destruct (createLoop cli registry rest k1) as [[res1 k2] calls1] eqn:Hrest.
      injection Hrun as <- <- <-. constructor.
      * exists ns, None. split; [done | apply list_elem_of_here].
      * eapply Forall_impl; [by eapply IH|].
        intros c (ns' & r & -> & Hin). exists ns', r.
        split; [done | by apply list_elem_of_further].
Qed.

(** A loop stops at the first call that returns an error and returns it. *)
Lemma deleteLoop_fail_fast cli (registry : Registry) namespaces k res k' calls i c err :
  deleteLoop cli registry namespaces k = (res, k', calls) →
  calls !! i = Some c → call_result c = Some err →
  res = Some err ∧ length calls = S i.
Proof.
  revert k res k' calls i.
  induction namespaces as [|ns rest IH]; simpl; intros k res k' calls i Hrun Hi Hc.
  - injection Hrun as <- <- <-. done.
  - destruct (DeleteRegistrySecret cli registry ns k) as [[err'|] k1].
    + injection Hrun as <- <- <-. destruct i as [|i]; [|done].
      injection Hi as <-. simpl in Hc. by injection Hc as <-.
    + destruct (deleteLoop cli registry rest k1) as [[res1 k2] calls1] eqn:Hrest.
      injection Hrun as <- <- <-. destruct i as [|i]; simpl in Hi.
      * injection Hi as <-. done.
      * destruct (IH _ _ _ _ _ Hrest Hi Hc) as [-> Hlen]. simpl. by rewrite Hlen.
Qed.

Lemma createLoop_fail_fast cli (registry : Registry) namespaces k res k' calls i c err :
  createLoop cli registry namespaces k = (res, k', calls) →
  calls !! i = Some c → call_result c = Some err →
  res = Some err ∧ length calls = S i.
Proof.
  revert k res k' calls i.
  induction namespaces as [|ns rest IH]; simpl; intros k res k' calls i Hrun Hi Hc.
  - injection Hrun as <- <- <-. done.
  - destruct (CreateRegistrySecret cli registry ns k) as [[err'|] k1].
    + injection Hrun as <- <- <-. destruct i as [|i]; [|done].
      injection Hi as <-. simpl in Hc. by injection Hc as <-.
    + destruct (createLoop cli registry rest k1) as [[res1 k2] calls1] eqn:Hrest.
      injection Hrun as <- <- <-. destruct i as [|i]; simpl in Hi.
      * injection Hi as <-. done.
      * destruct (IH _ _ _ _ _ Hrest Hi Hc) as [-> Hlen]. simpl. by rewrite Hlen.
Qed.

(** The calls of one synchronization: the calls of the removal loop, followed
    (when that loop ended without error) by the calls of the addition loop. *)
Lemma updateKubeAccess_calls (handler : Handler Endpoint Registry Cluster) it
    endpoint registry oldNamespaces newNamespaces k res k' calls :
  updateKubeAccess handler it endpoint registry oldNamespaces newNamespaces k
    = (res, k', calls) →
  (∃ err, K8sClientFactory_GetKubeClient handler endpoint = inl err
          ∧ res = Some err ∧ k' = k ∧ calls = [])
  ∨ (∃ cli dres k1 dcalls cres ccalls,
       K8sClientFactory_GetKubeClient handler endpoint = inr cli
       ∧ deleteLoop cli registry
           (range_keys it 2 (namespaceDelta it oldNamespaces newNamespaces).2) k
         = (dres, k1, dcalls)
       ∧ ((∃ err, dres = Some err ∧ res = dres ∧ k' = k1 ∧ calls = dcalls)
          ∨ (dres = None
             ∧ createLoop cli registry
                 (range_keys it 3 (namespaceDelta it oldNamespaces newNamespaces).1) k1
               = (cres, k', ccalls)
             ∧ res = cres ∧ calls = dcalls ++ ccalls))).
Proof.
  unfold updateKubeAccess.
  destruct (namespaceDelta it oldNamespaces newNamespaces) as [toAdd toRemove]; simpl.
  destruct (K8sClientFactory_GetKubeClient handler endpoint) as [err|cli].
  - intros [= <- <- <-]. left. by exists err.
  - destruct (deleteLoop cli registry (range_keys it 2 toRemove) k)
      as [[dres k1] dcalls] eqn:Hdel.
    destruct dres as [err|].
    + intros [= <- <- <-]. right.
      exists cli, (Some err), k1, dcalls, None, []. split_and!; try done.
      left. by exists err.
    + destruct (createLoop cli registry (range_keys it 3 toAdd) k1)
        as [[cres k2] ccalls] eqn:Hcre.
      intros [= <- <- <-]. right.
      exists cli, None, k1, dcalls, cres, ccalls. split_and!; try done.
      right. done.
Qed.

(** C4.  In the calls issued during one synchronization, every delete call
    comes before every create call; deletes are for namespaces of [toRemove]
    and creates for namespaces of [toAdd]. *)
Theorem removals_precede_additions (handler : Handler Endpoint Registry Cluster) it
    endpoint registry oldNamespaces newNamespaces k res k' calls
    (i j : nat) nsCreate resCreate nsDelete resDelete :
  updateKubeAccess handler it endpoint registry oldNamespaces newNamespaces k
    = (res, k', calls) →
  calls !! i = Some (CallCreate nsCreate resCreate) →
  calls !! j = Some (CallDelete nsDelete resDelete) →
  (j < i)%nat
  ∧ nsCreate ∈ dom (namespaceDelta it oldNamespaces newNamespaces).1
  ∧ nsDelete ∈ dom (namespaceDelta it oldNamespaces newNamespaces).2.
Proof.
  intros Hrun Hi Hj.
  apply updateKubeAccess_calls in Hrun
    as [(err & _ & _ & _ & ->) | (cli & dres & k1 & dcalls & cres & ccalls & _ & Hdel & Hcases)];
    [done|].
  pose proof (deleteLoop_calls _ _ _ _ _ _ _ Hdel) as Hdels.
  rewrite Forall_lookup in Hdels.
  destruct Hcases as [(err & _ & _ & _ & ->) | (_ & Hcre & _ & ->)].
  - destruct (Hdels _ _ Hi) as (? & ? & ? & _). done.
  - pose proof (createLoop_calls _ _ _ _ _ _ _ Hcre) as Hcres.
    rewrite Forall_lookup in Hcres.
    apply lookup_app_Some in Hi as [Hi | [Hlen Hi]].
    { destruct (Hdels _ _ Hi) as (? & ? & ? & _). done. }
    apply lookup_app_Some in Hj as [Hj | [_ Hj]].
    2:{ destruct (Hcres _ _ Hj) as (? & ? & ? & _). done. }
    split_and!.
    + apply lookup_lt_Some in Hj. lia.
    + destruct (Hcres _ _ Hi) as (ns & r & [= <- <-] & Hin).
      apply range_keys_elem_of in Hin. by apply elem_of_dom.
    + destruct (Hdels _ _ Hj) as (ns & r & [= <- <-] & Hin).
      apply range_keys_elem_of in Hin. by apply elem_of_dom.
Qed.

(** C5.  If a delete or create call of one synchronization returns an
    error, that call is the last one issued and the synchronizer returns
    that very error. *)
Theorem first_error_aborts (handler : Handler Endpoint Registry Cluster) it
    endpoint registry oldNamespaces newNamespaces k res k' calls
    (i : nat) c err :
  updateKubeAccess handler it endpoint registry oldNamespaces newNamespaces k
    = (res, k', calls) →
  calls !! i = Some c → call_result c = Some err →
  res = Some err ∧ length calls = S i.
Proof.
  intros Hrun Hi Hc.
  apply updateKubeAccess_calls in Hrun
    as [(? & _ & _ & _ & ->) | (cli & dres & k1 & dcalls & cres & ccalls & _ & Hdel & Hcases)];
    [done|].
  destruct Hcases as [(e & _ & -> & _ & ->) | (-> & Hcre & -> & ->)].
  - by eapply deleteLoop_fail_fast.
  - apply lookup_app_Some in Hi as [Hi | [Hlen Hi]].
    + by destruct (deleteLoop_fail_fast _ _ _ _ _ _ _ _ _ _ Hdel Hi Hc).
    + destruct (createLoop_fail_fast _ _ _ _ _ _ _ _ _ _ Hcre Hi Hc) as [-> Hl].
      split; [done|]. rewrite length_app, Hl. lia.
Qed.

End SynchronizerProperties.

(** ** The settings merge *)

Section SettingsProperties.
Import portainer settings settingsUpdatePayload.
Context {sh : FieldShapes}.
Implicit Types (handler : Handler) (tx : DataStoreTx) (payload : settingsUpdatePayload.t sh).
Implicit Types (w : World sh) (settings : Settings.t sh) (res : error + Settings.t sh).

Lemma nonEmpty_true (s : string) : nonEmpty s = true ↔ s ≠ "".
Proof.
  unfold nonEmpty. rewrite negb_true_iff. split.
  - intros H ->. by rewrite String.eqb_refl in H.
  - intros H. by apply String.eqb_neq.
Qed.

Lemma nonEmpty_false (s : string) : nonEmpty s = false ↔ s = "".
Proof. unfold nonEmpty. rewrite negb_false_iff. apply String.eqb_eq. Qed.

Lemma differs_true (s1 s2 : string) : differs s1 s2 = true ↔ s1 ≠ s2.
Proof. unfold differs. rewrite negb_true_iff. apply String.eqb_neq. Qed.

Lemma differs_false (s1 s2 : string) : differs s1 s2 = false ↔ s1 = s2.
Proof. unfold differs. rewrite negb_false_iff. apply String.eqb_eq. Qed.

(** The fields that the four effectful steps of the merge leave alone. *)
Local Abbreviation same_protected_fields settings settings' :=
  (Settings.LogoURL settings' = Settings.LogoURL settings
   ∧ Settings.EnableTelemetry settings' = Settings.EnableTelemetry settings
   ∧ LDAPSettings.Password (Settings.LDAPSettings settings')
     = LDAPSettings.Password (Settings.LDAPSettings settings)
   ∧ OAuthSettings.ClientSecret (Settings.OAuthSettings settings')
     = OAuthSettings.ClientSecret (Settings.OAuthSettings settings)).

(** *** The steps of [updateSettings], one by one *)

Lemma read_step tx (wrap : error → error) w (r : error + Settings.t sh) w1 :
  mapErr wrap (tx_Settings tx) w = (r, w1) →
  w1 = w
  ∧ match Settings_fault tx with
    | Some err => r = inl (wrap err)
    | None => r = inr (persisted w)
    end.
Proof.
  unfold mapErr, tx_Settings. destruct (Settings_fault tx); intros [= <- <-]; done.
Qed.

Lemma persist_step tx (wrap : error → error) settings w (r : error + unit) w1 :
  mapErr wrap (tx_UpdateSettings tx settings) w = (r, w1) →
  match UpdateSettings_fault tx with
  | Some err => r = inl (wrap err) ∧ w1 = w
  | None => r = inr () ∧ persisted w1 = settings ∧ trace w1 = trace w
  end.
Proof.
  unfold mapErr, tx_UpdateSettings.
  destruct (UpdateSettings_fault tx); intros [= <- <-]; done.
Qed.

Lemma mergeHelmRepositoryURL_step handler payload settings w res w1 :
  mergeHelmRepositoryURL handler payload settings w = (res, w1) →
  persisted w1 = persisted w
  ∧ ∃ evs, trace w1 = trace w ++ evs
    ∧ (∀ ev, ev ∈ evs ↔
         ∃ url, ev = EvValidateHelmRepositoryURL url
           ∧ HelmRepositoryURL payload = Some url ∧ url ≠ ""
           ∧ strings.TrimSuffix (strings_ToLower handler url) "/"
               ≠ Settings.HelmRepositoryURL settings
           ∧ strings.TrimSuffix (strings_ToLower handler url) "/"
               ≠ DefaultHelmRepositoryURL handler)
    ∧ match res with
      | inl err =>
          ∃ url cause, EvValidateHelmRepositoryURL url ∈ evs
            ∧ libhelm_ValidateHelmRepositoryURL handler url = Some cause
            ∧ err = BadRequest
                "Invalid Helm repository URL. Must correspond to a valid URL format"
                (Some cause)
      | inr settings' =>
          (∀ url, EvValidateHelmRepositoryURL url ∈ evs →
                  libhelm_ValidateHelmRepositoryURL handler url = None)
          ∧ same_protected_fields settings settings'
          ∧ Settings.SnapshotInterval settings' = Settings.SnapshotInterval settings
      end.
Proof.
  unfold mergeHelmRepositoryURL.
  match goal with |- _ → ?G => assert (Hnone : ∀ settings',
    (∀ url, HelmRepositoryURL payload = Some url → url ≠ "" →
       strings.TrimSuffix (strings_ToLower handler url) "/"
         ≠ Settings.HelmRepositoryURL settings →
       strings.TrimSuffix (strings_ToLower handler url) "/"
         ≠ DefaultHelmRepositoryURL handler → False) →
    same_protected_fields settings settings' →
    Settings.SnapshotInterval settings' = Settings.SnapshotInterval settings →
    (inr settings', w) = (res, w1) → G) end.
  { intros settings' Hgate Hframe Hsnap [= <- <-]. split; [done|]. exists [].
    rewrite app_nil_r. split; [done|]. split.
    - intros ev. split; [by intros ?%elem_of_nil|].
      intros (url & _ & ? & ? & ? & ?). by destruct (Hgate url).
    - split; [|done]. by intros ? ?%elem_of_nil. }
  destruct (HelmRepositoryURL payload) as [url|] eqn:Hurl; simpl.
  2:{ by apply Hnone. }
  destruct (nonEmpty url) eqn:Hne.
  2:{ apply Hnone; [|done..]. intros ? [= <-] ?. by apply nonEmpty_false in Hne. }
  apply nonEmpty_true in Hne.
  set (newHelmRepo := strings.TrimSuffix (strings_ToLower handler url) "/").
  destruct (differs newHelmRepo (Settings.HelmRepositoryURL settings)) eqn:Hd1; simpl.
  2:{ apply Hnone; [|done..]. intros ? [= <-] _ ?. by apply differs_false in Hd1. }
  destruct (differs newHelmRepo (DefaultHelmRepositoryURL handler)) eqn:Hd2; simpl.
  2:{ apply Hnone; [|done..]. intros ? [= <-] _ _ ?. by apply differs_false in Hd2. }
  apply differs_true in Hd1, Hd2. clear Hnone.
  assert (Hevs : ∀ ev, ev ∈ [EvValidateHelmRepositoryURL url] ↔
     ∃ url0, ev = EvValidateHelmRepositoryURL url0 ∧ Some url = Some url0 ∧ url0 ≠ ""
       ∧ strings.TrimSuffix (strings_ToLower handler url0) "/"
           ≠ Settings.HelmRepositoryURL settings
       ∧ strings.TrimSuffix (strings_ToLower handler url0) "/"
           ≠ DefaultHelmRepositoryURL handler).
  { intros ev. rewrite list_elem_of_singleton. split.
    - intros ->. by exists url.
    - by intros (? & -> & [= <-] & _). }
  unfold mbind, M_bind, emit, check; simpl.
  destruct (libhelm_ValidateHelmRepositoryURL handler url) as [cause|] eqn:Hval; simpl.
  - intros [= <- <-]. split; [done|]. exists [EvValidateHelmRepositoryURL url].
    split; [done|]. split; [done|]. exists url, cause.
    split; [apply list_elem_of_here | done].
  - intros [= <- <-]. split; [done|]. exists [EvValidateHelmRepositoryURL url].
    split; [done|]. split; [done|]. split; [|done].
    by intros ? [= <-]%list_elem_of_singleton.
Qed.

Lemma mergeSnapshotInterval_step handler payload settings w res w1 :
  mergeSnapshotInterval handler payload settings w = (res, w1) →
  persisted w1 = persisted w
  ∧ ∃ evs, trace w1 = trace w ++ evs
    ∧ (∀ ev, ev ∈ evs ↔
         ∃ interval, ev = EvSetSnapshotInterval interval
           ∧ SnapshotInterval payload = Some interval
           ∧ interval ≠ Settings.SnapshotInterval settings)
    ∧ match res with
      | inl err =>
          ∃ interval cause, EvSetSnapshotInterval interval ∈ evs
            ∧ SnapshotService_SetSnapshotInterval handler interval = Some cause
            ∧ err = InternalServerError "Unable to update snapshot interval"
                      (Some cause)
      | inr settings' =>
          (∀ interval, EvSetSnapshotInterval interval ∈ evs →
                       SnapshotService_SetSnapshotInterval handler interval = None)
          ∧ same_protected_fields settings settings'
      end.
Proof.
  unfold mergeSnapshotInterval.
  match goal with |- _ → ?G => assert (Hnone :
    (∀ interval, SnapshotInterval payload = Some interval →
       interval ≠ Settings.SnapshotInterval settings → False) →
    (inr settings, w) = (res, w1) → G) end.
  { intros Hgate [= <- <-]. split; [done|]. exists [].
    rewrite app_nil_r. split; [done|]. split.
    - intros ev. split; [by intros ?%elem_of_nil|].
      intros (interval & _ & ? & ?). by destruct (Hgate interval).
    - split; [|done]. by intros ? ?%elem_of_nil. }
  destruct (SnapshotInterval payload) as [interval|] eqn:Hint; simpl.
  2:{ by apply Hnone. }
  destruct (differs interval (Settings.SnapshotInterval settings)) eqn:Hd.
  2:{ apply Hnone. intros ? [= <-] ?. by apply differs_false in Hd. }
  apply differs_true in Hd. clear Hnone.
  assert (Hevs : ∀ ev, ev ∈ [EvSetSnapshotInterval interval] ↔
     ∃ interval0, ev = EvSetSnapshotInterval interval0
       ∧ Some interval = Some interval0
       ∧ interval0 ≠ Settings.SnapshotInterval settings).
  { intros ev. rewrite list_elem_of_singleton. split.
    - intros ->. by exists interval.
    - by intros (? & -> & [= <-] & _). }
  unfold mapErr, updateSnapshotInterval, mbind, M_bind, emit, check; simpl.
  destruct (SnapshotService_SetSnapshotInterval handler interval) as [cause|] eqn:Hset;
    simpl.
  - intros [= <- <-]. split; [done|]. exists [EvSetSnapshotInterval interval].
    split; [done|]. split; [done|]. exists interval, cause.
    split; [apply list_elem_of_here | done].
  - intros [= <- <-]. split; [done|]. exists [EvSetSnapshotInterval interval].
    split; [done|]. split; [done|]. split; [|done].
    by intros ? [= <-]%list_elem_of_singleton.
Qed.

Lemma mergeUserSessionTimeout_step handler payload settings w res w1 :
  mergeUserSessionTimeout handler payload settings w = (res, w1) →
  persisted w1 = persisted w
  ∧ ∃ evs, trace w1 = trace w ++ evs
    ∧ (∀ ev, ev ∈ evs ↔
         ∃ timeout, ev = EvSetUserSessionDuration (time_ParseDuration handler timeout)
           ∧ UserSessionTimeout payload = Some timeout)
    ∧ ∃ settings', res = inr settings' ∧ same_protected_fields settings settings'.
Proof.
  unfold mergeUserSessionTimeout.
  destruct (UserSessionTimeout payload) as [timeout|]; simpl.
  - unfold mbind, M_bind, emit; simpl. intros [= <- <-]. split; [done|].
    eexists. split; [done|]. split; [|by eexists].
    intros ev. rewrite list_elem_of_singleton. split.
    + intros ->. by exists timeout.
    + by intros (? & -> & [= <-]).
  - intros [= <- <-]. split; [done|]. exists []. rewrite app_nil_r.
    split; [done|]. split; [|by eexists].
    intros ev. split; [by intros ?%elem_of_nil | by intros (? & _ & ?)].
Qed.

Lemma updateTLS_step handler settings w res w1 :
  updateTLS handler settings w = (res, w1) →
  persisted w1 = persisted w
  ∧ ∃ evs, trace w1 = trace w ++ evs
    ∧ (∀ ev, ev ∈ evs → ev = EvGetPathForTLSFile ∨ ev = EvDeleteTLSFiles)
    ∧ match res with
      | inl err =>
          ∃ cause, FileService_DeleteTLSFiles handler = Some cause
            ∧ err = InternalServerError "Unable to remove TLS files from disk"
                      (Some cause)
      | inr settings' => same_protected_fields settings settings'
      end.
Proof.
  unfold updateTLS, mbind, M_bind, emit, check.
  destruct (_ && _); simpl.
  - intros [= <- <-]. split; [done|]. eexists. split; [done|]. split; [|done].
    intros ev ->%list_elem_of_singleton. by left.
  - destruct (FileService_DeleteTLSFiles handler) as [cause|]; simpl;
      intros [= <- <-]; (split; [done|]); eexists; (split; [done|]).
    + split; [|by eexists]. intros ev ->%list_elem_of_singleton. by right.
    + split; [|done]. intros ev ->%list_elem_of_singleton. by right.
Qed.

(** *** The pure assignments between the effectful steps *)

Local Abbreviation beforeHelm payload settings :=
  (assignIfPresent (ShowKomposeBuildOption payload) Settings.set_ShowKomposeBuildOption
     (assignIfPresent (TemplatesURL payload) Settings.set_TemplatesURL
        (assignIfPresent (LogoURL payload) Settings.set_LogoURL
           (assignIfPresent (AuthenticationMethod payload)
              Settings.set_AuthenticationMethod settings)))).

Local Abbreviation beforeSnapshot payload settings :=
  (assignIfPresent (EdgePortainerURL payload) Settings.set_EdgePortainerURL
     (assignIfPresent (EnforceEdgeID payload) Settings.set_EnforceEdgeID
        (assignIfPresent (TrustOnFirstConnect payload) Settings.set_TrustOnFirstConnect
           (assignIfPresent (EnableEdgeComputeFeatures payload)
              Settings.set_EnableEdgeComputeFeatures
              (mergeOAuthSettings payload
                 (mergeLDAPSettings payload
                    (mergeInternalAuthSettings payload
                       (assignIfPresent (BlackListedLabels payload)
                          (λ v, Settings.set_BlackListedLabels (Some v))
                          settings)))))))).

Local Abbreviation beforeSessionTimeout payload settings :=
  (assignIfPresent (KubeconfigExpiry payload) Settings.set_KubeconfigExpiry
     (assignIfPresent (EdgeAgentCheckinInterval payload)
        Settings.set_EdgeAgentCheckinInterval settings)).

Local Abbreviation beforeTLS payload settings :=
  (assignIfPresent (EnableTelemetry payload) Settings.set_EnableTelemetry settings).

Local Abbreviation beforePersist payload settings :=
  (assignIfPresent (KubectlShellImage payload) Settings.set_KubectlShellImage settings).

Ltac merge_cases :=
  unfold assignIfPresent, mergeOAuthSettings, mergeLDAPSettings,
    mergeInternalAuthSettings;
  repeat match goal with
         | |- context [match ?o with Some _ => _ | None => _ end] =>
             is_var o; destruct o; simpl
         | |- context [match ?f ?p with Some _ => _ | None => _ end] =>
             destruct (f p); simpl
         end;
  try reflexivity.

Lemma suppressForDemo_fields handler payload :
  HelmRepositoryURL (suppressForDemo handler payload) = HelmRepositoryURL payload
  ∧ SnapshotInterval (suppressForDemo handler payload) = SnapshotInterval payload
  ∧ UserSessionTimeout (suppressForDemo handler payload) = UserSessionTimeout payload
  ∧ LDAPSettings (suppressForDemo handler payload) = LDAPSettings payload
  ∧ OAuthSettings (suppressForDemo handler payload) = OAuthSettings payload.
Proof. unfold suppressForDemo. by destruct (demoService_IsDemo handler). Qed.

Lemma suppressForDemo_demo handler payload :
  demoService_IsDemo handler = true →
  LogoURL (suppressForDemo handler payload) = None
  ∧ EnableTelemetry (suppressForDemo handler payload) = None.
Proof. unfold suppressForDemo. by intros ->. Qed.

Lemma beforeHelm_fields payload settings :
  Settings.LogoURL (beforeHelm payload settings)
    = default (Settings.LogoURL settings) (LogoURL payload)
  ∧ Settings.EnableTelemetry (beforeHelm payload settings)
    = Settings.EnableTelemetry settings
  ∧ Settings.LDAPSettings (beforeHelm payload settings)
    = Settings.LDAPSettings settings
  ∧ Settings.OAuthSettings (beforeHelm payload settings)
    = Settings.OAuthSettings settings
  ∧ Settings.HelmRepositoryURL (beforeHelm payload settings)
    = Settings.HelmRepositoryURL settings
  ∧ Settings.SnapshotInterval (beforeHelm payload settings)
    = Settings.SnapshotInterval settings.
Proof. destruct payload; simpl. split_and!; merge_cases. Qed.

Lemma beforeSnapshot_fields payload settings :
  Settings.LogoURL (beforeSnapshot payload settings) = Settings.LogoURL settings
  ∧ Settings.EnableTelemetry (beforeSnapshot payload settings)
    = Settings.EnableTelemetry settings
  ∧ Settings.SnapshotInterval (beforeSnapshot payload settings)
    = Settings.SnapshotInterval settings
  ∧ LDAPSettings.Password (Settings.LDAPSettings (beforeSnapshot payload settings))
    = match LDAPSettings payload with
      | Some ldap =>
          if nonEmpty (LDAPSettings.Password ldap)
          then LDAPSettings.Password ldap
          else LDAPSettings.Password (Settings.LDAPSettings settings)
      | None => LDAPSettings.Password (Settings.LDAPSettings settings)
      end
  ∧ OAuthSettings.ClientSecret (Settings.OAuthSettings (beforeSnapshot payload settings))
    = match OAuthSettings payload with
      | Some oauth =>
          if nonEmpty (OAuthSettings.ClientSecret oauth)
          then OAuthSettings.ClientSecret oauth
          else OAuthSettings.ClientSecret (Settings.OAuthSettings settings)
      | None => OAuthSettings.ClientSecret (Settings.OAuthSettings settings)
      end.
Proof.
  destruct payload; simpl. split_and!; merge_cases.
  all: unfold nonEmpty; by destruct (String.eqb _ _).
Qed.

Lemma beforeSessionTimeout_fields payload settings :
  same_protected_fields settings (beforeSessionTimeout payload settings).
Proof. destruct payload; simpl. split_and!; merge_cases. Qed.

Lemma beforeTLS_fields payload settings :
  Settings.LogoURL (beforeTLS payload settings) = Settings.LogoURL settings
  ∧ Settings.EnableTelemetry (beforeTLS payload settings)
    = default (Settings.EnableTelemetry settings) (EnableTelemetry payload)
  ∧ Settings.LDAPSettings (beforeTLS payload settings) = Settings.LDAPSettings settings
  ∧ Settings.OAuthSettings (beforeTLS payload settings)
    = Settings.OAuthSettings settings.
Proof. destruct payload; simpl. split_and!; merge_cases. Qed.

Lemma beforePersist_fields payload settings :
  same_protected_fields settings (beforePersist payload settings).
Proof. destruct payload; simpl. split_and!; merge_cases. Qed.

(** How a run of [updateSettings] unfolds: it stops at the first step that
    fails, and otherwise persists and returns the merged settings. *)
Lemma updateSettings_unfold handler tx payload w res w' :
  updateSettings handler tx payload w = (res, w') →
  let p := suppressForDemo handler payload in
  (∃ cause, Settings_fault tx = Some cause ∧ w' = w
     ∧ res = inl (InternalServerError
                    "Unable to retrieve the settings from the database" (Some cause)))
  ∨ (Settings_fault tx = None
     ∧ ∃ r1 w1,
       mergeHelmRepositoryURL handler p (beforeHelm p (persisted w)) w = (r1, w1)
       ∧ match r1 with
         | inl err => res = inl err ∧ w' = w1
         | inr s1 =>
       ∃ r2 w2,
       mergeSnapshotInterval handler p (beforeSnapshot p s1) w1 = (r2, w2)
       ∧ match r2 with
         | inl err => res = inl err ∧ w' = w2
         | inr s2 =>
       ∃ r3 w3,
       mergeUserSessionTimeout handler p (beforeSessionTimeout p s2) w2 = (r3, w3)
       ∧ match r3 with
         | inl err => res = inl err ∧ w' = w3
         | inr s3 =>
       ∃ r4 w4,
       updateTLS handler (beforeTLS p s3) w3 = (r4, w4)
       ∧ match r4 with
         | inl err => res = inl err ∧ w' = w4
         | inr s4 =>
             match UpdateSettings_fault tx with
             | Some cause =>
                 w' = w4
                 ∧ res = inl (InternalServerError
                     "Unable to persist settings changes inside the database"
                     (Some cause))
             | None =>
                 res = inr (beforePersist p s4)
                 ∧ persisted w' = beforePersist p s4
                 ∧ trace w' = trace w4
             end
         end end end end).
Proof.
  intros Hrun p. unfold updateSettings in Hrun. fold p in Hrun.
  unfold mbind, M_bind in Hrun.
  destruct (mapErr _ (tx_Settings tx) w) as [r0 w0] eqn:Hread.
  apply read_step in Hread as [-> Hr0].
  destruct (Settings_fault tx) as [cause|]; subst r0.
  { injection Hrun as <- <-. left. by exists cause. }
  right. split; [done|].
  destruct (mergeHelmRepositoryURL _ _ _ w) as [r1 w1] eqn:H1.
  exists r1, w1. split; [done|].
  destruct r1 as [err|s1]; [by injection Hrun as <- <-|].
  destruct (mergeSnapshotInterval _ _ _ w1) as [r2 w2] eqn:H2.
  exists r2, w2. split; [done|].
  destruct r2 as [err|s2]; [by injection Hrun as <- <-|].
  destruct (mergeUserSessionTimeout _ _ _ w2) as [r3 w3] eqn:H3.
  exists r3, w3. split; [done|].
  destruct r3 as [err|s3]; [by injection Hrun as <- <-|].
  destruct (updateTLS _ _ w3) as [r4 w4] eqn:H4.
  exists r4, w4. split; [done|].
  destruct r4 as [err|s4]; [by injection Hrun as <- <-|].
  destruct (mapErr _ (tx_UpdateSettings tx _) w4) as [r5 w5] eqn:H5.
  apply persist_step in H5.
  destruct (UpdateSettings_fault tx) as [cause|].
  - destruct H5 as [-> ->]. by injection Hrun as <- <-.
  - destruct H5 as (-> & Hp & Ht). unfold mret, M_ret in Hrun.
    by injection Hrun as <- <-.
Qed.

(** On success the merged settings are persisted, and the protected fields
    are those of the stored settings, overwritten as the payload says. *)
Lemma updateSettings_success handler tx payload w settings' w' :
  updateSettings handler tx payload w = (inr settings', w') →
  persisted w' = settings'
  ∧ Settings.LogoURL settings'
    = default (Settings.LogoURL (persisted w))
        (LogoURL (suppressForDemo handler payload))
  ∧ Settings.EnableTelemetry settings'
    = default (Settings.EnableTelemetry (persisted w))
        (EnableTelemetry (suppressForDemo handler payload))
  ∧ LDAPSettings.Password (Settings.LDAPSettings settings')
    = match LDAPSettings payload with
      | Some ldap =>
          if nonEmpty (LDAPSettings.Password ldap)
          then LDAPSettings.Password ldap
          else LDAPSettings.Password (Settings.LDAPSettings (persisted w))
      | None => LDAPSettings.Password (Settings.LDAPSettings (persisted w))
      end
  ∧ OAuthSettings.ClientSecret (Settings.OAuthSettings settings')
    = match OAuthSettings payload with
      | Some oauth =>
          if nonEmpty (OAuthSettings.ClientSecret oauth)
          then OAuthSettings.ClientSecret oauth
          else OAuthSettings.ClientSecret (Settings.OAuthSettings (persisted w))
      | None => OAuthSettings.ClientSecret (Settings.OAuthSettings (persisted w))
      end.
Proof.
  intros Hrun. apply updateSettings_unfold in Hrun.
  destruct Hrun as [(? & _ & _ & [=]) | (_ & r1 & w1 & H1 & Hrun)].
  destruct r1 as [?|s1]; [by destruct Hrun|].
  destruct Hrun as (r2 & w2 & H2 & Hrun).
  destruct r2 as [?|s2]; [by destruct Hrun|].
  destruct Hrun as (r3 & w3 & H3 & Hrun).
  destruct r3 as [?|s3]; [by destruct Hrun|].
  destruct Hrun as (r4 & w4 & H4 & Hrun).
  destruct r4 as [?|s4]; [by destruct Hrun|].
  destruct (UpdateSettings_fault tx); [by destruct Hrun|].
  destruct Hrun as ([= ->] & Hp & _).
  set (p := suppressForDemo handler payload) in *.
  apply mergeHelmRepositoryURL_step in H1 as (_ & _ & _ & _ & _ & (F1a & F1b & F1c & F1d) & _).
  apply mergeSnapshotInterval_step in H2 as (_ & _ & _ & _ & _ & F2a & F2b & F2c & F2d).
  apply mergeUserSessionTimeout_step in H3
    as (_ & _ & _ & _ & ? & [= <-] & F3a & F3b & F3c & F3d).
  apply updateTLS_step in H4 as (_ & _ & _ & _ & F4a & F4b & F4c & F4d).
  destruct (beforeHelm_fields p (persisted w)) as (A1 & A2 & A3 & A4 & _).
  destruct (beforeSnapshot_fields p s1) as (B1 & B2 & _ & B4 & B5).
  destruct (beforeSessionTimeout_fields p s2) as (C1 & C2 & C3 & C4).
  destruct (beforeTLS_fields p s3) as (D1 & D2 & D3 & D4).
  destruct (beforePersist_fields p s4) as (E1 & E2 & E3 & E4).
  destruct (suppressForDemo_fields handler payload) as (_ & _ & _ & G1 & G2).
  fold p in G1, G2. rewrite G1 in B4. rewrite G2 in B5.
  split; [done|]. split_and!.
  - by rewrite E1, F4a, D1, F3a, C1, F2a, B1, F1a, A1.
  - by rewrite E2, F4b, D2, F3b, C2, F2b, B2, F1b, A2.
  - by rewrite E3, F4c, D3, F3c, C3, F2c, B4, F1c, A3.
  - by rewrite E4, F4d, D4, F3d, C4, F2d, B5, F1d, A4.
Qed.

(** A run that does not succeed leaves the stored settings as they were. *)
Lemma updateSettings_failure handler tx payload w err w' :
  updateSettings handler tx payload w = (inl err, w') →
  persisted w' = persisted w.
Proof.
  intros Hrun. apply updateSettings_unfold in Hrun.
  destruct Hrun as [(? & _ & -> & _) | (_ & r1 & w1 & H1 & Hrun)]; [done|].
  apply mergeHelmRepositoryURL_step in H1 as (P1 & _).
  destruct r1 as [?|s1]; [by destruct Hrun as [_ ->]|].
  destruct Hrun as (r2 & w2 & H2 & Hrun).
  apply mergeSnapshotInterval_step in H2 as (P2 & _).
  destruct r2 as [?|s2]; [destruct Hrun as [_ ->]; congruence|].
  destruct Hrun as (r3 & w3 & H3 & Hrun).
  apply mergeUserSessionTimeout_step in H3 as (P3 & _).
  destruct r3 as [?|s3]; [destruct Hrun as [_ ->]; congruence|].
  destruct Hrun as (r4 & w4 & H4 & Hrun).
  apply updateTLS_step in H4 as (P4 & _).
  destruct r4 as [?|s4]; [destruct Hrun as [_ ->]; congruence|].
  destruct (UpdateSettings_fault tx); [|by destruct Hrun].
  destruct Hrun as [-> _]. congruence.
Qed.

(** C6.  When [updateSettings] succeeds and the payload carries an LDAP
    block, the merged (and persisted) LDAP password is the payload's when
    that is non-empty and the previously persisted one when it is empty; the
    same holds for the OAuth client secret and the payload's OAuth block. *)
Theorem secret_fields_preserved handler tx payload w settings' w' :
  updateSettings handler tx payload w = (inr settings', w') →
  persisted w' = settings'
  ∧ (∀ ldap, LDAPSettings payload = Some ldap →
       (LDAPSettings.Password ldap ≠ "" →
          LDAPSettings.Password (Settings.LDAPSettings settings')
          = LDAPSettings.Password ldap)
       ∧ (LDAPSettings.Password ldap = "" →
          LDAPSettings.Password (Settings.LDAPSettings settings')
          = LDAPSettings.Password (Settings.LDAPSettings (persisted w))))
  ∧ (∀ oauth, OAuthSettings payload = Some oauth →
       (OAuthSettings.ClientSecret oauth ≠ "" →
          OAuthSettings.ClientSecret (Settings.OAuthSettings settings')
          = OAuthSettings.ClientSecret oauth)
       ∧ (OAuthSettings.ClientSecret oauth = "" →
          OAuthSettings.ClientSecret (Settings.OAuthSettings settings')
          = OAuthSettings.ClientSecret (Settings.OAuthSettings (persisted w)))).
Proof.
  intros Hrun.
  destruct (updateSettings_success _ _ _ _ _ _ Hrun) as (Hp & _ & _ & Hldap & Hoauth).
  split; [done|]. split.
  - intros ldap Hl. rewrite Hl in Hldap. rewrite Hldap. split.
    + intros Hne%nonEmpty_true. by rewrite Hne.
    + intros He%nonEmpty_false. by rewrite He.
  - intros oauth Ho. rewrite Ho in Hoauth. rewrite Hoauth. split.
    + intros Hne%nonEmpty_true. by rewrite Hne.
    + intros He%nonEmpty_false. by rewrite He.
Qed.

(** C8.  For the demo account class, whatever the payload, the telemetry
    flag and the logo URL of the persisted settings are after the merge what
    they were before, and so are those of the settings a successful merge
    returns.  The suppression comes first: the run is the run of the
    ordinary merge on the payload with both fields absent. *)
Theorem demo_suppression handler tx payload w res w' :
  demoService_IsDemo handler = true →
  updateSettings handler tx payload w = (res, w') →
  Settings.EnableTelemetry (persisted w') = Settings.EnableTelemetry (persisted w)
  ∧ Settings.LogoURL (persisted w') = Settings.LogoURL (persisted w)
  ∧ (∀ settings', res = inr settings' →
       Settings.EnableTelemetry settings' = Settings.EnableTelemetry (persisted w)
       ∧ Settings.LogoURL settings' = Settings.LogoURL (persisted w))
  ∧ updateSettings (set_demoService_IsDemo false handler) tx
      (clear_LogoURL (clear_EnableTelemetry payload)) w = (res, w').
Proof.
  intros Hdemo Hrun.
  destruct (suppressForDemo_demo handler payload Hdemo) as [Hlogo Htel].
  assert (Hok : ∀ settings', res = inr settings' →
            persisted w' = settings'
            ∧ Settings.EnableTelemetry settings' = Settings.EnableTelemetry (persisted w)
            ∧ Settings.LogoURL settings' = Settings.LogoURL (persisted w)).
  { intros settings' ->.
    destruct (updateSettings_success _ _ _ _ _ _ Hrun) as (Hp & HL & HT & _).
    rewrite Hlogo in HL. rewrite Htel in HT. done. }
  split_and!.
  - destruct res as [err|settings'].
    + by rewrite (updateSettings_failure _ _ _ _ _ _ Hrun).
    + destruct (Hok settings' eq_refl) as (-> & ? & _). done.
  - destruct res as [err|settings'].
    + by rewrite (updateSettings_failure _ _ _ _ _ _ Hrun).
    + destruct (Hok settings' eq_refl) as (-> & _ & ?). done.
  - intros settings' Hres. by destruct (Hok settings' Hres) as (_ & ? & ?).
  - rewrite <- Hrun. unfold updateSettings, suppressForDemo. rewrite Hdemo.
    reflexivity.
Qed.

(** The calls of one run, step by step: the Helm check, the snapshot
    service, the session service, the TLS files.  A step that fails is the
    last one to issue calls. *)
Lemma updateSettings_events handler tx payload w res w' :
  Settings_fault tx = None →
  updateSettings handler tx payload w = (res, w') →
  ∃ evsH evsS evsU evsT,
    trace w' = trace w ++ evsH ++ evsS ++ evsU ++ evsT
    ∧ (∀ ev, ev ∈ evsH ↔
         ∃ url, ev = EvValidateHelmRepositoryURL url
           ∧ HelmRepositoryURL payload = Some url ∧ url ≠ ""
           ∧ strings.TrimSuffix (strings_ToLower handler url) "/"
               ≠ Settings.HelmRepositoryURL (persisted w)
           ∧ strings.TrimSuffix (strings_ToLower handler url) "/"
               ≠ DefaultHelmRepositoryURL handler)
    ∧ (∀ ev, ev ∈ evsT → ev = EvGetPathForTLSFile ∨ ev = EvDeleteTLSFiles)
    ∧ ((∃ url cause,
          EvValidateHelmRepositoryURL url ∈ evsH
          ∧ libhelm_ValidateHelmRepositoryURL handler url = Some cause
          ∧ res = inl (BadRequest
              "Invalid Helm repository URL. Must correspond to a valid URL format"
              (Some cause))
          ∧ evsS = [] ∧ evsU = [] ∧ evsT = [])
       ∨ ((∀ url, EvValidateHelmRepositoryURL url ∈ evsH →
                  libhelm_ValidateHelmRepositoryURL handler url = None)
          ∧ (∀ ev, ev ∈ evsS ↔
               ∃ interval, ev = EvSetSnapshotInterval interval
                 ∧ SnapshotInterval payload = Some interval
                 ∧ interval ≠ Settings.SnapshotInterval (persisted w))
          ∧ ((∃ interval cause,
                EvSetSnapshotInterval interval ∈ evsS
                ∧ SnapshotService_SetSnapshotInterval handler interval = Some cause
                ∧ evsU = [] ∧ evsT = [])
             ∨ ((∀ interval, EvSetSnapshotInterval interval ∈ evsS →
                   SnapshotService_SetSnapshotInterval handler interval = None)
                ∧ (∀ ev, ev ∈ evsU ↔
                     ∃ timeout,
                       ev = EvSetUserSessionDuration (time_ParseDuration handler timeout)
                       ∧ UserSessionTimeout payload = Some timeout))))).
Proof.
  intros Hread Hrun. apply updateSettings_unfold in Hrun.
  destruct Hrun as [(? & ? & _) | (_ & r1 & w1 & H1 & Hrun)]; [congruence|].
  destruct (suppressForDemo_fields handler payload) as (G1 & G2 & G3 & _).
  set (p := suppressForDemo handler payload) in *.
  destruct (beforeHelm_fields p (persisted w)) as (_ & _ & _ & _ & Ahelm & Asnap).
  apply mergeHelmRepositoryURL_step in H1 as (_ & evsH & T1 & E1 & R1).
  rewrite G1, Ahelm in E1. exists evsH.
  destruct r1 as [?|s1].
  { destruct Hrun as [-> ->]. destruct R1 as (url & cause & ? & ? & ->).
    exists [], [], []. rewrite !app_nil_r. split_and!; try done.
    { by intros ? ?%elem_of_nil. }
    left. by exists url, cause. }
  destruct R1 as (V1 & _ & S1).
  destruct Hrun as (r2 & w2 & H2 & Hrun).
  destruct (beforeSnapshot_fields p s1) as (_ & _ & Bsnap & _).
  apply mergeSnapshotInterval_step in H2 as (_ & evsS & T2 & E2 & R2).
  rewrite G2, Bsnap, S1, Asnap in E2. exists evsS.
  destruct r2 as [?|s2].
  { destruct Hrun as [-> ->]. destruct R2 as (interval & cause & ? & ? & ->).
    exists [], []. rewrite !app_nil_r, T2, T1, <- app_assoc. split_and!; try done.
    { by intros ? ?%elem_of_nil. }
    right. split_and!; try done. left. by exists interval, cause. }
  destruct R2 as (V2 & _).
  destruct Hrun as (r3 & w3 & H3 & Hrun).
  apply mergeUserSessionTimeout_step in H3 as (_ & evsU & T3 & E3 & s3 & -> & _).
  rewrite G3 in E3. exists evsU.
  destruct Hrun as (r4 & w4 & H4 & Hrun).
  apply updateTLS_step in H4 as (_ & evsT & T4 & E4 & R4).
  exists evsT.
  assert (Htrace : trace w4 = trace w ++ evsH ++ evsS ++ evsU ++ evsT).
  { rewrite T4, T3, T2, T1, <- !app_assoc. done. }
  assert (Hw' : trace w' = trace w4).
  { destruct r4 as [?|s4]; [by destruct Hrun as [_ ->]|].
    destruct (UpdateSettings_fault tx); [by destruct Hrun as [-> _] | by destruct Hrun as (_ & _ & ->)]. }
  rewrite Hw'. split_and!; try done.
  right. split_and!; try done. right. done.
Qed.

(** The Helm repository URL a successful merge leaves in the settings. *)
Lemma updateSettings_success_helm handler tx payload w settings' w' :
  updateSettings handler tx payload w = (inr settings', w') →
  Settings.HelmRepositoryURL settings'
  = match HelmRepositoryURL payload with
    | Some url =>
        if nonEmpty url
        then strings.TrimSuffix (strings_ToLower handler url) "/"
        else ""
    | None => Settings.HelmRepositoryURL (persisted w)
    end.
Proof.
  intros Hrun. apply updateSettings_unfold in Hrun.
  destruct Hrun as [(? & _ & _ & [=]) | (_ & r1 & w1 & H1 & Hrun)].
  destruct r1 as [?|s1]; [by destruct Hrun|].
  destruct Hrun as (r2 & w2 & H2 & Hrun).
  destruct r2 as [?|s2]; [by destruct Hrun|].
  destruct Hrun as (r3 & w3 & H3 & Hrun).
  destruct r3 as [?|s3]; [by destruct Hrun|].
  destruct Hrun as (r4 & w4 & H4 & Hrun).
  destruct r4 as [?|s4]; [by destruct Hrun|].
  destruct (UpdateSettings_fault tx); [by destruct Hrun|].
  destruct Hrun as ([= ->] & _ & _).
  destruct (suppressForDemo_fields handler payload) as (G1 & _).
  set (p := suppressForDemo handler payload) in *.
  destruct (beforeHelm_fields p (persisted w)) as (_ & _ & _ & _ & A & _).
  assert (E5 : Settings.HelmRepositoryURL (beforePersist p s4)
               = Settings.HelmRepositoryURL s4) by merge_cases.
  assert (E4 : Settings.HelmRepositoryURL s4 = Settings.HelmRepositoryURL s3).
  { transitivity (Settings.HelmRepositoryURL (beforeTLS p s3)); [|merge_cases].
    revert H4. unfold updateTLS, mbind, M_bind, emit, check.
    destruct (_ && _); simpl; [by intros [= <- _]|].
    destruct (FileService_DeleteTLSFiles handler); simpl; [done | by intros [= <- _]]. }
  assert (E3 : Settings.HelmRepositoryURL s3 = Settings.HelmRepositoryURL s2).
  { transitivity (Settings.HelmRepositoryURL (beforeSessionTimeout p s2));
      [|merge_cases].
    revert H3. unfold mergeUserSessionTimeout, mbind, M_bind, emit.
    destruct (UserSessionTimeout p); simpl; by intros [= <- _]. }
  assert (E2 : Settings.HelmRepositoryURL s2 = Settings.HelmRepositoryURL s1).
  { transitivity (Settings.HelmRepositoryURL (beforeSnapshot p s1));
      [|destruct p; simpl; merge_cases].
    revert H2. unfold mergeSnapshotInterval, mapErr, updateSnapshotInterval,
      mbind, M_bind, emit, check.
    destruct (SnapshotInterval p) as [interval|]; simpl; [|by intros [= <- _]].
    destruct (differs _ _); [|by intros [= <- _]].
    destruct (SnapshotService_SetSnapshotInterval handler interval); simpl;
      [done | by intros [= <- _]]. }
  rewrite E5, E4, E3, E2. clear E5 E4 E3 E2 H2 H3 H4.
  revert H1. unfold mergeHelmRepositoryURL, mbind, M_bind, emit, check.
  rewrite G1. destruct (HelmRepositoryURL payload) as [url|]; simpl;
    [|by intros [= <- _]].
  destruct (nonEmpty url); [|by intros [= <- _]].
  destruct (_ && _); simpl; [|by intros [= <- _]].
  destruct (libhelm_ValidateHelmRepositoryURL handler url); simpl;
    [done | by intros [= <- _]].
Qed.

(** C9.  In a merge that could read the stored settings, the Helm
    repository check is invoked if and only if the payload supplies a
    non-empty [HelmRepositoryURL] by which the setting changes from its
    stored value and whose new value differs from the default; the new value
    of the setting is the payload's in lower case and without a trailing
    slash, which is what a successful merge stores.  When the check fails the
    merge returns an error and the stored settings stay as they were. *)
Theorem helm_validation_gate handler tx payload w res w' :
  Settings_fault tx = None →
  updateSettings handler tx payload w = (res, w') →
  ∃ evs, trace w' = trace w ++ evs
    ∧ (∀ url, EvValidateHelmRepositoryURL url ∈ evs ↔
         HelmRepositoryURL payload = Some url ∧ url ≠ ""
         ∧ strings.TrimSuffix (strings_ToLower handler url) "/"
             ≠ Settings.HelmRepositoryURL (persisted w)
         ∧ strings.TrimSuffix (strings_ToLower handler url) "/"
             ≠ DefaultHelmRepositoryURL handler)
    ∧ (∀ url settings', HelmRepositoryURL payload = Some url → url ≠ "" →
         res = inr settings' →
         Settings.HelmRepositoryURL (persisted w')
         = strings.TrimSuffix (strings_ToLower handler url) "/")
    ∧ (∀ url cause,
         EvValidateHelmRepositoryURL url ∈ evs →
         libhelm_ValidateHelmRepositoryURL handler url = Some cause →
         res = inl (BadRequest
                 "Invalid Helm repository URL. Must correspond to a valid URL format"
                 (Some cause))
         ∧ persisted w' = persisted w).
Proof.
  intros Hread Hrun.
  destruct (updateSettings_events _ _ _ _ _ _ Hread Hrun)
    as (evsH & evsS & evsU & evsT & Htrace & EH & ET & Hcases).
  exists (evsH ++ evsS ++ evsU ++ evsT). split; [done|].
  assert (Hin : ∀ url, EvValidateHelmRepositoryURL url ∈ evsH ++ evsS ++ evsU ++ evsT
                       ↔ EvValidateHelmRepositoryURL url ∈ evsH).
  { intros url. rewrite !elem_of_app. split; [|by left].
    intros [?|[HS|[HU|HT]]]; [done|exfalso..].
    - destruct Hcases as [(_ & _ & _ & _ & _ & -> & _) | (_ & ES & _)].
      + by apply elem_of_nil in HS.
      + apply ES in HS as (? & ? & _). done.
    - destruct Hcases as [(_ & _ & _ & _ & _ & _ & -> & _)
                         | (_ & _ & [(_ & _ & _ & _ & -> & _) | (_ & EU)])].
      + by apply elem_of_nil in HU.
      + by apply elem_of_nil in HU.
      + apply EU in HU as (? & ? & _). done.
    - by destruct (ET _ HT). }
  split_and!.
  - intros url. rewrite Hin, EH. split.
    + by intros (? & [= <-] & ?).
    + intros ?. by exists url.
  - intros url settings' Hurl Hne%nonEmpty_true ->.
    destruct (updateSettings_success _ _ _ _ _ _ Hrun) as (-> & _).
    rewrite (updateSettings_success_helm _ _ _ _ _ _ Hrun), Hurl, Hne. done.
  - intros url cause Hurl%Hin Hval.
    destruct Hcases as [(url' & cause' & Hurl' & Hval' & Hres & _) | (Hok & _)].
    + subst res. apply EH in Hurl as (? & [= <-] & Hp & _).
      apply EH in Hurl' as (? & [= <-] & Hp' & _).
      rewrite Hp in Hp'. injection Hp' as <-.
      rewrite Hval in Hval'. injection Hval' as <-.
      split; [done|]. by eapply updateSettings_failure.
    + rewrite (Hok _ Hurl) in Hval. done.
Qed.

(** C7 (as the code has it).  The calls to the snapshot service and to the
    session service are issued during the merge, where their field is
    handled: the snapshot call if and only if the settings were read, the
    Helm check did not fail and the payload's [SnapshotInterval] differs from
    the stored one; the session call if and only if, in addition, the
    snapshot call did not fail and the payload has a [UserSessionTimeout].
    Whether [updateTLS] or the persistence of the aggregate fails afterwards
    has no part in it. *)
Theorem dependent_side_effects_inline handler tx payload w res w' :
  updateSettings handler tx payload w = (res, w') →
  ∃ evs, trace w' = trace w ++ evs
    ∧ (∀ interval, EvSetSnapshotInterval interval ∈ evs ↔
         Settings_fault tx = None
         ∧ (∀ url, EvValidateHelmRepositoryURL url ∈ evs →
                   libhelm_ValidateHelmRepositoryURL handler url = None)
         ∧ SnapshotInterval payload = Some interval
         ∧ interval ≠ Settings.SnapshotInterval (persisted w))
    ∧ (∀ duration, EvSetUserSessionDuration duration ∈ evs ↔
         Settings_fault tx = None
         ∧ (∀ url, EvValidateHelmRepositoryURL url ∈ evs →
                   libhelm_ValidateHelmRepositoryURL handler url = None)
         ∧ (∀ interval, EvSetSnapshotInterval interval ∈ evs →
                   SnapshotService_SetSnapshotInterval handler interval = None)
         ∧ ∃ timeout, UserSessionTimeout payload = Some timeout
                      ∧ duration = time_ParseDuration handler timeout).
Proof.
  intros Hrun. destruct (Settings_fault tx) as [cause|] eqn:Hread.
  { apply updateSettings_unfold in Hrun
      as [(? & _ & -> & _) | (? & _)]; [|congruence].
    exists []. rewrite app_nil_r. split; [done|].
    split; intros ?; (split; [by intros ?%elem_of_nil | by intros [? _]]). }
  destruct (updateSettings_events _ _ _ _ _ _ Hread Hrun)
    as (evsH & evsS & evsU & evsT & Htrace & EH & ET & Hcases).
  exists (evsH ++ evsS ++ evsU ++ evsT). split; [done|].
  destruct Hcases as [(url & cause & Hurl & Hval & _ & -> & -> & ->)
                     | (Hok & ES & Hcases)].
  { rewrite !app_nil_r.
    split; intros x; (split; [intros Hx%EH; by destruct Hx as (? & ? & _)|]).
    - intros (_ & Hall & _). rewrite (Hall _ Hurl) in Hval. done.
    - intros (_ & Hall & _). rewrite (Hall _ Hurl) in Hval. done. }
  assert (HinH : ∀ url, EvValidateHelmRepositoryURL url ∈ evsH ++ evsS ++ evsU ++ evsT →
                        libhelm_ValidateHelmRepositoryURL handler url = None).
  { intros url. rewrite !elem_of_app. intros [?|[HS|[HU|HT]]]; [by apply Hok|exfalso..].
    - apply ES in HS as (? & ? & _). done.
    - destruct Hcases as [(_ & _ & _ & _ & -> & _) | (_ & EU)].
      + by apply elem_of_nil in HU.
      + apply EU in HU as (? & ? & _). done.
    - by destruct (ET _ HT). }
  assert (HinS : ∀ interval,
            EvSetSnapshotInterval interval ∈ evsH ++ evsS ++ evsU ++ evsT
            ↔ EvSetSnapshotInterval interval ∈ evsS).
  { intros interval. rewrite !elem_of_app. split; [|by right; left].
    intros [HH|[?|[HU|HT]]]; [exfalso|done|exfalso..].
    - apply EH in HH as (? & ? & _). done.
    - destruct Hcases as [(_ & _ & _ & _ & -> & _) | (_ & EU)].
      + by apply elem_of_nil in HU.
      + apply EU in HU as (? & ? & _). done.
    - by destruct (ET _ HT). }
  assert (HinU : ∀ duration,
            EvSetUserSessionDuration duration ∈ evsH ++ evsS ++ evsU ++ evsT
            ↔ EvSetUserSessionDuration duration ∈ evsU).
  { intros duration. rewrite !elem_of_app. split; [|by right; right; left].
    intros [HH|[HS|[?|HT]]]; [exfalso..|done|exfalso].
    - apply EH in HH as (? & ? & _). done.
    - apply ES in HS as (? & ? & _). done.
    - by destruct (ET _ HT). }
  split.
  - intros interval. rewrite HinS, ES. split.
    + by intros (? & [= <-] & ? & ?).
    + intros (_ & _ & ? & ?). by exists interval.
  - intros duration. rewrite HinU.
    destruct Hcases as [(interval & cause & Hint & Hset & -> & _) | (Hsok & EU)].
    + split; [by intros ?%elem_of_nil|].
      intros (_ & _ & Hall & _). apply HinS in Hint.
      rewrite (Hall _ Hint) in Hset. done.
    + rewrite EU. split.
      * intros (timeout & [= ->] & ?). split_and!; try done.
        -- intros interval Hi%HinS. by apply Hsok.
        -- by exists timeout.
      * intros (_ & _ & _ & timeout & ? & ->). by exists timeout.
Qed.

End SettingsProperties.

(** ** The dual-mode executor *)

Section ExecutorProperties.
Import executor.
Context {V R : Type} (ErrObjectNotFound : error).
Implicit Types (body : Mutation V R) (store : gmap Key V) (tx : TxStore V).

Local Abbreviation runDirect body store :=
  (run (H := gmap Key V) (H0 := direct_capability ErrObjectNotFound) body store).
Local Abbreviation runTx body tx :=
  (run (H := TxStore V) (H0 := tx_capability ErrObjectNotFound) body tx).

(** A read through the transaction sees what a read of the committed state
    would see. *)
Lemma read_commit (key : Key) tx :
  @readAggregate V _ (direct_capability ErrObjectNotFound) key (commit tx)
  = @readAggregate V _ (tx_capability ErrObjectNotFound) key tx.
Proof.
  unfold commit; simpl. rewrite lookup_union.
  by destruct (pending tx !! key), (snapshot tx !! key).
Qed.

(** Simulation: the direct run from the state a transaction would commit
    stays in step with the transactional run. *)
Lemma run_commit body tx :
  runDirect body (commit tx) = ((runTx body tx).1, commit (runTx body tx).2).
Proof.
  revert tx. induction body as [r|err|key k IH|key value k IH]; intros tx.
  - done.
  - done.
  - cbn [run]. rewrite <- read_commit. apply IH.
  - simpl. rewrite <- (IH None). unfold commit; simpl.
    by rewrite insert_union_l.
Qed.

Lemma commit_begin store : commit (begin store) = store.
Proof. unfold commit, begin; simpl. apply (left_id_L ∅ (∪)). Qed.

(** A transaction with pending writes amounts to running the body on a view
    of the store that is committed on success and dropped on an error.  This
    is the form [UpdateTx] has in the worlds of the two handlers. *)
Lemma UpdateTx_commit_or_drop body store :
  UpdateTx ErrObjectNotFound body store
  = match runDirect body store with
    | (inr r, store') => (inr r, store')
    | (inl err, _) => (inl err, store)
    end.
Proof.
  unfold UpdateTx.
  pose proof (run_commit body (begin store)) as Hsim.
  rewrite commit_begin in Hsim. rewrite Hsim.
  by destruct (runTx body (begin store)) as [[err|r1] tx1].
Qed.

(** For every mutation body written against the store capability and every
    starting store, the direct path succeeds with a result and a resulting
    store exactly when the transactional path succeeds with that result and
    that store. *)
Lemma execute_paths_agree body store (r : R) store' :
  execute ErrObjectNotFound true body store = (inr r, store')
  ↔ execute ErrObjectNotFound false body store = (inr r, store').
Proof.
  unfold execute. rewrite UpdateTx_commit_or_drop.
  destruct (runDirect body store) as [[err|r1] store1].
  - split; intros [=].
  - done.
Qed.

End ExecutorProperties.

(** ** The password update *)

Section PasswordProperties.
Import portainer users.
Context {sh : FieldShapes}.

(** C10.  When the password update succeeds, the stored record of the user
    carries the hash of the new password and the current clock time as
    [TokenIssueAt]; its other fields, and all other users, are as before. *)
Theorem password_update_frame (handler : Handler) (r : Request)
    (ds ds' : DataStore sh) :
  userUpdatePassword handler r ds = (None, ds') →
  ∃ userID payload user hash,
    route_id r = inr userID
    ∧ json_body r = inr payload
    ∧ stored_users ds !! userID = Some user
    ∧ CryptoService_Hash handler (NewPassword payload) = inr hash
    ∧ stored_users ds'
      = <[User.ID user :=
            User.mk sh (User.ID user) (User.Username user) hash (User.Role user)
              (time_Now_Unix handler) (User.rest user)]> (stored_users ds).
Proof.
  unfold userUpdatePassword, DecodeAndValidateJSONPayload, User_Read, User_Update.
  destruct (route_id r) as [?|userID]; [done|].
  destruct (demoService_IsDemoUser handler userID); [done|].
  destruct (token_data r) as [?|tokenData]; [done|].
  destruct (_ && _); [done|].
  destruct (json_body r) as [?|payload]; [done|].
  destruct (Validate payload); [done|].
  destruct (User_Read_fault ds); [done|].
  destruct (stored_users ds !! userID) as [user|] eqn:Huser; [|done].
  destruct (CryptoService_CompareHashAndData _ _ _); [done|].
  destruct (negb _); [done|].
  destruct (CryptoService_Hash handler (NewPassword payload)) as [?|hash] eqn:Hhash;
    [done|].
  simpl. destruct (User_Update_fault ds); [done|].
  intros [= <-]. by exists userID, payload, user, hash.
Qed.

End PasswordProperties.

(** * Worked instances *)

(** ** Synchronizing [{ns1, ns2}] to [{ns2, ns3}] *)

(** One delete for [ns1], then one create for [ns3]; [ns2] is not touched. *)
Lemma removals_precede_additions_witness :
  (0 < 1)%nat
  ∧ "ns3" ∈ dom (endpoints.namespaceDelta canonicalIter ["ns1"; "ns2"] ["ns2"; "ns3"]).1
  ∧ "ns1" ∈ dom (endpoints.namespaceDelta canonicalIter ["ns1"; "ns2"] ["ns2"; "ns3"]).2.
Proof.
  apply (removals_precede_additions (endpoints.sampleHandler []) canonicalIter
           () () ["ns1"; "ns2"] ["ns2"; "ns3"] ["ns1"; "ns2"]
           None ["ns3"; "ns2"]
           [endpoints.CallDelete "ns1" None; endpoints.CallCreate "ns3" None]
           1 0 "ns3" None "ns1" None).
  - vm_compute. reflexivity.
  - reflexivity.
  - reflexivity.
Defined.

(** The secret of [ns1] cannot be deleted: the synchronization stops there,
    whatever the order in which the namespaces to remove are visited. *)
Lemma first_error_aborts_witness :
  Some (ErrorString "secret is locked") = Some (ErrorString "secret is locked")
  ∧ length [endpoints.CallDelete "ns0" None;
            endpoints.CallDelete "ns1" (Some (ErrorString "secret is locked"))]
    = 2%nat.
Proof.
  apply (first_error_aborts (endpoints.sampleHandler ["ns1"]) reverseIter
           () () ["ns1"; "ns2"; "ns0"] ["ns2"; "ns3"] ["ns1"; "ns2"]
           (Some (ErrorString "secret is locked")) ["ns1"; "ns2"]
           [endpoints.CallDelete "ns0" None;
            endpoints.CallDelete "ns1" (Some (ErrorString "secret is locked"))]
           1 (endpoints.CallDelete "ns1" (Some (ErrorString "secret is locked")))
           (ErrorString "secret is locked")).
  - vm_compute. reflexivity.
  - reflexivity.
  - reflexivity.
Defined.

(** ** Settings updates *)

Section SettingsInstances.
Import portainer settings.

Local Abbreviation allReachable := (λ _ : string, true).
Local Abbreviation noneReachable := (λ _ : string, false).

(** The merged settings of a successful sample run. *)
Local Abbreviation merged handler tx payload :=
  (persisted (updateSettings handler tx payload sampleWorld).2).

(** An empty LDAP password keeps ["S1"]; the OAuth secret ["S2"] replaces
    ["S1"]. *)
Lemma secret_fields_preserved_witness :
  LDAPSettings.Password
    (Settings.LDAPSettings
       (merged (sampleHandler false allReachable) soundStore (secretsPayload "" "S2")))
  = "S1"
  ∧ OAuthSettings.ClientSecret
      (Settings.OAuthSettings
         (merged (sampleHandler false allReachable) soundStore (secretsPayload "" "S2")))
    = "S2".
Proof.
  destruct (secret_fields_preserved (sampleHandler false allReachable) soundStore
              (secretsPayload "" "S2") sampleWorld
              (merged (sampleHandler false allReachable) soundStore
                 (secretsPayload "" "S2"))
              (updateSettings (sampleHandler false allReachable) soundStore
                 (secretsPayload "" "S2") sampleWorld).2)
    as (_ & Hldap & Hoauth).
  - vm_compute. reflexivity.
  - split.
    + destruct (Hldap (sampleLDAP "") eq_refl) as [_ Hkeep].
      rewrite Hkeep; reflexivity.
    + destruct (Hoauth (sampleOAuth "S2") eq_refl) as [Hnew _].
      rewrite Hnew; [reflexivity | discriminate].
Defined.

(** In the demo, a payload that enables telemetry and sets a logo changes
    neither. *)
Lemma demo_suppression_witness :
  Settings.EnableTelemetry
    (merged (sampleHandler true allReachable) soundStore brandingPayload) = false
  ∧ Settings.LogoURL
      (merged (sampleHandler true allReachable) soundStore brandingPayload) = "".
Proof.
  destruct (demo_suppression (sampleHandler true allReachable) soundStore
              brandingPayload sampleWorld
              (updateSettings (sampleHandler true allReachable) soundStore
                 brandingPayload sampleWorld).1
              (updateSettings (sampleHandler true allReachable) soundStore
                 brandingPayload sampleWorld).2)
    as (Htelemetry & Hlogo & _).
  - reflexivity.
  - vm_compute. reflexivity.
  - split; [rewrite Htelemetry | rewrite Hlogo]; reflexivity.
Defined.

(** A new repository that cannot be reached: the check is invoked, the merge
    fails and nothing is persisted. *)
Lemma helm_validation_gate_witness :
  ∃ evs,
    trace (updateSettings (sampleHandler false noneReachable) soundStore
             (helmPayload "https://Charts.Example.org/") sampleWorld).2
    = trace sampleWorld ++ evs
    ∧ (∀ url, EvValidateHelmRepositoryURL url ∈ evs ↔
         settingsUpdatePayload.HelmRepositoryURL
           (helmPayload "https://Charts.Example.org/") = Some url
         ∧ url ≠ ""
         ∧ strings.TrimSuffix
             (strings_ToLower (sampleHandler false noneReachable) url) "/"
           ≠ Settings.HelmRepositoryURL (persisted sampleWorld)
         ∧ strings.TrimSuffix
             (strings_ToLower (sampleHandler false noneReachable) url) "/"
           ≠ DefaultHelmRepositoryURL (sampleHandler false noneReachable))
    ∧ (∀ url settings',
         settingsUpdatePayload.HelmRepositoryURL
           (helmPayload "https://Charts.Example.org/") = Some url →
         url ≠ "" →
         (updateSettings (sampleHandler false noneReachable) soundStore
            (helmPayload "https://Charts.Example.org/") sampleWorld).1
         = inr settings' →
         Settings.HelmRepositoryURL
           (persisted
              (updateSettings (sampleHandler false noneReachable) soundStore
                 (helmPayload "https://Charts.Example.org/") sampleWorld).2)
         = strings.TrimSuffix
             (strings_ToLower (sampleHandler false noneReachable) url) "/")
    ∧ (∀ url cause,
         EvValidateHelmRepositoryURL url ∈ evs →
         libhelm_ValidateHelmRepositoryURL (sampleHandler false noneReachable) url
           = Some cause →
         (updateSettings (sampleHandler false noneReachable) soundStore
            (helmPayload "https://Charts.Example.org/") sampleWorld).1
         = inl (BadRequest
                 "Invalid Helm repository URL. Must correspond to a valid URL format"
                 (Some cause))
         ∧ persisted
             (updateSettings (sampleHandler false noneReachable) soundStore
                (helmPayload "https://Charts.Example.org/") sampleWorld).2
           = persisted sampleWorld).
Proof.
  apply (helm_validation_gate (sampleHandler false noneReachable) soundStore
           (helmPayload "https://Charts.Example.org/") sampleWorld).
  - reflexivity.
  - vm_compute. reflexivity.
Defined.

(** C7, as stated, fails.  The payload sets a new session timeout and a new
    snapshot interval, and the datastore refuses the write: the merge reports
    an error and the stored settings are the old ones, yet the snapshot
    service and the session service have both been reconfigured. *)
Lemma side_effects_precede_persistence :
  updateSettings (sampleHandler false allReachable) readOnlyStore timeoutPayload
    sampleWorld
  = (inl (InternalServerError
            "Unable to persist settings changes inside the database"
            (Some (ErrorString "database is read-only"))),
     mkWorld sampleSettings
       [EvSetSnapshotInterval "1m"; EvSetUserSessionDuration 300000000000;
        EvDeleteTLSFiles]).
Proof. vm_compute. reflexivity. Qed.

Lemma dependent_side_effects_inline_witness :
  ∃ evs,
    trace (updateSettings (sampleHandler false allReachable) readOnlyStore
             timeoutPayload sampleWorld).2
    = trace sampleWorld ++ evs
    ∧ (∀ interval, EvSetSnapshotInterval interval ∈ evs ↔
         Settings_fault readOnlyStore = None
         ∧ (∀ url, EvValidateHelmRepositoryURL url ∈ evs →
              libhelm_ValidateHelmRepositoryURL
                (sampleHandler false allReachable) url = None)
         ∧ settingsUpdatePayload.SnapshotInterval timeoutPayload = Some interval
         ∧ interval ≠ Settings.SnapshotInterval (persisted sampleWorld))
    ∧ (∀ duration, EvSetUserSessionDuration duration ∈ evs ↔
         Settings_fault readOnlyStore = None
         ∧ (∀ url, EvValidateHelmRepositoryURL url ∈ evs →
              libhelm_ValidateHelmRepositoryURL
                (sampleHandler false allReachable) url = None)
         ∧ (∀ interval, EvSetSnapshotInterval interval ∈ evs →
              SnapshotService_SetSnapshotInterval
                (sampleHandler false allReachable) interval = None)
         ∧ ∃ timeout,
             settingsUpdatePayload.UserSessionTimeout timeoutPayload = Some timeout
             ∧ duration
               = time_ParseDuration (sampleHandler false allReachable) timeout).
Proof.
  apply (dependent_side_effects_inline (sampleHandler false allReachable)
           readOnlyStore timeoutPayload sampleWorld
           (updateSettings (sampleHandler false allReachable) readOnlyStore
              timeoutPayload sampleWorld).1).
  vm_compute. reflexivity.
Defined.

End SettingsInstances.

(** ** User 7 changes their password *)

Lemma password_update_frame_witness :
  ∃ userID payload user hash,
    users.route_id users.sampleRequest = inr userID
    ∧ users.json_body users.sampleRequest = inr payload
    ∧ users.stored_users users.sampleStore !! userID = Some user
    ∧ users.CryptoService_Hash users.sampleHandler (users.NewPassword payload)
      = inr hash
    ∧ users.stored_users
        (users.userUpdatePassword users.sampleHandler users.sampleRequest
           users.sampleStore).2
      = <[portainer.User.ID user :=
            portainer.User.mk portainer.plainShapes (portainer.User.ID user)
              (portainer.User.Username user) hash (portainer.User.Role user)
              (users.time_Now_Unix users.sampleHandler)
              (portainer.User.rest user)]>
          (users.stored_users users.sampleStore).
Proof.
  apply (password_update_frame users.sampleHandler users.sampleRequest
           users.sampleStore).
  vm_compute. reflexivity.
Defined.

(** * Further properties *)

(** ** The reconciler on arbitrary inputs *)

Section ReconcilerMore.
Import endpoints.

Lemma range_keys_NoDup (it : MapIter) site (m : gmap string bool) :
  NoDup (range_keys it site m).
Proof.
  rewrite (range_keys_perm it site m). apply NoDup_fst_map_to_list.
Qed.

Lemma toSet_ext (l1 l2 : list string) :
  (∀ el, el ∈ l1 ↔ el ∈ l2) → toSet l1 = toSet l2.
Proof.
  intros Hext. apply map_eq. intros el. rewrite !toSet_lookup.
  destruct (decide (el ∈ l1)) as [H1|H1], (decide (el ∈ l2)) as [H2|H2];
    try done.
  - by apply Hext in H1.
  - by apply Hext in H2.
Qed.

(** X1.  Only the elements of the two lists matter to the reconciler:
    repeating or reordering namespaces in either list changes neither
    [toAdd] nor [toRemove]. *)
Theorem reconciler_ignores_duplicates_and_order (it : MapIter)
    (old old' new new' : list string) :
  (∀ ns, ns ∈ old ↔ ns ∈ old') →
  (∀ ns, ns ∈ new ↔ ns ∈ new') →
  namespaceDelta it old new = namespaceDelta it old' new'.
Proof.
  intros Hold Hnew. unfold namespaceDelta.
  by rewrite (toSet_ext old old' Hold), (toSet_ext new new' Hnew).
Qed.

(** X2.  [setDifference] on arbitrary maps: a key of [setA] is kept unless
    [setB] maps it to [true].  A key that [setB] holds with the value
    [false] is kept, and every key of the result is mapped to [true],
    whatever [setA] maps it to. *)
Theorem setDifference_false_entries (it : MapIter) site (setA setB : stringSet) el :
  (setDifference it site setA setB !! el = Some true
   ↔ is_Some (setA !! el) ∧ setB !! el ≠ Some true)
  ∧ setDifference it site setA setB !! el ≠ Some false.
Proof.
  rewrite setDifference_lookup. unfold index.
  destruct (decide (is_Some (setA !! el) ∧ default false (setB !! el) = false))
    as [[HA HB]|Hn].
  - split; [|done]. split; [|done]. intros _. split; [done|].
    intros HB'. by rewrite HB' in HB.
  - split; [|done]. split; [done|]. intros [HA HB]. destruct Hn. split; [done|].
    destruct (setB !! el) as [[]|]; done.
Qed.

End ReconcilerMore.

(** ** The Access Synchronizer: what is called, and how often *)

Section SynchronizerMore.
Import endpoints endpoint_registry_access.
Context {Endpoint Registry Cluster : Type}.
Implicit Types (cli : KubeClient Registry Cluster) (k : Cluster).
Implicit Types (calls : list KubeCall) (res : option error).

(** A loop calls the client for a prefix of its namespaces, in order, and
    for all of them when it ends without error. *)
Lemma deleteLoop_namespaces cli (registry : Registry) namespaces k res k' calls :
  deleteLoop cli registry namespaces k = (res, k', calls) →
  call_namespace <$> calls `prefix_of` namespaces
  ∧ (res = None → calls = (λ ns, CallDelete ns None) <$> namespaces).
Proof.
  revert k res k' calls.
  induction namespaces as [|ns rest IH]; simpl; intros k res k' calls Hrun.
  - injection Hrun as <- <- <-. split; [by exists [] | done].
  - destruct (DeleteRegistrySecret cli registry ns k) as [[err|] k1].
    + injection Hrun as <- <- <-. split; [by exists rest | done].
    + destruct (deleteLoop cli registry rest k1) as [[res1 k2] calls1] eqn:Hrest.
      injection Hrun as <- <- <-. destruct (IH _ _ _ _ Hrest) as [Hpre Hall].
      split.
      * simpl. by apply prefix_cons.
      * intros ->. simpl. by rewrite Hall.
Qed.

Lemma createLoop_namespaces cli (registry : Registry) namespaces k res k' calls :
  createLoop cli registry namespaces k = (res, k', calls) →
  call_namespace <$> calls `prefix_of` namespaces
  ∧ (res = None → calls = (λ ns, CallCreate ns None) <$> namespaces).
Proof.
  revert k res k' calls.
  induction namespaces as [|ns rest IH]; simpl; intros k res k' calls Hrun.
  - injection Hrun as <- <- <-. split; [by exists [] | done].
  - destruct (CreateRegistrySecret cli registry ns k) as [[err|] k1].
    + injection Hrun as <- <- <-. split; [by exists rest | done].
    + destruct (createLoop cli registry rest k1) as [[res1 k2] calls1] eqn:Hrest.
      injection Hrun as <- <- <-. destruct (IH _ _ _ _ Hrest) as [Hpre Hall].
      split.
      * simpl. by apply prefix_cons.
      * intros ->. simpl. by rewrite Hall.
Qed.

Lemma NoDup_prefix (l1 l2 : list string) : l1 `prefix_of` l2 → NoDup l2 → NoDup l1.
Proof. intros [l ->] Hnd. by apply NoDup_app in Hnd as [? _]. Qed.

Lemma delta_keys it (old new : list string) ns :
  (ns ∈ dom (namespaceDelta it old new).1 ↔ ns ∈ new ∧ ns ∉ old)
  ∧ (ns ∈ dom (namespaceDelta it old new).2 ↔ ns ∈ old ∧ ns ∉ new).
Proof.
  unfold namespaceDelta; simpl. rewrite !dom_setDifference_toSet.
  rewrite !elem_of_difference, !elem_of_list_to_set. done.
Qed.

Lemma range_keys_dom_perm it site (m : gmap string bool) :
  range_keys it site m ≡ₚ elements (dom m).
Proof.
  apply NoDup_Permutation.
  - apply range_keys_NoDup.
  - apply NoDup_elements.
  - intros ns. by rewrite range_keys_elem_of, elem_of_elements, elem_of_dom.
Qed.

(** X3.  Whatever the outcome of a synchronization, a namespace is deleted
    only if it is in the old list and not in the new one, created only if it
    is in the new list and not in the old one, and no namespace is the subject
    of two calls.  A namespace that is in both lists is never touched. *)
Theorem synchronizer_calls_within_delta
    (handler : Handler Endpoint Registry Cluster) it
    endpoint registry oldNamespaces newNamespaces k res k' calls :
  updateKubeAccess handler it endpoint registry oldNamespaces newNamespaces k
    = (res, k', calls) →
  (∀ ns r, CallDelete ns r ∈ calls → ns ∈ oldNamespaces ∧ ns ∉ newNamespaces)
  ∧ (∀ ns r, CallCreate ns r ∈ calls → ns ∈ newNamespaces ∧ ns ∉ oldNamespaces)
  ∧ NoDup (call_namespace <$> calls).
Proof.
  intros Hrun.
  apply updateKubeAccess_calls in Hrun
    as [(err & _ & _ & _ & ->)
       | (cli & dres & k1 & dcalls & cres & ccalls & _ & Hdel & Hcases)].
  { split_and!; [by intros ? ? ?%elem_of_nil.. | constructor]. }
  pose proof (deleteLoop_calls _ _ _ _ _ _ _ Hdel) as Hdels.
  rewrite Forall_forall in Hdels.
  destruct (deleteLoop_namespaces _ _ _ _ _ _ _ Hdel) as [Hdpre _].
  assert (Hdin : ∀ c, c ∈ dcalls →
            ∃ ns r, c = CallDelete ns r ∧ ns ∈ oldNamespaces ∧ ns ∉ newNamespaces).
  { intros c Hc. destruct (Hdels _ Hc) as (ns & r & -> & Hin).
    exists ns, r. split; [done|]. apply range_keys_elem_of, elem_of_dom in Hin.
    by apply delta_keys in Hin. }
  assert (Hdnd : NoDup (call_namespace <$> dcalls)).
  { eapply NoDup_prefix; [done | apply range_keys_NoDup]. }
  destruct Hcases as [(err & _ & _ & _ & ->) | (_ & Hcre & _ & ->)].
  - split_and!; [| |done].
    + intros ns r Hc. destruct (Hdin _ Hc) as (? & ? & [= <- <-] & ?). done.
    + intros ns r Hc. destruct (Hdin _ Hc) as (? & ? & [=] & _).
  - pose proof (createLoop_calls _ _ _ _ _ _ _ Hcre) as Hcres.
    rewrite Forall_forall in Hcres.
    destruct (createLoop_namespaces _ _ _ _ _ _ _ Hcre) as [Hcpre _].
    assert (Hcin : ∀ c, c ∈ ccalls →
              ∃ ns r, c = CallCreate ns r ∧ ns ∈ newNamespaces ∧ ns ∉ oldNamespaces).
    { intros c Hc. destruct (Hcres _ Hc) as (ns & r & -> & Hin).
      exists ns, r. split; [done|]. apply range_keys_elem_of, elem_of_dom in Hin.
      by apply delta_keys in Hin. }
    split_and!.
    + intros ns r [Hc|Hc]%elem_of_app.
      * destruct (Hdin _ Hc) as (? & ? & [= <- <-] & ?). done.
      * destruct (Hcin _ Hc) as (? & ? & [=] & _).
    + intros ns r [Hc|Hc]%elem_of_app.
      * destruct (Hdin _ Hc) as (? & ? & [=] & _).
      * destruct (Hcin _ Hc) as (? & ? & [= <- <-] & ?). done.
    + rewrite fmap_app. apply NoDup_app. split_and!; [done| |].
      * intros ns (c1 & -> & Hc1)%list_elem_of_fmap (c2 & Heq & Hc2)%list_elem_of_fmap.
        destruct (Hdin _ Hc1) as (? & ? & -> & _ & Hnew).
        destruct (Hcin _ Hc2) as (? & ? & -> & Hnew' & _).
        simpl in Heq. by subst.
      * eapply NoDup_prefix; [done | apply range_keys_NoDup].
Qed.

(** The calls of a synchronization that succeeds. *)
Lemma updateKubeAccess_success_calls
    (handler : Handler Endpoint Registry Cluster) it
    endpoint registry oldNamespaces newNamespaces k k' calls :
  updateKubeAccess handler it endpoint registry oldNamespaces newNamespaces k
    = (None, k', calls) →
  ∃ removed added,
    calls = ((λ ns, CallDelete ns None) <$> removed)
            ++ ((λ ns, CallCreate ns None) <$> added)
    ∧ removed ≡ₚ elements
        (list_to_set oldNamespaces ∖ list_to_set newNamespaces : gset string)
    ∧ added ≡ₚ elements
        (list_to_set newNamespaces ∖ list_to_set oldNamespaces : gset string).
Proof.
  intros Hrun.
  apply updateKubeAccess_calls in Hrun
    as [(err & _ & [=] & _)
       | (cli & dres & k1 & dcalls & cres & ccalls & _ & Hdel & Hcases)].
  destruct Hcases as [(err & -> & [=] & _) | (-> & Hcre & <- & ->)].
  destruct (deleteLoop_namespaces _ _ _ _ _ _ _ Hdel) as [_ Hd].
  destruct (createLoop_namespaces _ _ _ _ _ _ _ Hcre) as [_ Hc].
  rewrite (Hd eq_refl), (Hc eq_refl).
  eexists _, _. split; [done|].
  rewrite !range_keys_dom_perm. unfold namespaceDelta; simpl.
  by rewrite !dom_setDifference_toSet.
Qed.

(** X4.  A synchronization that succeeds has deleted the secret of every
    namespace of [old − new] exactly once, then created the secret of every
    namespace of [new − old] exactly once, and has made no other call. *)
Theorem synchronizer_success_calls
    (handler : Handler Endpoint Registry Cluster) it
    endpoint registry oldNamespaces newNamespaces k k' calls :
  updateKubeAccess handler it endpoint registry oldNamespaces newNamespaces k
    = (None, k', calls) →
  ∃ removed added,
    calls = ((λ ns, CallDelete ns None) <$> removed)
            ++ ((λ ns, CallCreate ns None) <$> added)
    ∧ removed ≡ₚ elements
        (list_to_set oldNamespaces ∖ list_to_set newNamespaces : gset string)
    ∧ added ≡ₚ elements
        (list_to_set newNamespaces ∖ list_to_set oldNamespaces : gset string).
Proof. apply updateKubeAccess_success_calls. Qed.

(** X5.  When the old and the new list hold the same namespaces and the
    cluster client can be obtained, the synchronization makes no call at all
    and succeeds, leaving the cluster as it is. *)
Theorem synchronizer_converged_no_calls
    (handler : Handler Endpoint Registry Cluster) it
    endpoint registry oldNamespaces newNamespaces k cli :
  K8sClientFactory_GetKubeClient handler endpoint = inr cli →
  (∀ ns, ns ∈ oldNamespaces ↔ ns ∈ newNamespaces) →
  updateKubeAccess handler it endpoint registry oldNamespaces newNamespaces k
  = (None, k, []).
Proof.
  intros Hcli Hsame.
  assert (Hempty : ∀ site (m : stringSet), dom m = ∅ → range_keys it site m = []).
  { intros site m Hm. apply Permutation_nil_r.
    by rewrite range_keys_dom_perm, Hm, elements_empty. }
  assert (H1 : dom (namespaceDelta it oldNamespaces newNamespaces).1 = ∅).
  { apply set_eq. intros ns. rewrite (proj1 (delta_keys it _ _ ns)).
    rewrite elem_of_empty. split; [|done]. intros [Hn Ho]. by apply Hsame in Hn. }
  assert (H2 : dom (namespaceDelta it oldNamespaces newNamespaces).2 = ∅).
  { apply set_eq. intros ns. rewrite (proj2 (delta_keys it _ _ ns)).
    rewrite elem_of_empty. split; [|done]. intros [Ho Hn]. by apply Hsame in Ho. }
  unfold updateKubeAccess.
  destruct (namespaceDelta it oldNamespaces newNamespaces) as [toAdd toRemove].
  simpl in H1, H2. rewrite Hcli, (Hempty 2%nat _ H2), (Hempty 3%nat _ H1). done.
Qed.

(** X23.  A create call is issued only when the removals are complete: if
    the calls of a synchronization contain a create, they contain a
    successful delete for every namespace of the old list that is not in the
    new one. *)
Theorem additions_follow_all_removals
    (handler : Handler Endpoint Registry Cluster) it
    endpoint registry oldNamespaces newNamespaces k res k' calls ns r :
  updateKubeAccess handler it endpoint registry oldNamespaces newNamespaces k
    = (res, k', calls) →
  CallCreate ns r ∈ calls →
  ∀ removed, removed ∈ oldNamespaces → removed ∉ newNamespaces →
    CallDelete removed None ∈ calls.
Proof.
  intros Hrun Hcreate removed Hold Hnew.
  apply updateKubeAccess_calls in Hrun
    as [(err & _ & _ & _ & ->)
       | (cli & dres & k1 & dcalls & cres & ccalls & _ & Hdel & Hcases)].
  { by apply elem_of_nil in Hcreate. }
  pose proof (deleteLoop_calls _ _ _ _ _ _ _ Hdel) as Hdels.
  rewrite Forall_forall in Hdels.
  destruct Hcases as [(err & _ & _ & _ & ->) | (-> & _ & _ & ->)].
  { destruct (Hdels _ Hcreate) as (? & ? & [=] & _). }
  destruct (deleteLoop_namespaces _ _ _ _ _ _ _ Hdel) as [_ Hall].
  rewrite (Hall eq_refl). apply elem_of_app. left.
  apply list_elem_of_fmap. exists removed. split; [done|].
  apply range_keys_elem_of, elem_of_dom, delta_keys. done.
Qed.

End SynchronizerMore.

(** ** Updating the registry access of an environment *)

Section RegistryAccessProperties.
Import portainer_registry endpoints endpoint_registry_access.
Context {sh : AccessShapes} {Cluster : Type}.
Implicit Types (services : Services sh Cluster) (tx : DataStoreTx).
Implicit Types (r : Request sh) (w : World sh Cluster).

(** What a successful run went through, and the world it leaves. *)
Lemma updateRegistryAccess_success services it tx r endpointID registryID w w' :
  updateRegistryAccess services it tx r endpointID registryID w = (None, w') →
  ∃ endpoint securityContext registry payload access' k' issued,
    stored_endpoints (store w) !! endpointID = Some endpoint
    ∧ restricted_context r = inr securityContext
    ∧ IsAdmin securityContext = true
    ∧ requestBouncer_AuthorizedEndpointOperation services r endpoint = None
    ∧ stored_registries (store w) !! registryID = Some registry
    ∧ json_body r = inr payload
    ∧ (if isKubernetes services endpoint
       then updateKubeAccess (kube services) it endpoint
              (registryAccessOf endpoint registry).1
              (slice (RegistryAccessPolicies.Namespaces
                        (registryAccessOf endpoint registry).2))
              (slice (registryAccessPayload.Namespaces payload)) (cluster w)
            = (None, k', issued)
            ∧ access' = RegistryAccessPolicies.set_Namespaces
                          (registryAccessPayload.Namespaces payload)
                          (registryAccessOf endpoint registry).2
       else k' = cluster w ∧ issued = []
            ∧ access' = RegistryAccessPolicies.set_TeamAccessPolicies
                          (registryAccessPayload.TeamAccessPolicies payload)
                          (RegistryAccessPolicies.set_UserAccessPolicies
                             (registryAccessPayload.UserAccessPolicies payload)
                             (registryAccessOf endpoint registry).2))
    ∧ cluster w' = k'
    ∧ calls w' = calls w ++ issued
    ∧ stored_endpoints (store w') = stored_endpoints (store w)
    ∧ stored_registries (store w')
      = <[Registry.ID registry :=
            Registry.set_RegistryAccesses
              (Some (<[endpointID := access']>
                       (default ∅ (Registry.RegistryAccesses
                                     (registryAccessOf endpoint registry).1))))
              (registryAccessOf endpoint registry).1]>
          (stored_registries (store w)).
Proof.
  unfold updateRegistryAccess, tx_Endpoint, tx_Registry_Read,
    DecodeAndValidateJSONPayload, registryAccessPayload.Validate.
  destruct (Endpoint_fault tx); [done|].
  destruct (stored_endpoints (store w) !! endpointID) as [endpoint|] eqn:He; [|done].
  destruct (restricted_context r) as [?|securityContext] eqn:Hc; [done|].
  destruct (requestBouncer_AuthorizedEndpointOperation services r endpoint) eqn:Ha;
    [done|].
  destruct (IsAdmin securityContext) eqn:Hadmin; simpl; [|done].
  destruct (Registry_Read_fault tx); [done|].
  destruct (stored_registries (store w) !! registryID) as [registry|] eqn:Hr; [|done].
  destruct (json_body r) as [?|payload] eqn:Hp; [done|].
  destruct (registryAccessOf endpoint registry) as [registry1 access] eqn:Hacc.
  unfold tx_Registry_Update. simpl.
  destruct (isKubernetes services endpoint) eqn:Hk.
  - destruct (updateKubeAccess _ _ _ _ _ _ _) as [[res k'] issued] eqn:Hsync.
    destruct res; [done|]. simpl.
    destruct (Registry_Update_fault tx); [done|]. intros [= <-].
    eexists endpoint, securityContext, registry, payload, _, k', issued.
    rewrite Hk. split_and!; done.
  - destruct (Registry_Update_fault tx); [done|]. intros [= <-].
    eexists endpoint, securityContext, registry, payload, _, (cluster w), [].
    rewrite Hk, app_nil_r. split_and!; done.
Qed.

(** X6.  [updateRegistryAccess] succeeds only for an administrator whom the
    request bouncer lets operate on the environment, and only if the
    environment and the registry exist and the body could be decoded. *)
Theorem registry_access_requires_admin services it tx r endpointID registryID w w' :
  updateRegistryAccess services it tx r endpointID registryID w = (None, w') →
  ∃ endpoint securityContext,
    stored_endpoints (store w) !! endpointID = Some endpoint
    ∧ restricted_context r = inr securityContext
    ∧ IsAdmin securityContext = true
    ∧ requestBouncer_AuthorizedEndpointOperation services r endpoint = None
    ∧ is_Some (stored_registries (store w) !! registryID)
    ∧ (∃ payload, json_body r = inr payload).
Proof.
  intros Hrun. apply updateRegistryAccess_success in Hrun
    as (endpoint & securityContext & registry & payload & ? & ? & ?
        & ? & ? & ? & ? & Hr & ? & _).
  exists endpoint, securityContext. split_and!; try done. by exists payload.
Qed.

(** A run that returns an error does not write to the datastore. *)
Lemma registry_access_store_unchanged services it tx r endpointID registryID
    w err w' :
  updateRegistryAccess services it tx r endpointID registryID w = (Some err, w') →
  store w' = store w.
Proof.
  unfold updateRegistryAccess, tx_Endpoint, tx_Registry_Read, tx_Registry_Update.
  destruct (Endpoint_fault tx); [by intros [= _ <-]|].
  destruct (stored_endpoints (store w) !! endpointID) as [endpoint|];
    [|by intros [= _ <-]].
  destruct (restricted_context r) as [?|securityContext]; [by intros [= _ <-]|].
  destruct (requestBouncer_AuthorizedEndpointOperation services r endpoint);
    [by intros [= _ <-]|].
  destruct (negb (IsAdmin securityContext)); [by intros [= _ <-]|].
  destruct (Registry_Read_fault tx); [by intros [= _ <-]|].
  destruct (stored_registries (store w) !! registryID) as [registry|];
    [|by intros [= _ <-]].
  destruct (DecodeAndValidateJSONPayload r) as [?|payload]; [by intros [= _ <-]|].
  destruct (registryAccessOf endpoint registry) as [registry1 access].
  destruct (isKubernetes services endpoint).
  - destruct (updateKubeAccess _ _ _ _ _ _ _) as [[res k'] issued].
    destruct res; [by intros [= _ <-]|].
    destruct (Registry_Update_fault tx); [by intros [= _ <-] | done].
  - destruct (Registry_Update_fault tx); [by intros [= _ <-] | done].
Qed.

(** X7.  Whenever [updateRegistryAccess] returns an error, the datastore is
    as it was before: nothing is persisted, also when the cluster has
    already been changed. *)
Theorem registry_access_error_keeps_store services it tx r endpointID registryID
    w err w' :
  updateRegistryAccess services it tx r endpointID registryID w = (Some err, w') →
  store w' = store w.
Proof. apply registry_access_store_unchanged. Qed.

(** X8.  For a requester who is not an administrator, no call reaches the
    cluster and nothing is persisted, whatever the environment, the registry
    and the body. *)
Theorem registry_access_non_admin_no_effect services it tx r endpointID registryID
    w res w' securityContext :
  restricted_context r = inr securityContext →
  IsAdmin securityContext = false →
  updateRegistryAccess services it tx r endpointID registryID w = (res, w') →
  is_Some res ∧ w' = w.
Proof.
  intros Hc Hadmin. unfold updateRegistryAccess, tx_Endpoint. rewrite Hc, Hadmin.
  destruct (Endpoint_fault tx); [by intros [= <- <-]|].
  destruct (stored_endpoints (store w) !! endpointID) as [endpoint|];
    [|by intros [= <- <-]].
  destruct (requestBouncer_AuthorizedEndpointOperation services r endpoint);
    by intros [= <- <-].
Qed.

(** The access policies a registry holds for an environment; the zero value
    when it holds none. *)
Local Abbreviation accessOf registry id :=
  (default RegistryAccessPolicies.zero
     (default ∅ (Registry.RegistryAccesses registry) !! id)).

Lemma registryAccessOf_spec (endpoint : Endpoint.t sh) (registry : Registry.t sh) :
  (registryAccessOf endpoint registry).2 = accessOf registry (Endpoint.ID endpoint)
  ∧ Registry.ID (registryAccessOf endpoint registry).1 = Registry.ID registry
  ∧ Registry.rest (registryAccessOf endpoint registry).1 = Registry.rest registry
  ∧ ∀ id, default ∅ (Registry.RegistryAccesses (registryAccessOf endpoint registry).1)
            !! id
          = if decide (id = Endpoint.ID endpoint)
            then Some (accessOf registry id)
            else default ∅ (Registry.RegistryAccesses registry) !! id.
Proof.
  unfold registryAccessOf; simpl.
  destruct (default ∅ (Registry.RegistryAccesses registry) !! Endpoint.ID endpoint)
    as [access|] eqn:Hacc; simpl.
  - rewrite Hacc. split_and!; try done. intros id.
    destruct (decide (id = Endpoint.ID endpoint)) as [->|]; [by rewrite Hacc | done].
  - rewrite lookup_insert_eq. split_and!; try done. intros id.
    destruct (decide (id = Endpoint.ID endpoint)) as [->|].
    + by rewrite lookup_insert_eq, Hacc.
    + by rewrite lookup_insert_ne.
Qed.

(** X9.  For a Kubernetes environment, a successful update persists the
    registry under its identifier with the payload's namespaces as the
    namespaces of the environment, and with the user and team policies the
    environment had; on the way it has deleted the secret of every namespace
    that was stored and is not in the payload, then created the secret of
    every namespace of the payload that was not stored, each exactly once. *)
Theorem registry_access_kubernetes_success services it tx r endpointID registryID
    w w' endpoint :
  stored_endpoints (store w) !! endpointID = Some endpoint →
  isKubernetes services endpoint = true →
  updateRegistryAccess services it tx r endpointID registryID w = (None, w') →
  ∃ registry registry' payload removed added,
    stored_registries (store w) !! registryID = Some registry
    ∧ json_body r = inr payload
    ∧ stored_registries (store w') !! Registry.ID registry = Some registry'
    ∧ Registry.ID registry' = Registry.ID registry
    ∧ Registry.rest registry' = Registry.rest registry
    ∧ accessOf registry' endpointID
      = RegistryAccessPolicies.mk sh
          (RegistryAccessPolicies.UserAccessPolicies
             (accessOf registry (Endpoint.ID endpoint)))
          (RegistryAccessPolicies.TeamAccessPolicies
             (accessOf registry (Endpoint.ID endpoint)))
          (registryAccessPayload.Namespaces payload)
    ∧ calls w' = calls w ++ ((λ ns, CallDelete ns None) <$> removed)
                         ++ ((λ ns, CallCreate ns None) <$> added)
    ∧ removed ≡ₚ elements
        (list_to_set (slice (RegistryAccessPolicies.Namespaces
                               (accessOf registry (Endpoint.ID endpoint))))
         ∖ list_to_set (slice (registryAccessPayload.Namespaces payload))
         : gset string)
    ∧ added ≡ₚ elements
        (list_to_set (slice (registryAccessPayload.Namespaces payload))
         ∖ list_to_set (slice (RegistryAccessPolicies.Namespaces
                                 (accessOf registry (Endpoint.ID endpoint))))
         : gset string).
Proof.
  intros He Hk Hrun. apply updateRegistryAccess_success in Hrun
    as (endpoint' & securityContext & registry & payload & access' & k' & issued
        & He' & _ & _ & _ & Hr & Hp & Hbranch & _ & Hcalls & _ & Hregs).
  rewrite He in He'. injection He' as <-. rewrite Hk in Hbranch.
  destruct Hbranch as [Hsync ->].
  destruct (registryAccessOf_spec endpoint registry) as (Hacc & Hid & Hrest & _).
  rewrite Hacc in Hsync.
  apply updateKubeAccess_success_calls in Hsync as (removed & added & -> & Hrem & Hadd).
  eexists registry, _, payload, removed, added.
  split; [done|]. split; [done|].
  split; [rewrite Hregs; apply lookup_insert_eq|].
  remember (registryAccessOf endpoint registry) as ra eqn:Hra.
  simpl. split_and!; try done. by rewrite lookup_insert_eq, Hacc.
Qed.

(** X10.  For an environment that is not a Kubernetes one, no call is made to
    the cluster client, whatever the outcome; a successful update persists the
    registry with the payload's user and team policies for the environment
    and with the namespaces the environment had. *)
Theorem registry_access_policies_success services it tx r endpointID registryID
    w res w' endpoint :
  stored_endpoints (store w) !! endpointID = Some endpoint →
  isKubernetes services endpoint = false →
  updateRegistryAccess services it tx r endpointID registryID w = (res, w') →
  cluster w' = cluster w
  ∧ calls w' = calls w
  ∧ (res = None →
     ∃ registry registry' payload,
       stored_registries (store w) !! registryID = Some registry
       ∧ json_body r = inr payload
       ∧ stored_registries (store w') !! Registry.ID registry = Some registry'
       ∧ Registry.ID registry' = Registry.ID registry
       ∧ Registry.rest registry' = Registry.rest registry
       ∧ accessOf registry' endpointID
         = RegistryAccessPolicies.mk sh
             (registryAccessPayload.UserAccessPolicies payload)
             (registryAccessPayload.TeamAccessPolicies payload)
             (RegistryAccessPolicies.Namespaces
                (accessOf registry (Endpoint.ID endpoint)))).
Proof.
  intros He Hk Hrun. destruct res as [err|].
  - split_and!; [| |done]; revert Hrun;
      unfold updateRegistryAccess, tx_Endpoint, tx_Registry_Read, tx_Registry_Update;
      rewrite He;
      (destruct (Endpoint_fault tx); [by intros [= _ <-]|]);
      (destruct (restricted_context r); [by intros [= _ <-]|]);
      (destruct (requestBouncer_AuthorizedEndpointOperation services r endpoint);
         [by intros [= _ <-]|]);
      (destruct (negb _); [by intros [= _ <-]|]);
      (destruct (Registry_Read_fault tx); [by intros [= _ <-]|]);
      (destruct (stored_registries (store w) !! registryID); [|by intros [= _ <-]]);
      (destruct (DecodeAndValidateJSONPayload r); [by intros [= _ <-]|]);
      (destruct (registryAccessOf endpoint _));
      rewrite Hk;
      (destruct (Registry_Update_fault tx); [by intros [= _ <-] | done]).
  - apply updateRegistryAccess_success in Hrun
      as (endpoint' & securityContext & registry & payload & access' & k' & issued
          & He' & _ & _ & _ & Hr & Hp & Hbranch & Hcl & Hcalls & _ & Hregs).
    rewrite He in He'. injection He' as <-. rewrite Hk in Hbranch.
    destruct Hbranch as (-> & -> & ->). rewrite app_nil_r in Hcalls.
    split_and!; try done. intros _.
    destruct (registryAccessOf_spec endpoint registry) as (Hacc & Hid & Hrest & _).
    eexists registry, _, payload.
    split; [done|]. split; [done|].
    split; [rewrite Hregs; apply lookup_insert_eq|].
    remember (registryAccessOf endpoint registry) as ra eqn:Hra.
    simpl. split_and!; try done. by rewrite lookup_insert_eq, Hacc.
Qed.

(** X11.  A successful update changes one registry only, the one it read,
    and in it only the entries of the environment: the environments, the other
    registries, and the policies the registry holds for other environments
    are as before. *)
Theorem registry_access_frame services it tx r endpointID registryID w w' :
  updateRegistryAccess services it tx r endpointID registryID w = (None, w') →
  ∃ endpoint registry registry',
    stored_endpoints (store w) !! endpointID = Some endpoint
    ∧ stored_registries (store w) !! registryID = Some registry
    ∧ stored_registries (store w') !! Registry.ID registry = Some registry'
    ∧ stored_endpoints (store w') = stored_endpoints (store w)
    ∧ (∀ id, id ≠ Registry.ID registry →
         stored_registries (store w') !! id = stored_registries (store w) !! id)
    ∧ (∀ id, id ≠ endpointID → id ≠ Endpoint.ID endpoint →
         default ∅ (Registry.RegistryAccesses registry') !! id
         = default ∅ (Registry.RegistryAccesses registry) !! id).
Proof.
  intros Hrun. apply updateRegistryAccess_success in Hrun
    as (endpoint & securityContext & registry & payload & access' & k' & issued
        & He & _ & _ & _ & Hr & _ & _ & _ & _ & Hends & Hregs).
  destruct (registryAccessOf_spec endpoint registry) as (_ & _ & _ & Hmap).
  eexists endpoint, registry, _.
  split; [done|]. split; [done|].
  split; [rewrite Hregs; apply lookup_insert_eq|].
  split_and!; try done.
  - intros id Hid. rewrite Hregs. by rewrite lookup_insert_ne.
  - intros id Hid1 Hid2. remember (registryAccessOf endpoint registry) as ra eqn:Hra.
    simpl. rewrite lookup_insert_ne by done.
    rewrite Hmap. by rewrite decide_False.
Qed.

End RegistryAccessProperties.

(** ** The settings merge, field by field *)

Section SettingsMore.
Import portainer settings settingsUpdatePayload.
Context {sh : FieldShapes}.
Implicit Types (handler : Handler) (tx : DataStoreTx) (payload : settingsUpdatePayload.t sh).
Implicit Types (w : World sh) (settings : Settings.t sh) (res : error + Settings.t sh).

(** The settings after each effectful step of a merge that gets past it. *)
Local Abbreviation afterHelm handler payload settings :=
  (assignIfPresent (HelmRepositoryURL payload)
     (λ url, Settings.set_HelmRepositoryURL
               (if nonEmpty url
                then strings.TrimSuffix (strings_ToLower handler url) "/"
                else ""))
     settings).

Local Abbreviation afterSnapshot payload settings :=
  (assignIfPresent (SnapshotInterval payload)
     (λ interval s,
        if differs interval (Settings.SnapshotInterval s)
        then Settings.set_SnapshotInterval interval s else s)
     settings).

Local Abbreviation afterSessionTimeout payload settings :=
  (assignIfPresent (UserSessionTimeout payload) Settings.set_UserSessionTimeout
     settings).

(** The test of [updateTLS]: LDAP uses TLS and verifies the server. *)
Local Abbreviation verifiesTLS settings :=
  ((TLSConfiguration.TLS (LDAPSettings.TLSConfig (Settings.LDAPSettings settings))
    || LDAPSettings.StartTLS (Settings.LDAPSettings settings))
   && negb (TLSConfiguration.TLSSkipVerify
              (LDAPSettings.TLSConfig (Settings.LDAPSettings settings)))).

Local Abbreviation afterTLS handler settings :=
  (Settings.set_LDAPSettings
     (LDAPSettings.set_TLSConfig
        (TLSConfiguration.set_TLSCACertPath
           (if verifiesTLS settings
            then FileService_GetPathForTLSFile handler else "")
           (LDAPSettings.TLSConfig (Settings.LDAPSettings settings)))
        (Settings.LDAPSettings settings))
     settings).

Local Abbreviation beforeHelm payload settings :=
  (assignIfPresent (ShowKomposeBuildOption payload) Settings.set_ShowKomposeBuildOption
     (assignIfPresent (TemplatesURL payload) Settings.set_TemplatesURL
        (assignIfPresent (LogoURL payload) Settings.set_LogoURL
           (assignIfPresent (AuthenticationMethod payload)
              Settings.set_AuthenticationMethod settings)))).

Local Abbreviation beforeSnapshot payload settings :=
  (assignIfPresent (EdgePortainerURL payload) Settings.set_EdgePortainerURL
     (assignIfPresent (EnforceEdgeID payload) Settings.set_EnforceEdgeID
        (assignIfPresent (TrustOnFirstConnect payload) Settings.set_TrustOnFirstConnect
           (assignIfPresent (EnableEdgeComputeFeatures payload)
              Settings.set_EnableEdgeComputeFeatures
              (mergeOAuthSettings payload
                 (mergeLDAPSettings payload
                    (mergeInternalAuthSettings payload
                       (assignIfPresent (BlackListedLabels payload)
                          (λ v, Settings.set_BlackListedLabels (Some v))
                          settings)))))))).

Local Abbreviation beforeSessionTimeout payload settings :=
  (assignIfPresent (KubeconfigExpiry payload) Settings.set_KubeconfigExpiry
     (assignIfPresent (EdgeAgentCheckinInterval payload)
        Settings.set_EdgeAgentCheckinInterval settings)).

Local Abbreviation beforeTLS payload settings :=
  (assignIfPresent (EnableTelemetry payload) Settings.set_EnableTelemetry settings).

Local Abbreviation beforePersist payload settings :=
  (assignIfPresent (KubectlShellImage payload) Settings.set_KubectlShellImage settings).

Lemma mergeHelmRepositoryURL_ok handler payload settings w settings' w' :
  mergeHelmRepositoryURL handler payload settings w = (inr settings', w') →
  settings' = afterHelm handler payload settings.
Proof.
  unfold mergeHelmRepositoryURL, assignIfPresent, mbind, M_bind, emit, check.
  destruct (HelmRepositoryURL payload) as [url|]; simpl; [|by intros [= <- _]].
  destruct (nonEmpty url); [|by intros [= <- _]].
  destruct (_ && _); simpl; [|by intros [= <- _]].
  destruct (libhelm_ValidateHelmRepositoryURL handler url); simpl;
    [done | by intros [= <- _]].
Qed.

Lemma mergeSnapshotInterval_ok handler payload settings w settings' w' :
  mergeSnapshotInterval handler payload settings w = (inr settings', w') →
  settings' = afterSnapshot payload settings.
Proof.
  unfold mergeSnapshotInterval, assignIfPresent, mapErr, updateSnapshotInterval,
    mbind, M_bind, emit, check.
  destruct (SnapshotInterval payload) as [interval|]; simpl; [|by intros [= <- _]].
  destruct (differs _ _); [|by intros [= <- _]].
  destruct (SnapshotService_SetSnapshotInterval handler interval); simpl;
    [done | by intros [= <- _]].
Qed.

Lemma mergeUserSessionTimeout_ok handler payload settings w settings' w' :
  mergeUserSessionTimeout handler payload settings w = (inr settings', w') →
  settings' = afterSessionTimeout payload settings.
Proof.
  unfold mergeUserSessionTimeout, assignIfPresent, mbind, M_bind, emit.
  destruct (UserSessionTimeout payload); simpl; by intros [= <- _].
Qed.

Lemma updateTLS_ok handler settings w settings' w' :
  updateTLS handler settings w = (inr settings', w') →
  settings' = afterTLS handler settings.
Proof.
  unfold updateTLS, mbind, M_bind, emit, check.
  destruct (_ && _); simpl; [by intros [= <- _]|].
  destruct (FileService_DeleteTLSFiles handler); simpl; [done | by intros [= <- _]].
Qed.

(** The settings a successful merge persists and returns, as the stored
    settings with every assignment of [updateSettings] applied in order. *)
Lemma updateSettings_success_shape handler tx payload w settings' w' :
  updateSettings handler tx payload w = (inr settings', w') →
  persisted w' = settings'
  ∧ settings'
    = beforePersist (suppressForDemo handler payload)
        (afterTLS handler
           (beforeTLS (suppressForDemo handler payload)
              (afterSessionTimeout (suppressForDemo handler payload)
                 (beforeSessionTimeout (suppressForDemo handler payload)
                    (afterSnapshot (suppressForDemo handler payload)
                       (beforeSnapshot (suppressForDemo handler payload)
                          (afterHelm handler (suppressForDemo handler payload)
                             (beforeHelm (suppressForDemo handler payload)
                                (persisted w))))))))).
Proof.
  intros Hrun. apply updateSettings_unfold in Hrun.
  destruct Hrun as [(? & _ & _ & [=]) | (_ & r1 & w1 & H1 & Hrun)].
  destruct r1 as [?|s1]; [by destruct Hrun|].
  destruct Hrun as (r2 & w2 & H2 & Hrun).
  destruct r2 as [?|s2]; [by destruct Hrun|].
  destruct Hrun as (r3 & w3 & H3 & Hrun).
  destruct r3 as [?|s3]; [by destruct Hrun|].
  destruct Hrun as (r4 & w4 & H4 & Hrun).
  destruct r4 as [?|s4]; [by destruct Hrun|].
  destruct (UpdateSettings_fault tx); [by destruct Hrun|].
  destruct Hrun as ([= ->] & Hp & _). split; [done|].
  apply mergeHelmRepositoryURL_ok in H1 as ->.
  apply mergeSnapshotInterval_ok in H2 as ->.
  apply mergeUserSessionTimeout_ok in H3 as ->.
  apply updateTLS_ok in H4 as ->. done.
Qed.

(** Reading a field through the assignments that do not concern it. *)
Ltac peel_assignments :=
  repeat match goal with
  | |- context [?P (assignIfPresent ?o ?f ?s)] =>
      first
        [ replace (P (assignIfPresent o f s)) with (P s)
            by (destruct o; simpl; try reflexivity; repeat case_match; reflexivity)
        | replace (P (assignIfPresent o f s)) with (default (P s) o)
            by (destruct o; reflexivity) ]
  | |- context [?P (mergeOAuthSettings ?p ?s)] =>
      replace (P (mergeOAuthSettings p s)) with (P s)
        by (unfold mergeOAuthSettings; destruct (OAuthSettings p); reflexivity)
  | |- context [?P (mergeLDAPSettings ?p ?s)] =>
      replace (P (mergeLDAPSettings p s)) with (P s)
        by (unfold mergeLDAPSettings; destruct (LDAPSettings p); reflexivity)
  | |- context [?P (mergeInternalAuthSettings ?p ?s)] =>
      replace (P (mergeInternalAuthSettings p s)) with (P s)
        by (unfold mergeInternalAuthSettings;
            destruct (InternalAuthSettings p); reflexivity)
  | |- context [?P (Settings.set_LDAPSettings ?x ?s)] =>
      progress change (P (Settings.set_LDAPSettings x s)) with (P s)
  end.

Lemma afterSnapshot_interval payload settings :
  Settings.SnapshotInterval (afterSnapshot payload settings)
  = default (Settings.SnapshotInterval settings) (SnapshotInterval payload).
Proof.
  unfold assignIfPresent. destruct (SnapshotInterval payload) as [interval|]; [|done].
  simpl. destruct (differs _ _) eqn:Hd; [done|]. by apply differs_false in Hd.
Qed.

(** The simply copied fields after a successful merge. *)
Lemma updateSettings_success_fields handler tx payload w settings' w' :
  updateSettings handler tx payload w = (inr settings', w') →
  Settings.AuthenticationMethod settings'
    = default (Settings.AuthenticationMethod (persisted w))
        (AuthenticationMethod payload)
  ∧ Settings.TemplatesURL settings'
    = default (Settings.TemplatesURL (persisted w)) (TemplatesURL payload)
  ∧ Settings.ShowKomposeBuildOption settings'
    = default (Settings.ShowKomposeBuildOption (persisted w))
        (ShowKomposeBuildOption payload)
  ∧ Settings.BlackListedLabels settings'
    = match BlackListedLabels payload with
      | Some labels => Some labels
      | None => Settings.BlackListedLabels (persisted w)
      end
  ∧ Settings.EnableEdgeComputeFeatures settings'
    = default (Settings.EnableEdgeComputeFeatures (persisted w))
        (EnableEdgeComputeFeatures payload)
  ∧ Settings.TrustOnFirstConnect settings'
    = default (Settings.TrustOnFirstConnect (persisted w))
        (TrustOnFirstConnect payload)
  ∧ Settings.EnforceEdgeID settings'
    = default (Settings.EnforceEdgeID (persisted w)) (EnforceEdgeID payload)
  ∧ Settings.EdgePortainerURL settings'
    = default (Settings.EdgePortainerURL (persisted w)) (EdgePortainerURL payload)
  ∧ Settings.EdgeAgentCheckinInterval settings'
    = default (Settings.EdgeAgentCheckinInterval (persisted w))
        (EdgeAgentCheckinInterval payload)
  ∧ Settings.KubeconfigExpiry settings'
    = default (Settings.KubeconfigExpiry (persisted w)) (KubeconfigExpiry payload)
  ∧ Settings.KubectlShellImage settings'
    = default (Settings.KubectlShellImage (persisted w)) (KubectlShellImage payload)
  ∧ Settings.UserSessionTimeout settings'
    = default (Settings.UserSessionTimeout (persisted w))
        (UserSessionTimeout payload)
  ∧ Settings.SnapshotInterval settings'
    = default (Settings.SnapshotInterval (persisted w)) (SnapshotInterval payload)
  ∧ Settings.rest settings' = Settings.rest (persisted w).
Proof.
  intros Hrun. apply updateSettings_success_shape in Hrun as [_ ->].
  set (s0 := persisted w). clearbody s0.
  assert (Hp : ∀ (A : Type) (F : settingsUpdatePayload.t sh → A),
            F (clear_LogoURL (clear_EnableTelemetry payload)) = F payload →
            F (suppressForDemo handler payload) = F payload).
  { intros A F HF. unfold suppressForDemo. by destruct (demoService_IsDemo handler). }
  set (p := suppressForDemo handler payload) in *.
  split_and!.
  - peel_assignments. by rewrite (Hp _ AuthenticationMethod).
  - peel_assignments. by rewrite (Hp _ TemplatesURL).
  - peel_assignments. by rewrite (Hp _ ShowKomposeBuildOption).
  - peel_assignments. rewrite (Hp _ BlackListedLabels) by done.
    unfold assignIfPresent at 1.
    destruct (BlackListedLabels payload) as [labels|]; [done|].
    by peel_assignments.
  - peel_assignments. by rewrite (Hp _ EnableEdgeComputeFeatures).
  - peel_assignments. by rewrite (Hp _ TrustOnFirstConnect).
  - peel_assignments. by rewrite (Hp _ EnforceEdgeID).
  - peel_assignments. by rewrite (Hp _ EdgePortainerURL).
  - peel_assignments. by rewrite (Hp _ EdgeAgentCheckinInterval).
  - peel_assignments. by rewrite (Hp _ KubeconfigExpiry).
  - peel_assignments. by rewrite (Hp _ KubectlShellImage).
  - peel_assignments. by rewrite (Hp _ UserSessionTimeout).
  - peel_assignments. rewrite afterSnapshot_interval. peel_assignments.
    by rewrite (Hp _ SnapshotInterval).
  - peel_assignments. done.
Qed.

(** X12.  Overwrite if present: after a successful [updateSettings], every
    field the handler simply copies has the payload's value when the payload
    carries one and the stored value otherwise, and the fields the handler
    does not know are the stored ones. *)
Theorem settings_overwrite_if_present handler tx payload w settings' w' :
  updateSettings handler tx payload w = (inr settings', w') →
  Settings.AuthenticationMethod settings'
    = default (Settings.AuthenticationMethod (persisted w))
        (AuthenticationMethod payload)
  ∧ Settings.TemplatesURL settings'
    = default (Settings.TemplatesURL (persisted w)) (TemplatesURL payload)
  ∧ Settings.ShowKomposeBuildOption settings'
    = default (Settings.ShowKomposeBuildOption (persisted w))
        (ShowKomposeBuildOption payload)
  ∧ Settings.BlackListedLabels settings'
    = match BlackListedLabels payload with
      | Some labels => Some labels
      | None => Settings.BlackListedLabels (persisted w)
      end
  ∧ Settings.EnableEdgeComputeFeatures settings'
    = default (Settings.EnableEdgeComputeFeatures (persisted w))
        (EnableEdgeComputeFeatures payload)
  ∧ Settings.TrustOnFirstConnect settings'
    = default (Settings.TrustOnFirstConnect (persisted w))
        (TrustOnFirstConnect payload)
  ∧ Settings.EnforceEdgeID settings'
    = default (Settings.EnforceEdgeID (persisted w)) (EnforceEdgeID payload)
  ∧ Settings.EdgePortainerURL settings'
    = default (Settings.EdgePortainerURL (persisted w)) (EdgePortainerURL payload)
  ∧ Settings.EdgeAgentCheckinInterval settings'
    = default (Settings.EdgeAgentCheckinInterval (persisted w))
        (EdgeAgentCheckinInterval payload)
  ∧ Settings.KubeconfigExpiry settings'
    = default (Settings.KubeconfigExpiry (persisted w)) (KubeconfigExpiry payload)
  ∧ Settings.KubectlShellImage settings'
    = default (Settings.KubectlShellImage (persisted w)) (KubectlShellImage payload)
  ∧ Settings.UserSessionTimeout settings'
    = default (Settings.UserSessionTimeout (persisted w))
        (UserSessionTimeout payload)
  ∧ Settings.SnapshotInterval settings'
    = default (Settings.SnapshotInterval (persisted w)) (SnapshotInterval payload)
  ∧ Settings.rest settings' = Settings.rest (persisted w).
Proof. apply updateSettings_success_fields. Qed.

(** The LDAP block after a successful merge: the block [mergeLDAPSettings]
    leaves, with the CA certificate path set by [updateTLS]. *)
Lemma updateSettings_success_LDAP handler tx payload w settings' w' :
  updateSettings handler tx payload w = (inr settings', w') →
  Settings.LDAPSettings settings'
  = LDAPSettings.set_TLSConfig
      (TLSConfiguration.set_TLSCACertPath
         (if verifiesTLS (mergeLDAPSettings payload (persisted w))
          then FileService_GetPathForTLSFile handler else "")
         (LDAPSettings.TLSConfig
            (Settings.LDAPSettings (mergeLDAPSettings payload (persisted w)))))
      (Settings.LDAPSettings (mergeLDAPSettings payload (persisted w))).
Proof.
  intros Hrun. apply updateSettings_success_shape in Hrun as [_ ->].
  set (s0 := persisted w). clearbody s0.
  assert (Hp : LDAPSettings (suppressForDemo handler payload) = LDAPSettings payload).
  { unfold suppressForDemo. by destruct (demoService_IsDemo handler). }
  set (p := suppressForDemo handler payload) in *.
  peel_assignments.
  cbn [Settings.LDAPSettings Settings.set_LDAPSettings].
  unfold mergeLDAPSettings. rewrite Hp.
  destruct (LDAPSettings payload) as [ldap|]; simpl; by peel_assignments.
Qed.

(** X13.  The LDAP block after a successful [updateSettings], field by
    field.  When the payload carries a block, the reader DN and the password
    are each the payload's unless that is empty (then the stored one is kept),
    and the TLS switches and the remaining fields are the payload's; without a
    block the stored one is kept.  In both cases the CA certificate path is
    set anew: the path of the TLS file store when LDAP uses TLS or StartTLS
    and verifies the server, the empty string otherwise, whatever the payload
    gave for it. *)
Theorem ldap_block_merge handler tx payload w settings' w' :
  updateSettings handler tx payload w = (inr settings', w') →
  let block := default (Settings.LDAPSettings (persisted w)) (LDAPSettings payload) in
  let merged := Settings.LDAPSettings settings' in
  LDAPSettings.ReaderDN merged
    = (if nonEmpty (LDAPSettings.ReaderDN block)
       then LDAPSettings.ReaderDN block
       else LDAPSettings.ReaderDN (Settings.LDAPSettings (persisted w)))
  ∧ LDAPSettings.Password merged
    = (if nonEmpty (LDAPSettings.Password block)
       then LDAPSettings.Password block
       else LDAPSettings.Password (Settings.LDAPSettings (persisted w)))
  ∧ LDAPSettings.StartTLS merged = LDAPSettings.StartTLS block
  ∧ LDAPSettings.rest merged = LDAPSettings.rest block
  ∧ TLSConfiguration.TLS (LDAPSettings.TLSConfig merged)
    = TLSConfiguration.TLS (LDAPSettings.TLSConfig block)
  ∧ TLSConfiguration.TLSSkipVerify (LDAPSettings.TLSConfig merged)
    = TLSConfiguration.TLSSkipVerify (LDAPSettings.TLSConfig block)
  ∧ TLSConfiguration.rest (LDAPSettings.TLSConfig merged)
    = TLSConfiguration.rest (LDAPSettings.TLSConfig block)
  ∧ TLSConfiguration.TLSCACertPath (LDAPSettings.TLSConfig merged)
    = (if (TLSConfiguration.TLS (LDAPSettings.TLSConfig block)
           || LDAPSettings.StartTLS block)
          && negb (TLSConfiguration.TLSSkipVerify (LDAPSettings.TLSConfig block))
       then FileService_GetPathForTLSFile handler else "").
Proof.
  intros Hrun block merged. subst merged.
  rewrite (updateSettings_success_LDAP _ _ _ _ _ _ Hrun). subst block.
  unfold mergeLDAPSettings.
  destruct (LDAPSettings payload) as [ldap|]; simpl; split_and!; try done.
  all: by destruct (nonEmpty _).
Qed.

(** X14.  The OAuth block and the internal authentication settings after a
    successful [updateSettings], field by field.  With an OAuth block in the
    payload, the client secret is the payload's unless that is empty and the
    Kubernetes secret key is the payload's unless that is [nil] (then the
    stored one is kept, in both cases), and the remaining fields are the
    payload's; without a block the stored one is kept unchanged.  Of an
    internal authentication block only the required password length is
    taken. *)
Theorem oauth_and_internal_auth_merge handler tx payload w settings' w' :
  updateSettings handler tx payload w = (inr settings', w') →
  match OAuthSettings payload with
  | Some oauth =>
      OAuthSettings.ClientSecret (Settings.OAuthSettings settings')
      = (if String.eqb (OAuthSettings.ClientSecret oauth) ""
         then OAuthSettings.ClientSecret (Settings.OAuthSettings (persisted w))
         else OAuthSettings.ClientSecret oauth)
      ∧ OAuthSettings.KubeSecretKey (Settings.OAuthSettings settings')
        = match OAuthSettings.KubeSecretKey oauth with
          | Some key => Some key
          | None => OAuthSettings.KubeSecretKey (Settings.OAuthSettings (persisted w))
          end
      ∧ OAuthSettings.rest (Settings.OAuthSettings settings')
        = OAuthSettings.rest oauth
  | None => Settings.OAuthSettings settings' = Settings.OAuthSettings (persisted w)
  end
  ∧ InternalAuthSettings.RequiredPasswordLength
      (Settings.InternalAuthSettings settings')
    = match InternalAuthSettings payload with
      | Some internalAuth => InternalAuthSettings.RequiredPasswordLength internalAuth
      | None => InternalAuthSettings.RequiredPasswordLength
                  (Settings.InternalAuthSettings (persisted w))
      end
  ∧ InternalAuthSettings.rest (Settings.InternalAuthSettings settings')
    = InternalAuthSettings.rest (Settings.InternalAuthSettings (persisted w)).
Proof.
  intros Hrun. apply updateSettings_success_shape in Hrun as [_ ->].
  set (s0 := persisted w). clearbody s0.
  assert (Hp : OAuthSettings (suppressForDemo handler payload) = OAuthSettings payload
               ∧ InternalAuthSettings (suppressForDemo handler payload)
                 = InternalAuthSettings payload).
  { unfold suppressForDemo. by destruct (demoService_IsDemo handler). }
  destruct Hp as [Hp1 Hp2].
  set (p := suppressForDemo handler payload) in *.
  assert (HO : Settings.OAuthSettings
            (beforePersist p (afterTLS handler (beforeTLS p
               (afterSessionTimeout p (beforeSessionTimeout p (afterSnapshot p
                  (beforeSnapshot p (afterHelm handler p (beforeHelm p s0)))))))))
          = Settings.OAuthSettings (mergeOAuthSettings p s0)).
  { peel_assignments. unfold mergeOAuthSettings.
    destruct (OAuthSettings p); simpl; by peel_assignments. }
  assert (HI : Settings.InternalAuthSettings
            (beforePersist p (afterTLS handler (beforeTLS p
               (afterSessionTimeout p (beforeSessionTimeout p (afterSnapshot p
                  (beforeSnapshot p (afterHelm handler p (beforeHelm p s0)))))))))
          = Settings.InternalAuthSettings (mergeInternalAuthSettings p s0)).
  { peel_assignments. unfold mergeInternalAuthSettings.
    destruct (InternalAuthSettings p); simpl; by peel_assignments. }
  rewrite HO, HI. unfold mergeOAuthSettings, mergeInternalAuthSettings.
  rewrite Hp1, Hp2.
  destruct (OAuthSettings payload) as [oauth|],
    (InternalAuthSettings payload) as [internalAuth|]; simpl; split_and!; try done;
    by destruct (OAuthSettings.KubeSecretKey oauth).
Qed.

(** The errors [updateSettings] can return. *)
Lemma updateSettings_error_cases handler tx payload w err w' :
  updateSettings handler tx payload w = (inl err, w') →
  persisted w' = persisted w
  ∧ ((∃ cause, Settings_fault tx = Some cause
        ∧ err = HandlerError 500
                  "Unable to retrieve the settings from the database" (Some cause))
     ∨ (∃ url cause, HelmRepositoryURL payload = Some url
          ∧ libhelm_ValidateHelmRepositoryURL handler url = Some cause
          ∧ err = HandlerError 400
                    "Invalid Helm repository URL. Must correspond to a valid URL format"
                    (Some cause))
     ∨ (∃ interval cause, SnapshotInterval payload = Some interval
          ∧ SnapshotService_SetSnapshotInterval handler interval = Some cause
          ∧ err = HandlerError 500 "Unable to update snapshot interval" (Some cause))
     ∨ (∃ cause, FileService_DeleteTLSFiles handler = Some cause
          ∧ err = HandlerError 500 "Unable to remove TLS files from disk" (Some cause))
     ∨ (∃ cause, UpdateSettings_fault tx = Some cause
          ∧ err = HandlerError 500
                    "Unable to persist settings changes inside the database"
                    (Some cause))).
Proof.
  intros Hrun. split; [by eapply updateSettings_failure|].
  apply updateSettings_unfold in Hrun.
  destruct (suppressForDemo_fields handler payload) as (G1 & G2 & _).
  destruct Hrun as [(cause & ? & _ & [= ->]) | (_ & r1 & w1 & H1 & Hrun)].
  { left. by exists cause. }
  apply mergeHelmRepositoryURL_step in H1 as (_ & evsH & _ & E1 & R1).
  destruct r1 as [?|s1].
  { destruct Hrun as [[= ->] _]. destruct R1 as (url & cause & Hin & ? & ->).
    apply E1 in Hin as (? & [= <-] & Hurl & _). rewrite G1 in Hurl.
    right; left. by exists url, cause. }
  destruct Hrun as (r2 & w2 & H2 & Hrun).
  apply mergeSnapshotInterval_step in H2 as (_ & evsS & _ & E2 & R2).
  destruct r2 as [?|s2].
  { destruct Hrun as [[= ->] _]. destruct R2 as (interval & cause & Hin & ? & ->).
    apply E2 in Hin as (? & [= <-] & Hint & _). rewrite G2 in Hint.
    right; right; left. by exists interval, cause. }
  destruct Hrun as (r3 & w3 & H3 & Hrun).
  apply mergeUserSessionTimeout_step in H3 as (_ & _ & _ & _ & s3 & -> & _).
  destruct Hrun as (r4 & w4 & H4 & Hrun).
  apply updateTLS_step in H4 as (_ & _ & _ & _ & R4).
  destruct r4 as [?|s4].
  { destruct Hrun as [[= ->] _]. destruct R4 as (cause & ? & ->).
    right; right; right; left. by exists cause. }
  destruct (UpdateSettings_fault tx) as [cause|]; [|by destruct Hrun].
  destruct Hrun as [_ [= ->]]. right; right; right; right. by exists cause.
Qed.

(** X15.  Every error of [updateSettings] is one of five classified errors,
    each naming the step that failed and wrapping that step's error: a 500 for
    the read of the settings, a 400 for the Helm repository check, a 500 for
    the snapshot service, for the removal of the TLS files and for the write of
    the settings.  In each case the stored settings are as before. *)
Theorem settings_errors_are_classified handler tx payload w err w' :
  updateSettings handler tx payload w = (inl err, w') →
  persisted w' = persisted w
  ∧ ((∃ cause, Settings_fault tx = Some cause
        ∧ err = HandlerError 500
                  "Unable to retrieve the settings from the database" (Some cause))
     ∨ (∃ url cause, HelmRepositoryURL payload = Some url
          ∧ libhelm_ValidateHelmRepositoryURL handler url = Some cause
          ∧ err = HandlerError 400
                    "Invalid Helm repository URL. Must correspond to a valid URL format"
                    (Some cause))
     ∨ (∃ interval cause, SnapshotInterval payload = Some interval
          ∧ SnapshotService_SetSnapshotInterval handler interval = Some cause
          ∧ err = HandlerError 500 "Unable to update snapshot interval" (Some cause))
     ∨ (∃ cause, FileService_DeleteTLSFiles handler = Some cause
          ∧ err = HandlerError 500 "Unable to remove TLS files from disk" (Some cause))
     ∨ (∃ cause, UpdateSettings_fault tx = Some cause
          ∧ err = HandlerError 500
                    "Unable to persist settings changes inside the database"
                    (Some cause))).
Proof. apply updateSettings_error_cases. Qed.

Lemma mergeHelmRepositoryURL_trace handler payload settings w res w1 :
  mergeHelmRepositoryURL handler payload settings w = (res, w1) →
  ∃ evs, trace w1 = trace w ++ evs
    ∧ (evs = [] ∨ ∃ url, evs = [EvValidateHelmRepositoryURL url]).
Proof.
  unfold mergeHelmRepositoryURL, mbind, M_bind, emit, check.
  assert (Hnone : ∀ x : error + Settings.t sh, (x, w) = (res, w1) →
            ∃ evs, trace w1 = trace w ++ evs
              ∧ (evs = [] ∨ ∃ url, evs = [EvValidateHelmRepositoryURL url])).
  { intros x [= _ <-]. exists []. rewrite app_nil_r. by split; [|left]. }
  destruct (HelmRepositoryURL payload) as [url|]; simpl; [|apply Hnone].
  destruct (nonEmpty url); [|apply Hnone].
  destruct (_ && _); simpl; [|apply Hnone].
  destruct (libhelm_ValidateHelmRepositoryURL handler url); simpl;
    intros [= _ <-]; eexists; (split; [done|]); right; by eexists.
Qed.

Lemma mergeSnapshotInterval_trace handler payload settings w res w1 :
  mergeSnapshotInterval handler payload settings w = (res, w1) →
  ∃ evs, trace w1 = trace w ++ evs
    ∧ (evs = [] ∨ ∃ interval, evs = [EvSetSnapshotInterval interval]).
Proof.
  unfold mergeSnapshotInterval, mapErr, updateSnapshotInterval, mbind, M_bind,
    emit, check.
  assert (Hnone : ∀ x : error + Settings.t sh, (x, w) = (res, w1) →
            ∃ evs, trace w1 = trace w ++ evs
              ∧ (evs = [] ∨ ∃ interval, evs = [EvSetSnapshotInterval interval])).
  { intros x [= _ <-]. exists []. rewrite app_nil_r. by split; [|left]. }
  destruct (SnapshotInterval payload) as [interval|]; simpl; [|apply Hnone].
  destruct (differs _ _); [|apply Hnone].
  destruct (SnapshotService_SetSnapshotInterval handler interval); simpl;
    intros [= _ <-]; eexists; (split; [done|]); right; by eexists.
Qed.

Lemma mergeUserSessionTimeout_trace handler payload settings w res w1 :
  mergeUserSessionTimeout handler payload settings w = (res, w1) →
  ∃ evs, trace w1 = trace w ++ evs
    ∧ (evs = [] ∨ ∃ duration, evs = [EvSetUserSessionDuration duration]).
Proof.
  unfold mergeUserSessionTimeout, mbind, M_bind, emit.
  destruct (UserSessionTimeout payload); simpl; intros [= _ <-].
  - eexists. split; [done|]. right. by eexists.
  - exists []. rewrite app_nil_r. by split; [|left].
Qed.

Lemma updateTLS_trace handler settings w res w1 :
  updateTLS handler settings w = (res, w1) →
  trace w1 = trace w ++ [if verifiesTLS settings
                         then EvGetPathForTLSFile else EvDeleteTLSFiles].
Proof.
  unfold updateTLS, mbind, M_bind, emit, check.
  destruct (_ && _); simpl; [by intros [= _ <-]|].
  destruct (FileService_DeleteTLSFiles handler); simpl; by intros [= _ <-].
Qed.

(** X16.  In one run of [updateSettings] each collaborator is called at most
    once, in the order Helm repository check, snapshot service, session
    service, TLS file store.  A run that succeeds has made exactly one call to
    the TLS file store: for the path of the CA certificate when the merged LDAP
    settings use TLS or StartTLS and verify the server, and to delete the TLS
    files otherwise, also when the payload has no LDAP block. *)
Theorem settings_calls_once_in_order handler tx payload w res w' :
  updateSettings handler tx payload w = (res, w') →
  ∃ evsH evsS evsU evsT,
    trace w' = trace w ++ evsH ++ evsS ++ evsU ++ evsT
    ∧ (evsH = [] ∨ ∃ url, evsH = [EvValidateHelmRepositoryURL url])
    ∧ (evsS = [] ∨ ∃ interval, evsS = [EvSetSnapshotInterval interval])
    ∧ (evsU = [] ∨ ∃ duration, evsU = [EvSetUserSessionDuration duration])
    ∧ (evsT = [] ∨ evsT = [EvGetPathForTLSFile] ∨ evsT = [EvDeleteTLSFiles])
    ∧ (∀ settings', res = inr settings' →
         evsT = [if verifiesTLS settings'
                 then EvGetPathForTLSFile else EvDeleteTLSFiles]).
Proof.
  intros Hrun. apply updateSettings_unfold in Hrun.
  destruct Hrun as [(cause & _ & -> & ->) | (_ & r1 & w1 & H1 & Hrun)].
  { exists [], [], [], []. rewrite !app_nil_r. split_and!; first [done | by left | by intros ? [=]]. }
  set (p := suppressForDemo handler payload) in *.
  pose proof H1 as H1'.
  apply mergeHelmRepositoryURL_trace in H1 as (evsH & T1 & S1). exists evsH.
  destruct r1 as [?|s1].
  { destruct Hrun as [-> ->]. exists [], [], []. rewrite !app_nil_r.
    split_and!; first [done | by left | by intros ? [=]]. }
  destruct Hrun as (r2 & w2 & H2 & Hrun).
  apply mergeSnapshotInterval_trace in H2 as (evsS & T2 & S2). exists evsS.
  destruct r2 as [?|s2].
  { destruct Hrun as [-> ->]. exists [], []. rewrite !app_nil_r, T2, T1, <- app_assoc.
    split_and!; first [done | by left | by intros ? [=]]. }
  destruct Hrun as (r3 & w3 & H3 & Hrun).
  pose proof H3 as H3'.
  apply mergeUserSessionTimeout_trace in H3 as (evsU & T3 & S3). exists evsU.
  apply mergeUserSessionTimeout_step in H3' as (_ & _ & _ & _ & s3 & -> & _).
  destruct Hrun as (r4 & w4 & H4 & Hrun).
  pose proof H4 as H4'.
  apply updateTLS_trace in H4.
  eexists. split_and!; [|done..| |].
  - transitivity (trace w4).
    + destruct r4 as [?|s4]; [by destruct Hrun as [_ ->]|].
      destruct (UpdateSettings_fault tx);
        [by destruct Hrun as [-> _] | by destruct Hrun as (_ & _ & ->)].
    + rewrite H4, T3, T2, T1, <- !app_assoc. done.
  - destruct (verifiesTLS _); [by right; left | by right; right].
  - intros settings' ->. destruct r4 as [?|s4]; [by destruct Hrun|].
    destruct (UpdateSettings_fault tx); [by destruct Hrun|].
    destruct Hrun as ([= ->] & _). apply updateTLS_ok in H4' as ->.
    f_equal. by peel_assignments.
Qed.

(** X24.  The remaining fields after a successful [updateSettings].  The
    Helm repository URL is the stored one when the payload has none, the empty
    string when the payload gives the empty string, and otherwise the
    payload's in lower case without a trailing slash.  Outside the demo, the
    logo URL and the telemetry flag are the payload's when present and the
    stored ones otherwise. *)
Theorem helm_logo_telemetry_merge handler tx payload w settings' w' :
  updateSettings handler tx payload w = (inr settings', w') →
  Settings.HelmRepositoryURL settings'
    = match HelmRepositoryURL payload with
      | Some url =>
          if nonEmpty url
          then strings.TrimSuffix (strings_ToLower handler url) "/"
          else ""
      | None => Settings.HelmRepositoryURL (persisted w)
      end
  ∧ (demoService_IsDemo handler = false →
     Settings.LogoURL settings'
       = default (Settings.LogoURL (persisted w)) (LogoURL payload)
     ∧ Settings.EnableTelemetry settings'
       = default (Settings.EnableTelemetry (persisted w)) (EnableTelemetry payload)).
Proof.
  intros Hrun. split; [by eapply updateSettings_success_helm|].
  intros Hdemo.
  destruct (updateSettings_success _ _ _ _ _ _ Hrun) as (_ & HL & HT & _).
  unfold suppressForDemo in HL, HT. rewrite Hdemo in HL, HT. done.
Qed.

End SettingsMore.

(** ** The settings handler: validation, then the merge *)

Section SettingsHandlerProperties.
Import portainer settings settingsUpdatePayload settings_update.
Context {sh : FieldShapes}.
Implicit Types (handler : Handler) (v : Validators) (payload : settingsUpdatePayload.t sh).
Implicit Types (w : World sh) (DataStore : DataStoreTx).

(** What [Validate] guarantees about a payload it accepts. *)
Lemma Validate_accepts v payload :
  Validate v payload = None →
  (∀ method, AuthenticationMethod payload = Some method →
     method = 1 ∨ method = 2 ∨ method = 3)
  ∧ (∀ url, LogoURL payload = Some url → url = "" ∨ govalidator_IsURL v url = true)
  ∧ (∀ url, TemplatesURL payload = Some url →
       url = "" ∨ govalidator_IsURL v url = true)
  ∧ (∀ url, HelmRepositoryURL payload = Some url →
       url = "" ∨ govalidator_IsURL v url = true)
  ∧ (∀ timeout, UserSessionTimeout payload = Some timeout →
       time_ParseDuration_error v timeout = None)
  ∧ (∀ expiry, KubeconfigExpiry payload = Some expiry →
       time_ParseDuration_error v expiry = None)
  ∧ (∀ url, EdgePortainerURL payload = Some url →
       url = "" ∨ edge_ParseHostForEdge_error v url = None).
Proof.
  assert (Hurl : ∀ field, badURL v field = false →
            ∀ url, field = Some url → url = "" ∨ govalidator_IsURL v url = true).
  { intros field Hbad url ->. simpl in Hbad.
    apply andb_false_iff in Hbad as [Hne|Hok].
    - left. by apply nonEmpty_false.
    - right. by apply negb_false_iff. }
  assert (Hparse : ∀ (field : option string),
            match field with
            | Some t => bool_decide (is_Some (time_ParseDuration_error v t))
            | None => false
            end = false →
            ∀ t, field = Some t → time_ParseDuration_error v t = None).
  { intros field Hbad t ->. apply bool_decide_eq_false in Hbad.
    destruct (time_ParseDuration_error v t); [|done]. destruct Hbad. by eexists. }
  unfold Validate.
  destruct (match AuthenticationMethod payload with Some _ => _ | None => _ end)
    eqn:Hauth; [done|].
  destruct (badURL v (LogoURL payload)) eqn:Hlogo; [done|].
  destruct (badURL v (TemplatesURL payload)) eqn:Htemplates; [done|].
  destruct (badURL v (HelmRepositoryURL payload)) eqn:Hhelm; [done|].
  destruct (match UserSessionTimeout payload with Some _ => _ | None => _ end)
    eqn:Htimeout; [done|].
  destruct (match KubeconfigExpiry payload with Some _ => _ | None => _ end)
    eqn:Hexpiry; [done|].
  intros Hedge. split_and!; eauto.
  - intros method Hm. rewrite Hm in Hauth.
    destruct (method =? 1) eqn:H1; [left; lia|].
    destruct (method =? 2) eqn:H2; [right; left; lia|].
    destruct (method =? 3) eqn:H3; [right; right; lia|]. done.
  - intros url Hu. rewrite Hu in Hedge.
    destruct (nonEmpty url) eqn:Hne; [by right|]. left. by apply nonEmpty_false.
Qed.

Lemma updateSettings_error_passes handler DataStore payload w err w' :
  updateSettings handler DataStore payload w = (inl err, w') → classify err = err.
Proof.
  intros Hrun. apply updateSettings_error_cases in Hrun as [_ Hcases].
  destruct Hcases as [(? & _ & ->) | [(? & ? & _ & _ & ->) | [(? & ? & _ & _ & ->)
                     | [(? & _ & ->) | (? & _ & ->)]]]]; done.
Qed.

(** X17.  With the feature flag [FeatureNoTx] set, an error response of
    [settingsUpdate] is either the 400 for a body that could not be decoded or
    did not pass [Validate], in which case nothing was read, written or called,
    or exactly the error [updateSettings] returned: none of them is turned
    into the generic internal server error.  The stored settings are as before
    in both cases. *)
Theorem settings_update_direct_errors handler v hideFields DataStore UpdateTx
    (json_body : error + settingsUpdatePayload.t sh) w err w' :
  settingsUpdate handler v hideFields true DataStore UpdateTx json_body w
    = (inl err, w') →
  persisted w' = persisted w
  ∧ ((∃ cause, DecodeAndValidateJSONPayload v json_body = inl cause
        ∧ err = BadRequest "Invalid request payload" (Some cause) ∧ w' = w)
     ∨ (∃ payload, DecodeAndValidateJSONPayload v json_body = inr payload
          ∧ updateSettings handler DataStore payload w = (inl err, w'))).
Proof.
  unfold settingsUpdate.
  destruct (DecodeAndValidateJSONPayload v json_body) as [cause|payload].
  { intros [= <- <-]. split; [done|]. left. by exists cause. }
  destruct (updateSettings handler DataStore payload w) as [[e|settings] w1] eqn:Hrun;
    [|done].
  intros [= <- <-]. rewrite (updateSettings_error_passes _ _ _ _ _ _ Hrun).
  split; [by eapply updateSettings_failure|]. right. by exists payload.
Qed.

(** X18.  With the feature flag [FeatureNoTx] set, a successful
    [settingsUpdate] has persisted only values that passed [Validate]: an
    authentication method, when the payload gives one, is 1, 2 or 3; a session
    timeout and a Kubeconfig expiry are durations that parse; a templates URL
    and an edge URL are empty or well formed.  The response is the persisted
    settings passed through [hideFields]. *)
Theorem settings_update_persists_validated handler v hideFields DataStore UpdateTx
    payload w out w' :
  settingsUpdate handler v hideFields true DataStore UpdateTx (inr payload) w
    = (inr out, w') →
  out = hideFields (persisted w')
  ∧ (∀ method, AuthenticationMethod payload = Some method →
       Settings.AuthenticationMethod (persisted w') = method
       ∧ (method = 1 ∨ method = 2 ∨ method = 3))
  ∧ (∀ timeout, UserSessionTimeout payload = Some timeout →
       Settings.UserSessionTimeout (persisted w') = timeout
       ∧ time_ParseDuration_error v timeout = None)
  ∧ (∀ expiry, KubeconfigExpiry payload = Some expiry →
       Settings.KubeconfigExpiry (persisted w') = expiry
       ∧ time_ParseDuration_error v expiry = None)
  ∧ (∀ url, TemplatesURL payload = Some url →
       Settings.TemplatesURL (persisted w') = url
       ∧ (url = "" ∨ govalidator_IsURL v url = true))
  ∧ (∀ url, EdgePortainerURL payload = Some url →
       Settings.EdgePortainerURL (persisted w') = url
       ∧ (url = "" ∨ edge_ParseHostForEdge_error v url = None)).
Proof.
  unfold settingsUpdate, DecodeAndValidateJSONPayload.
  destruct (Validate v payload) eqn:Hvalid; [done|].
  destruct (updateSettings handler DataStore payload w) as [[e|settings] w1] eqn:Hrun;
    [done|].
  intros [= <- <-].
  destruct (Validate_accepts _ _ Hvalid) as (Vm & _ & Vt & _ & Vs & Ve & Vu).
  destruct (updateSettings_success _ _ _ _ _ _ Hrun) as (Hp & _).
  destruct (updateSettings_success_fields _ _ _ _ _ _ Hrun)
    as (Fm & Ft & _ & _ & _ & _ & _ & Fu & _ & Fe & _ & Fs & _).
  rewrite Hp. split_and!; [done|..].
  - intros method Hm. rewrite Fm, Hm. eauto.
  - intros timeout Hm. rewrite Fs, Hm. eauto.
  - intros expiry Hm. rewrite Fe, Hm. eauto.
  - intros url Hm. rewrite Ft, Hm. eauto.
  - intros url Hm. rewrite Fu, Hm. eauto.
Qed.

End SettingsHandlerProperties.

(** ** The password update: who may do it, and what failure leaves *)

Section PasswordMore.
Import portainer users.
Context {sh : FieldShapes}.
Implicit Types (handler : Handler) (r : Request) (ds : DataStore sh).

Lemma IsNull_false (s : string) : IsNull s = false ↔ s ≠ "".
Proof.
  unfold IsNull. destruct s; simpl; split; done.
Qed.

(** X19.  [userUpdatePassword] succeeds if and only if: the route
    identifier is a number and not the demo user's; the requester is an
    administrator or the user concerned; the body decodes, with both
    passwords non-empty; the user exists and the current password matches
    the stored hash; the new password passes the strength check and can be
    hashed; and the datastore takes the write.  The datastore then differs
    only in the record stored under the identifier of the user that was read,
    which has the new hash and the current time. *)
Theorem password_update_succeeds_iff handler r ds ds' :
  userUpdatePassword handler r ds = (None, ds')
  ↔ ∃ userID tokenData payload user hash,
      route_id r = inr userID
      ∧ demoService_IsDemoUser handler userID = false
      ∧ token_data r = inr tokenData
      ∧ (Role tokenData = AdministratorRole handler ∨ ID tokenData = userID)
      ∧ json_body r = inr payload
      ∧ Password payload ≠ "" ∧ NewPassword payload ≠ ""
      ∧ User_Read_fault ds = None
      ∧ stored_users ds !! userID = Some user
      ∧ CryptoService_CompareHashAndData handler (User.Password user)
          (Password payload) = None
      ∧ passwordStrengthChecker_Check handler (NewPassword payload) = true
      ∧ CryptoService_Hash handler (NewPassword payload) = inr hash
      ∧ User_Update_fault ds = None
      ∧ ds' = mkDataStore
                (<[User.ID user :=
                     User.set_TokenIssueAt (time_Now_Unix handler)
                       (User.set_Password hash user)]> (stored_users ds))
                (User_Read_fault ds) (User_Update_fault ds).
Proof.
  unfold userUpdatePassword, DecodeAndValidateJSONPayload, Validate, User_Read,
    User_Update.
  split.
  - destruct (route_id r) as [?|userID]; [done|].
    destruct (demoService_IsDemoUser handler userID) eqn:Hdemo; [done|].
    destruct (token_data r) as [?|tokenData]; [done|].
    destruct (_ && _) eqn:Hauth; [done|].
    destruct (json_body r) as [?|payload]; [done|].
    destruct (IsNull (Password payload)) eqn:Hp1; [done|].
    destruct (IsNull (NewPassword payload)) eqn:Hp2; [done|].
    destruct (User_Read_fault ds) eqn:Hrf; [done|].
    destruct (stored_users ds !! userID) as [user|] eqn:Huser; [|done].
    destruct (CryptoService_CompareHashAndData _ _ _) eqn:Hcmp; [done|].
    destruct (passwordStrengthChecker_Check _ _) eqn:Hchk; [|done]. simpl.
    destruct (CryptoService_Hash handler (NewPassword payload)) as [?|hash] eqn:Hhash;
      [done|].
    simpl. destruct (User_Update_fault ds) eqn:Huf; [done|].
    intros [= <-]. exists userID, tokenData, payload, user, hash.
    apply IsNull_false in Hp1, Hp2.
    split_and!; try done.
    apply andb_false_iff in Hauth as [H|H]; apply negb_false_iff in H; [left|right]; lia.
  - intros (userID & tokenData & payload & user & hash & -> & -> & -> & Hauth & ->
            & Hp1%IsNull_false & Hp2%IsNull_false & Hrf & Huser & Hcmp & Hchk
            & Hhash & Huf & ->).
    rewrite Hp1, Hp2, Hrf, Huser, Hcmp, Hchk, Hhash. simpl. rewrite Huf.
    replace (negb (Role tokenData =? AdministratorRole handler)
             && negb (ID tokenData =? userID)) with false; [done|].
    symmetry. apply andb_false_iff.
    destruct Hauth as [->| ->]; [left|right]; apply negb_false_iff; lia.
Qed.

(** X20.  Whenever [userUpdatePassword] answers with an error, the datastore
    is exactly as it was: no password and no token time is changed. *)
Theorem password_update_error_keeps_store handler r ds err ds' :
  userUpdatePassword handler r ds = (Some err, ds') → ds' = ds.
Proof.
  unfold userUpdatePassword, User_Read, User_Update.
  destruct (route_id r) as [?|userID]; [by intros [= _ <-]|].
  destruct (demoService_IsDemoUser handler userID); [by intros [= _ <-]|].
  destruct (token_data r) as [?|tokenData]; [by intros [= _ <-]|].
  destruct (_ && _); [by intros [= _ <-]|].
  destruct (DecodeAndValidateJSONPayload r) as [?|payload]; [by intros [= _ <-]|].
  destruct (User_Read_fault ds); [by intros [= _ <-]|].
  destruct (stored_users ds !! userID) as [user|]; [|by intros [= _ <-]].
  destruct (CryptoService_CompareHashAndData _ _ _); [by intros [= _ <-]|].
  destruct (negb _); [by intros [= _ <-]|].
  destruct (CryptoService_Hash handler (NewPassword payload)); [by intros [= _ <-]|].
  simpl. destruct (User_Update_fault ds); [by intros [= _ <-] | done].
Qed.

(** X21.  A requester who is neither an administrator nor the user named in
    the route is always refused with a 403, and the datastore is left as it
    was: when the route names the demo user it is the 403 of line 59 (not
    available in the demo), which is returned before the role is looked at;
    otherwise it is "Permission denied to update user".  In both cases the
    answer is the same whatever the body and whatever the datastore holds: it
    does not tell whether the user exists or whether a password matched. *)
Theorem password_update_forbidden_for_others handler r ds userID tokenData :
  route_id r = inr userID →
  token_data r = inr tokenData →
  Role tokenData ≠ AdministratorRole handler →
  ID tokenData ≠ userID →
  userUpdatePassword handler r ds
  = (Some (if demoService_IsDemoUser handler userID
           then Forbidden (ErrNotAvailableInDemo_Error handler)
                  (Some (ErrNotAvailableInDemo handler))
           else Forbidden "Permission denied to update user"
                  (Some (ErrUnauthorized handler))), ds).
Proof.
  intros Hroute Htoken Hrole Hid. unfold userUpdatePassword.
  rewrite Hroute. destruct (demoService_IsDemoUser handler userID); [done|].
  rewrite Htoken.
  replace (negb (Role tokenData =? AdministratorRole handler)
           && negb (ID tokenData =? userID)) with true; [done|].
  symmetry. apply andb_true_iff. split; apply negb_true_iff; lia.
Qed.

End PasswordMore.

(** ** The registry access handler without a transaction *)

Section RegistryHandlerProperties.
Import portainer_registry endpoints endpoint_registry_access.
Context {sh : AccessShapes} {Cluster : Type}.
Implicit Types (services : Services sh Cluster) (tx : DataStoreTx).
Implicit Types (r : Request sh) (w : World sh Cluster).

(** The errors [updateRegistryAccess] builds itself are classified ones; the
    only error it hands on as it is, is that of the write of the registry. *)
Lemma updateRegistryAccess_error_kind services it tx r endpointID registryID
    w err w' :
  updateRegistryAccess services it tx r endpointID registryID w = (Some err, w') →
  (∃ code msg cause, err = HandlerError code msg cause
     ∧ (code = 400 ∨ code = 403 ∨ code = 404 ∨ code = 500))
  ∨ Registry_Update_fault tx = Some err.
Proof.
  unfold updateRegistryAccess, tx_Endpoint, tx_Registry_Read, tx_Registry_Update,
    NotFound, InternalServerError, Forbidden, BadRequest.
  assert (Hk : ∀ code msg cause w0,
            code = 400 ∨ code = 403 ∨ code = 404 ∨ code = 500 →
            (Some (HandlerError code msg cause), w0) = (Some err, w') →
            (∃ code msg cause, err = HandlerError code msg cause
               ∧ (code = 400 ∨ code = 403 ∨ code = 404 ∨ code = 500))
            ∨ Registry_Update_fault tx = Some err).
  { intros code msg cause w0 Hcode [= <- _]. left. by exists code, msg, cause. }
  destruct (Endpoint_fault tx); [apply Hk; lia|].
  destruct (stored_endpoints (store w) !! endpointID) as [endpoint|];
    [|apply Hk; lia].
  destruct (restricted_context r) as [?|securityContext]; [apply Hk; lia|].
  destruct (requestBouncer_AuthorizedEndpointOperation services r endpoint);
    [apply Hk; lia|].
  destruct (negb (IsAdmin securityContext)); [apply Hk; lia|].
  destruct (Registry_Read_fault tx); [apply Hk; lia|].
  destruct (stored_registries (store w) !! registryID) as [registry|];
    [|apply Hk; lia].
  destruct (DecodeAndValidateJSONPayload r) as [?|payload]; [apply Hk; lia|].
  destruct (registryAccessOf endpoint registry) as [registry1 access].
  destruct (isKubernetes services endpoint).
  - destruct (updateKubeAccess _ _ _ _ _ _ _) as [[res k'] issued].
    destruct res; [apply Hk; lia|].
    destruct (Registry_Update_fault tx); [by intros [= <- _]; right | done].
  - destruct (Registry_Update_fault tx); [by intros [= <- _]; right | done].
Qed.

(** X22.  With the feature flag [FeatureNoTx] set, an error response of
    [endpointRegistryAccess] leaves the datastore as it was.  It is the 400
    for a route variable that is not a number, or the error
    [updateRegistryAccess] returned; that error is passed on as it is when the
    handler built it (a 400, 403, 404 or 500), and only the error of the write
    of the registry may be reported as the generic internal server error. *)
Theorem registry_access_direct_errors services it DataStore UpdateTx r w err w' :
  endpointRegistryAccess services it true DataStore UpdateTx r w = (Some err, w') →
  store w' = store w
  ∧ ((∃ cause, (route_id r = inl cause
                ∧ err = BadRequest "Invalid environment identifier route variable"
                          (Some cause)
                ∨ (∃ endpointID, route_id r = inr endpointID)
                  ∧ route_registryId r = inl cause
                  ∧ err = BadRequest "Invalid registry identifier route variable"
                            (Some cause))
        ∧ w' = w)
     ∨ (∃ endpointID registryID inner,
          route_id r = inr endpointID ∧ route_registryId r = inr registryID
          ∧ updateRegistryAccess services it DataStore r endpointID registryID w
            = (Some inner, w')
          ∧ err = classify inner
          ∧ (inner = err ∨ Registry_Update_fault DataStore = Some inner))).
Proof.
  unfold endpointRegistryAccess.
  destruct (route_id r) as [cause|endpointID].
  { intros [= <- <-]. split; [done|]. left. exists cause. split; [by left | done]. }
  destruct (route_registryId r) as [cause|registryID].
  { intros [= <- <-]. split; [done|]. left. exists cause. split; [|done].
    right. split; [by eexists | done]. }
  destruct (updateRegistryAccess services it DataStore r endpointID registryID w)
    as [[inner|] w1] eqn:Hrun; [|done].
  intros [= <- <-]. split; [by eapply registry_access_store_unchanged|].
  right. exists endpointID, registryID, inner. split_and!; try done.
  destruct (updateRegistryAccess_error_kind _ _ _ _ _ _ _ _ _ Hrun)
    as [(code & msg & cause & -> & _) | Hfault]; [by left | by right].
Qed.

End RegistryHandlerProperties.

(** ** The two executor paths of the handlers *)

Section ExecutorPaths.
Import portainer.

(** [updateSettings] writes as its last step only, so a transaction around it
    never has anything to take back: [settingsUpdate] answers alike, and
    leaves the same world, with and without the feature flag. *)
Lemma settingsUpdate_paths_agree {sh : FieldShapes} (handler : settings.Handler)
    (v : settings_update.Validators) (hideFields : Settings.t sh → Settings.t sh)
    (DataStore : settings.DataStoreTx)
    (json_body : error + settings.settingsUpdatePayload.t sh) (w : settings.World sh) :
  settings_update.settingsUpdate handler v hideFields true DataStore
    (settings_update.UpdateTx DataStore) json_body w
  = settings_update.settingsUpdate handler v hideFields false DataStore
      (settings_update.UpdateTx DataStore) json_body w.
Proof.
  unfold settings_update.settingsUpdate, settings_update.UpdateTx.
  destruct (settings_update.DecodeAndValidateJSONPayload v json_body)
    as [?|payload]; [done|].
  destruct (settings.updateSettings handler DataStore payload w)
    as [[err|settings'] w1] eqn:Hrun; [|done].
  rewrite <- (updateSettings_failure _ _ _ _ _ _ Hrun). by destruct w1.
Qed.

(** Likewise for [updateRegistryAccess] and [endpointRegistryAccess]. *)
Lemma endpointRegistryAccess_paths_agree {sh : portainer_registry.AccessShapes}
    {Cluster : Type} (services : endpoint_registry_access.Services sh Cluster)
    (it : MapIter) (DataStore : endpoint_registry_access.DataStoreTx)
    (r : endpoint_registry_access.Request sh)
    (w : endpoint_registry_access.World sh Cluster) :
  endpoint_registry_access.endpointRegistryAccess services it true DataStore
    (endpoint_registry_access.UpdateTx DataStore) r w
  = endpoint_registry_access.endpointRegistryAccess services it false DataStore
      (endpoint_registry_access.UpdateTx DataStore) r w.
Proof.
  unfold endpoint_registry_access.endpointRegistryAccess,
    endpoint_registry_access.UpdateTx.
  destruct (endpoint_registry_access.route_id r) as [?|endpointID]; [done|].
  destruct (endpoint_registry_access.route_registryId r) as [?|registryID]; [done|].
  destruct (endpoint_registry_access.updateRegistryAccess services it DataStore r
              endpointID registryID w) as [[err|] w1] eqn:Hrun; [|done].
  rewrite <- (registry_access_store_unchanged _ _ _ _ _ _ _ _ _ Hrun).
  by destruct w1.
Qed.

(** C2.  The direct and the transactional executor path produce the same
    persisted state on success.  For every mutation body written against the
    store capability and every starting store, the direct path succeeds with
    a result and a resulting store exactly when the transactional path
    succeeds with that result and that store.  At the two places where the
    code chooses between the paths, [settingsUpdate] (lines 122-130) and
    [endpointRegistryAccess] (lines 54-60), the same body is run in both
    modes and the feature flag makes no difference to the response or to the
    resulting world; in particular a successful request persists the same
    state whichever path ran it. *)
Theorem executor_equivalence :
  (∀ (V R : Type) (ErrObjectNotFound : error) (body : executor.Mutation V R)
     (store : gmap executor.Key V) (r : R) (store' : gmap executor.Key V),
     executor.execute ErrObjectNotFound true body store = (inr r, store')
     ↔ executor.execute ErrObjectNotFound false body store = (inr r, store'))
  ∧ (∀ (sh : FieldShapes) (handler : settings.Handler)
       (v : settings_update.Validators) (hideFields : Settings.t sh → Settings.t sh)
       (DataStore : settings.DataStoreTx)
       (json_body : error + settings.settingsUpdatePayload.t sh)
       (w : settings.World sh),
       settings_update.settingsUpdate handler v hideFields true DataStore
         (settings_update.UpdateTx DataStore) json_body w
       = settings_update.settingsUpdate handler v hideFields false DataStore
           (settings_update.UpdateTx DataStore) json_body w)
  ∧ (∀ (sh : portainer_registry.AccessShapes) (Cluster : Type)
       (services : endpoint_registry_access.Services sh Cluster) (it : MapIter)
       (DataStore : endpoint_registry_access.DataStoreTx)
       (r : endpoint_registry_access.Request sh)
       (w : endpoint_registry_access.World sh Cluster),
       endpoint_registry_access.endpointRegistryAccess services it true DataStore
         (endpoint_registry_access.UpdateTx DataStore) r w
       = endpoint_registry_access.endpointRegistryAccess services it false DataStore
           (endpoint_registry_access.UpdateTx DataStore) r w).
Proof.
  split_and!.
  - intros. apply execute_paths_agree.
  - intros. apply settingsUpdate_paths_agree.
  - intros. apply endpointRegistryAccess_paths_agree.
Qed.

End ExecutorPaths.

(** ** Either executor path, on a counter and on the two handlers *)

(** Incrementing the counter, a valid settings update, and a change of the
    namespaces of registry 9, each run inside a transaction. *)
Lemma executor_equivalence_witness :
  executor.execute executor.sampleNotFound false executor.sampleBody
    executor.sampleStore
  = (inr 41, <[("settings", 1) := 42]> executor.sampleStore)
  ∧ (settings_update.settingsUpdate (settings.sampleHandler false (λ _, true))
       settings_update.sampleValidators settings_update.showAll false
       settings.soundStore (settings_update.UpdateTx settings.soundStore)
       (inr settings_update.validPayload) settings.sampleWorld).1
    = inr (settings.persisted
             (settings.updateSettings (settings.sampleHandler false (λ _, true))
                settings.soundStore settings_update.validPayload
                settings.sampleWorld).2)
  ∧ (endpoint_registry_access.endpointRegistryAccess
       (endpoint_registry_access.sampleServices []) canonicalIter false
       endpoint_registry_access.soundStore
       (endpoint_registry_access.UpdateTx endpoint_registry_access.soundStore)
       (endpoint_registry_access.sampleRequest true 3
          endpoint_registry_access.namespacesPayload)
       endpoint_registry_access.sampleWorld).1
    = None.
Proof.
  destruct executor_equivalence as (Hgeneric & Hsettings & Hregistry).
  split_and!.
  - apply Hgeneric. vm_compute. reflexivity.
  - rewrite <- Hsettings. vm_compute. reflexivity.
  - rewrite <- Hregistry. vm_compute. reflexivity.
Defined.

(** * Worked instances of the further properties *)

Section reconciler_ignores_duplicates_and_order_instance.
Import endpoints.
Local Abbreviation it := (canonicalIter).
Local Abbreviation old := (["ns1"; "ns2"; "ns1"]).
Local Abbreviation old' := (["ns2"; "ns1"]).
Local Abbreviation new := (["ns3"; "ns2"]).
Local Abbreviation new' := (["ns2"; "ns3"; "ns3"]).

Lemma reconciler_ignores_duplicates_and_order_witness :
  namespaceDelta it old new = namespaceDelta it old' new'.
Proof.
  apply (reconciler_ignores_duplicates_and_order it old old' new new').
  - intros ns. rewrite !elem_of_cons, !elem_of_nil. tauto.
  - intros ns. rewrite !elem_of_cons, !elem_of_nil. tauto.
Defined.

End reconciler_ignores_duplicates_and_order_instance.

Section synchronizer_calls_within_delta_instance.
Import endpoints endpoint_registry_access.
Local Abbreviation handler := (endpoints.sampleHandler ["ns1"]).
Local Abbreviation it := (reverseIter).
Local Abbreviation endpoint := (tt).
Local Abbreviation registry := (tt).
Local Abbreviation oldNamespaces := (["ns1"; "ns2"; "ns0"]).
Local Abbreviation newNamespaces := (["ns2"; "ns3"]).
Local Abbreviation k := (["ns1"; "ns2"]).
Local Abbreviation res := ((updateKubeAccess handler it endpoint registry oldNamespaces newNamespaces k).1.1).
Local Abbreviation k' := ((updateKubeAccess handler it endpoint registry oldNamespaces newNamespaces k).1.2).
Local Abbreviation calls := ((updateKubeAccess handler it endpoint registry oldNamespaces newNamespaces k).2).

Lemma synchronizer_calls_within_delta_witness :
  (∀ ns r, CallDelete ns r ∈ calls → ns ∈ oldNamespaces ∧ ns ∉ newNamespaces)
  ∧ (∀ ns r, CallCreate ns r ∈ calls → ns ∈ newNamespaces ∧ ns ∉ oldNamespaces)
  ∧ NoDup (call_namespace <$> calls).
Proof.
  apply (synchronizer_calls_within_delta handler it endpoint registry oldNamespaces newNamespaces k res k' calls).
  - vm_compute. reflexivity.
Defined.

End synchronizer_calls_within_delta_instance.

Section synchronizer_success_calls_instance.
Import endpoints endpoint_registry_access.
Local Abbreviation handler := (endpoints.sampleHandler []).
Local Abbreviation it := (canonicalIter).
Local Abbreviation endpoint := (tt).
Local Abbreviation registry := (tt).
Local Abbreviation oldNamespaces := (["ns1"; "ns2"]).
Local Abbreviation newNamespaces := (["ns2"; "ns3"]).
Local Abbreviation k := (["ns1"; "ns2"]).
Local Abbreviation k' := ((updateKubeAccess handler it endpoint registry oldNamespaces newNamespaces k).1.2).
Local Abbreviation calls := ((updateKubeAccess handler it endpoint registry oldNamespaces newNamespaces k).2).

Lemma synchronizer_success_calls_witness :
  ∃ removed added,
    calls = ((λ ns, CallDelete ns None) <$> removed)
            ++ ((λ ns, CallCreate ns None) <$> added)
    ∧ removed ≡ₚ elements
        (list_to_set oldNamespaces ∖ list_to_set newNamespaces : gset string)
    ∧ added ≡ₚ elements
        (list_to_set newNamespaces ∖ list_to_set oldNamespaces : gset string).
Proof.
  apply (synchronizer_success_calls handler it endpoint registry oldNamespaces newNamespaces k k' calls).
  - vm_compute. reflexivity.
Defined.

End synchronizer_success_calls_instance.

Section synchronizer_converged_no_calls_instance.
Import endpoints endpoint_registry_access.
Local Abbreviation handler := (endpoints.sampleHandler []).
Local Abbreviation it := (canonicalIter).
Local Abbreviation endpoint := (tt).
Local Abbreviation registry := (tt).
Local Abbreviation oldNamespaces := (["ns1"; "ns2"; "ns1"]).
Local Abbreviation newNamespaces := (["ns2"; "ns1"]).
Local Abbreviation k := (["ns1"; "ns2"]).
Local Abbreviation cli := (endpoints.sampleClient []).

Lemma synchronizer_converged_no_calls_witness :
  updateKubeAccess handler it endpoint registry oldNamespaces newNamespaces k
  = (None, k, []).
Proof.
  apply (synchronizer_converged_no_calls handler it endpoint registry oldNamespaces newNamespaces k cli).
  - reflexivity.
  - intros ns. rewrite !elem_of_cons, !elem_of_nil. tauto.
Defined.

End synchronizer_converged_no_calls_instance.

Section additions_follow_all_removals_instance.
Import endpoints endpoint_registry_access.
Local Abbreviation handler := (endpoints.sampleHandler []).
Local Abbreviation it := (canonicalIter).
Local Abbreviation endpoint := (tt).
Local Abbreviation registry := (tt).
Local Abbreviation oldNamespaces := (["ns1"; "ns2"]).
Local Abbreviation newNamespaces := (["ns2"; "ns3"]).
Local Abbreviation k := (["ns1"; "ns2"]).
Local Abbreviation res := ((updateKubeAccess handler it endpoint registry oldNamespaces newNamespaces k).1.1).
Local Abbreviation k' := ((updateKubeAccess handler it endpoint registry oldNamespaces newNamespaces k).1.2).
Local Abbreviation calls := ((updateKubeAccess handler it endpoint registry oldNamespaces newNamespaces k).2).
Local Abbreviation ns := ("ns3").
Local Abbreviation r := (@None error).

Lemma additions_follow_all_removals_witness :
  CallDelete "ns1" None ∈ calls.
Proof.
  apply (additions_follow_all_removals handler it endpoint registry oldNamespaces newNamespaces k res k' calls ns r).
  - vm_compute. reflexivity.
  - vm_compute. apply list_elem_of_further, list_elem_of_here.
  - apply list_elem_of_here.
  - intros H. rewrite !elem_of_cons, elem_of_nil in H.
    destruct H as [H|[H|[]]]; discriminate.
Defined.

End additions_follow_all_removals_instance.

Section registry_access_requires_admin_instance.
Import portainer_registry endpoints endpoint_registry_access.
Local Abbreviation sh := (sampleShapes).
Local Abbreviation services := (sampleServices []).
Local Abbreviation it := (canonicalIter).
Local Abbreviation tx := (soundStore).
Local Abbreviation r := (sampleRequest true 3 namespacesPayload).
Local Abbreviation endpointID := (3).
Local Abbreviation registryID := (9).
Local Abbreviation w := (sampleWorld).
Local Abbreviation w' := ((updateRegistryAccess services it tx r endpointID registryID w).2).

Lemma registry_access_requires_admin_witness :
  ∃ endpoint securityContext,
    stored_endpoints (store w) !! endpointID = Some endpoint
    ∧ restricted_context r = inr securityContext
    ∧ IsAdmin securityContext = true
    ∧ requestBouncer_AuthorizedEndpointOperation services r endpoint = None
    ∧ is_Some (stored_registries (store w) !! registryID)
    ∧ (∃ payload, json_body r = inr payload).
Proof.
  apply (registry_access_requires_admin services it tx r endpointID registryID w w').
  - vm_compute. reflexivity.
Defined.

End registry_access_requires_admin_instance.

Section registry_access_error_keeps_store_instance.
Import portainer_registry endpoints endpoint_registry_access.
Local Abbreviation sh := (sampleShapes).
Local Abbreviation services := (sampleServices ["ns3"]).
Local Abbreviation it := (canonicalIter).
Local Abbreviation tx := (soundStore).
Local Abbreviation r := (sampleRequest true 3 namespacesPayload).
Local Abbreviation endpointID := (3).
Local Abbreviation registryID := (9).
Local Abbreviation w := (sampleWorld).
Local Abbreviation err := (InternalServerError "Unable to update kube access policies" (Some (ErrorString "namespace is terminating"))).
Local Abbreviation w' := ((updateRegistryAccess services it tx r endpointID registryID w).2).

Lemma registry_access_error_keeps_store_witness :
  store w' = store w.
Proof.
  apply (registry_access_error_keeps_store services it tx r endpointID registryID w err w').
  - vm_compute. reflexivity.
Defined.

End registry_access_error_keeps_store_instance.

Section registry_access_non_admin_no_effect_instance.
Import portainer_registry endpoints endpoint_registry_access.
Local Abbreviation sh := (sampleShapes).
Local Abbreviation services := (sampleServices []).
Local Abbreviation it := (canonicalIter).
Local Abbreviation tx := (soundStore).
Local Abbreviation r := (sampleRequest false 3 namespacesPayload).
Local Abbreviation endpointID := (3).
Local Abbreviation registryID := (9).
Local Abbreviation w := (sampleWorld).
Local Abbreviation res := ((updateRegistryAccess services it tx r endpointID registryID w).1).
Local Abbreviation w' := ((updateRegistryAccess services it tx r endpointID registryID w).2).
Local Abbreviation securityContext := ({| IsAdmin := false |}).

Lemma registry_access_non_admin_no_effect_witness :
  is_Some res ∧ w' = w.
Proof.
  apply (registry_access_non_admin_no_effect services it tx r endpointID registryID w res w' securityContext).
  - reflexivity.
  - reflexivity.
  - vm_compute. reflexivity.
Defined.

End registry_access_non_admin_no_effect_instance.

Section registry_access_kubernetes_success_instance.
Import portainer_registry endpoints endpoint_registry_access.
Local Abbreviation accessOf registry id :=
  (default RegistryAccessPolicies.zero
     (default ∅ (Registry.RegistryAccesses registry) !! id)).
Local Abbreviation sh := (sampleShapes).
Local Abbreviation services := (sampleServices []).
Local Abbreviation it := (canonicalIter).
Local Abbreviation tx := (soundStore).
Local Abbreviation r := (sampleRequest true 3 namespacesPayload).
Local Abbreviation endpointID := (3).
Local Abbreviation registryID := (9).
Local Abbreviation w := (sampleWorld).
Local Abbreviation w' := ((updateRegistryAccess services it tx r endpointID registryID w).2).
Local Abbreviation endpoint := (kubernetesEndpoint).

Lemma registry_access_kubernetes_success_witness :
  ∃ registry registry' payload removed added,
    stored_registries (store w) !! registryID = Some registry
    ∧ json_body r = inr payload
    ∧ stored_registries (store w') !! Registry.ID registry = Some registry'
    ∧ Registry.ID registry' = Registry.ID registry
    ∧ Registry.rest registry' = Registry.rest registry
    ∧ accessOf registry' endpointID
      = RegistryAccessPolicies.mk sh
          (RegistryAccessPolicies.UserAccessPolicies
             (accessOf registry (Endpoint.ID endpoint)))
          (RegistryAccessPolicies.TeamAccessPolicies
             (accessOf registry (Endpoint.ID endpoint)))
          (registryAccessPayload.Namespaces payload)
    ∧ calls w' = calls w ++ ((λ ns, CallDelete ns None) <$> removed)
                         ++ ((λ ns, CallCreate ns None) <$> added)
    ∧ removed ≡ₚ elements
        (list_to_set (slice (RegistryAccessPolicies.Namespaces
                               (accessOf registry (Endpoint.ID endpoint))))
         ∖ list_to_set (slice (registryAccessPayload.Namespaces payload))
         : gset string)
    ∧ added ≡ₚ elements
        (list_to_set (slice (registryAccessPayload.Namespaces payload))
         ∖ list_to_set (slice (RegistryAccessPolicies.Namespaces
                                 (accessOf registry (Endpoint.ID endpoint))))
         : gset string).
Proof.
  apply (registry_access_kubernetes_success services it tx r endpointID registryID w w' endpoint).
  - vm_compute. reflexivity.
  - vm_compute. reflexivity.
  - vm_compute. reflexivity.
Defined.

End registry_access_kubernetes_success_instance.

Section registry_access_policies_success_instance.
Import portainer_registry endpoints endpoint_registry_access.
Local Abbreviation accessOf registry id :=
  (default RegistryAccessPolicies.zero
     (default ∅ (Registry.RegistryAccesses registry) !! id)).
Local Abbreviation sh := (sampleShapes).
Local Abbreviation services := (sampleServices []).
Local Abbreviation it := (canonicalIter).
Local Abbreviation tx := (soundStore).
Local Abbreviation r := (sampleRequest true 4 policiesPayload).
Local Abbreviation endpointID := (4).
Local Abbreviation registryID := (9).
Local Abbreviation w := (sampleWorld).
Local Abbreviation res := ((updateRegistryAccess services it tx r endpointID registryID w).1).
Local Abbreviation w' := ((updateRegistryAccess services it tx r endpointID registryID w).2).
Local Abbreviation endpoint := (dockerEndpoint).

Lemma registry_access_policies_success_witness :
  cluster w' = cluster w
  ∧ calls w' = calls w
  ∧ (res = None →
     ∃ registry registry' payload,
       stored_registries (store w) !! registryID = Some registry
       ∧ json_body r = inr payload
       ∧ stored_registries (store w') !! Registry.ID registry = Some registry'
       ∧ Registry.ID registry' = Registry.ID registry
       ∧ Registry.rest registry' = Registry.rest registry
       ∧ accessOf registry' endpointID
         = RegistryAccessPolicies.mk sh
             (registryAccessPayload.UserAccessPolicies payload)
             (registryAccessPayload.TeamAccessPolicies payload)
             (RegistryAccessPolicies.Namespaces
                (accessOf registry (Endpoint.ID endpoint)))).
Proof.
  apply (registry_access_policies_success services it tx r endpointID registryID w res w' endpoint).
  - vm_compute. reflexivity.
  - vm_compute. reflexivity.
  - vm_compute. reflexivity.
Defined.

End registry_access_policies_success_instance.

Section registry_access_frame_instance.
Import portainer_registry endpoints endpoint_registry_access.
Local Abbreviation sh := (sampleShapes).
Local Abbreviation services := (sampleServices []).
Local Abbreviation it := (canonicalIter).
Local Abbreviation tx := (soundStore).
Local Abbreviation r := (sampleRequest true 3 namespacesPayload).
Local Abbreviation endpointID := (3).
Local Abbreviation registryID := (9).
Local Abbreviation w := (sampleWorld).
Local Abbreviation w' := ((updateRegistryAccess services it tx r endpointID registryID w).2).

Lemma registry_access_frame_witness :
  ∃ endpoint registry registry',
    stored_endpoints (store w) !! endpointID = Some endpoint
    ∧ stored_registries (store w) !! registryID = Some registry
    ∧ stored_registries (store w') !! Registry.ID registry = Some registry'
    ∧ stored_endpoints (store w') = stored_endpoints (store w)
    ∧ (∀ id, id ≠ Registry.ID registry →
         stored_registries (store w') !! id = stored_registries (store w) !! id)
    ∧ (∀ id, id ≠ endpointID → id ≠ Endpoint.ID endpoint →
         default ∅ (Registry.RegistryAccesses registry') !! id
         = default ∅ (Registry.RegistryAccesses registry) !! id).
Proof.
  apply (registry_access_frame services it tx r endpointID registryID w w').
  - vm_compute. reflexivity.
Defined.

End registry_access_frame_instance.

Section registry_access_direct_errors_instance.
Import portainer_registry endpoints endpoint_registry_access.
Local Abbreviation services := (sampleServices []).
Local Abbreviation it := (canonicalIter).
Local Abbreviation DataStore := (readOnlyStore).
Local Abbreviation UpdateTx := (unusedUpdateTx).
Local Abbreviation r := (sampleRequest true 3 namespacesPayload).
Local Abbreviation w := (sampleWorld).
Local Abbreviation err := (InternalServerError "Unexpected error" (Some (ErrorString "database is read-only"))).
Local Abbreviation w' := ((endpointRegistryAccess services it true DataStore UpdateTx r w).2).

Lemma registry_access_direct_errors_witness :
  store w' = store w
  ∧ ((∃ cause, (route_id r = inl cause
                ∧ err = BadRequest "Invalid environment identifier route variable"
                          (Some cause)
                ∨ (∃ endpointID, route_id r = inr endpointID)
                  ∧ route_registryId r = inl cause
                  ∧ err = BadRequest "Invalid registry identifier route variable"
                            (Some cause))
        ∧ w' = w)
     ∨ (∃ endpointID registryID inner,
          route_id r = inr endpointID ∧ route_registryId r = inr registryID
          ∧ updateRegistryAccess services it DataStore r endpointID registryID w
            = (Some inner, w')
          ∧ err = classify inner
          ∧ (inner = err ∨ Registry_Update_fault DataStore = Some inner))).
Proof.
  apply (registry_access_direct_errors services it DataStore UpdateTx r w err w').
  - vm_compute. reflexivity.
Defined.

End registry_access_direct_errors_instance.

Section settings_overwrite_if_present_instance.
Import portainer settings settingsUpdatePayload.
Local Abbreviation sh := (plainShapes).
Local Abbreviation handler := (sampleHandler false (λ _, true)).
Local Abbreviation tx := (soundStore).
Local Abbreviation payload := (settings_update.validPayload).
Local Abbreviation w := (sampleWorld).
Local Abbreviation w' := ((updateSettings handler tx payload w).2).
Local Abbreviation settings' := (persisted w').

Lemma settings_overwrite_if_present_witness :
  Settings.AuthenticationMethod settings'
    = default (Settings.AuthenticationMethod (persisted w))
        (AuthenticationMethod payload)
  ∧ Settings.TemplatesURL settings'
    = default (Settings.TemplatesURL (persisted w)) (TemplatesURL payload)
  ∧ Settings.ShowKomposeBuildOption settings'
    = default (Settings.ShowKomposeBuildOption (persisted w))
        (ShowKomposeBuildOption payload)
  ∧ Settings.BlackListedLabels settings'
    = match BlackListedLabels payload with
      | Some labels => Some labels
      | None => Settings.BlackListedLabels (persisted w)
      end
  ∧ Settings.EnableEdgeComputeFeatures settings'
    = default (Settings.EnableEdgeComputeFeatures (persisted w))
        (EnableEdgeComputeFeatures payload)
  ∧ Settings.TrustOnFirstConnect settings'
    = default (Settings.TrustOnFirstConnect (persisted w))
        (TrustOnFirstConnect payload)
  ∧ Settings.EnforceEdgeID settings'
    = default (Settings.EnforceEdgeID (persisted w)) (EnforceEdgeID payload)
  ∧ Settings.EdgePortainerURL settings'
    = default (Settings.EdgePortainerURL (persisted w)) (EdgePortainerURL payload)
  ∧ Settings.EdgeAgentCheckinInterval settings'
    = default (Settings.EdgeAgentCheckinInterval (persisted w))
        (EdgeAgentCheckinInterval payload)
  ∧ Settings.KubeconfigExpiry settings'
    = default (Settings.KubeconfigExpiry (persisted w)) (KubeconfigExpiry payload)
  ∧ Settings.KubectlShellImage settings'
    = default (Settings.KubectlShellImage (persisted w)) (KubectlShellImage payload)
  ∧ Settings.UserSessionTimeout settings'
    = default (Settings.UserSessionTimeout (persisted w))
        (UserSessionTimeout payload)
  ∧ Settings.SnapshotInterval settings'
    = default (Settings.SnapshotInterval (persisted w)) (SnapshotInterval payload)
  ∧ Settings.rest settings' = Settings.rest (persisted w).
Proof.
  apply (settings_overwrite_if_present handler tx payload w settings' w').
  - vm_compute. reflexivity.
Defined.

End settings_overwrite_if_present_instance.

Section ldap_block_merge_instance.
Import portainer settings settingsUpdatePayload.
Local Abbreviation sh := (plainShapes).
Local Abbreviation handler := (sampleHandler false (λ _, true)).
Local Abbreviation tx := (soundStore).
Local Abbreviation payload := (settings_update.startTLSPayload).
Local Abbreviation w := (sampleWorld).
Local Abbreviation w' := ((updateSettings handler tx payload w).2).
Local Abbreviation settings' := (persisted w').

Lemma ldap_block_merge_witness :
  let block := default (Settings.LDAPSettings (persisted w)) (LDAPSettings payload) in
  let merged := Settings.LDAPSettings settings' in
  LDAPSettings.ReaderDN merged
    = (if nonEmpty (LDAPSettings.ReaderDN block)
       then LDAPSettings.ReaderDN block
       else LDAPSettings.ReaderDN (Settings.LDAPSettings (persisted w)))
  ∧ LDAPSettings.Password merged
    = (if nonEmpty (LDAPSettings.Password block)
       then LDAPSettings.Password block
       else LDAPSettings.Password (Settings.LDAPSettings (persisted w)))
  ∧ LDAPSettings.StartTLS merged = LDAPSettings.StartTLS block
  ∧ LDAPSettings.rest merged = LDAPSettings.rest block
  ∧ TLSConfiguration.TLS (LDAPSettings.TLSConfig merged)
    = TLSConfiguration.TLS (LDAPSettings.TLSConfig block)
  ∧ TLSConfiguration.TLSSkipVerify (LDAPSettings.TLSConfig merged)
    = TLSConfiguration.TLSSkipVerify (LDAPSettings.TLSConfig block)
  ∧ TLSConfiguration.rest (LDAPSettings.TLSConfig merged)
    = TLSConfiguration.rest (LDAPSettings.TLSConfig block)
  ∧ TLSConfiguration.TLSCACertPath (LDAPSettings.TLSConfig merged)
    = (if (TLSConfiguration.TLS (LDAPSettings.TLSConfig block)
           || LDAPSettings.StartTLS block)
          && negb (TLSConfiguration.TLSSkipVerify (LDAPSettings.TLSConfig block))
       then FileService_GetPathForTLSFile handler else "").
Proof.
  apply (ldap_block_merge handler tx payload w settings' w').
  - vm_compute. reflexivity.
Defined.

End ldap_block_merge_instance.

Section oauth_and_internal_auth_merge_instance.
Import portainer settings settingsUpdatePayload.
Local Abbreviation sh := (plainShapes).
Local Abbreviation handler := (sampleHandler false (λ _, true)).
Local Abbreviation tx := (soundStore).
Local Abbreviation payload := (secretsPayload "" "S2").
Local Abbreviation w := (sampleWorld).
Local Abbreviation w' := ((updateSettings handler tx payload w).2).
Local Abbreviation settings' := (persisted w').

Lemma oauth_and_internal_auth_merge_witness :
  match OAuthSettings payload with
  | Some oauth =>
      OAuthSettings.ClientSecret (Settings.OAuthSettings settings')
      = (if String.eqb (OAuthSettings.ClientSecret oauth) ""
         then OAuthSettings.ClientSecret (Settings.OAuthSettings (persisted w))
         else OAuthSettings.ClientSecret oauth)
      ∧ OAuthSettings.KubeSecretKey (Settings.OAuthSettings settings')
        = match OAuthSettings.KubeSecretKey oauth with
          | Some key => Some key
          | None => OAuthSettings.KubeSecretKey (Settings.OAuthSettings (persisted w))
          end
      ∧ OAuthSettings.rest (Settings.OAuthSettings settings')
        = OAuthSettings.rest oauth
  | None => Settings.OAuthSettings settings' = Settings.OAuthSettings (persisted w)
  end
  ∧ InternalAuthSettings.RequiredPasswordLength
      (Settings.InternalAuthSettings settings')
    = match InternalAuthSettings payload with
      | Some internalAuth => InternalAuthSettings.RequiredPasswordLength internalAuth
      | None => InternalAuthSettings.RequiredPasswordLength
                  (Settings.InternalAuthSettings (persisted w))
      end
  ∧ InternalAuthSettings.rest (Settings.InternalAuthSettings settings')
    = InternalAuthSettings.rest (Settings.InternalAuthSettings (persisted w)).
Proof.
  apply (oauth_and_internal_auth_merge handler tx payload w settings' w').
  - vm_compute. reflexivity.
Defined.

End oauth_and_internal_auth_merge_instance.

Section settings_errors_are_classified_instance.
Import portainer settings settingsUpdatePayload.
Local Abbreviation sh := (plainShapes).
Local Abbreviation handler := (settings_update.stuckFilesHandler).
Local Abbreviation tx := (soundStore).
Local Abbreviation payload := (timeoutPayload).
Local Abbreviation w := (sampleWorld).
Local Abbreviation err := (HandlerError 500 "Unable to remove TLS files from disk" (Some (ErrorString "permission denied"))).
Local Abbreviation w' := ((updateSettings handler tx payload w).2).

Lemma settings_errors_are_classified_witness :
  persisted w' = persisted w
  ∧ ((∃ cause, Settings_fault tx = Some cause
        ∧ err = HandlerError 500
                  "Unable to retrieve the settings from the database" (Some cause))
     ∨ (∃ url cause, HelmRepositoryURL payload = Some url
          ∧ libhelm_ValidateHelmRepositoryURL handler url = Some cause
          ∧ err = HandlerError 400
                    "Invalid Helm repository URL. Must correspond to a valid URL format"
                    (Some cause))
     ∨ (∃ interval cause, SnapshotInterval payload = Some interval
          ∧ SnapshotService_SetSnapshotInterval handler interval = Some cause
          ∧ err = HandlerError 500 "Unable to update snapshot interval" (Some cause))
     ∨ (∃ cause, FileService_DeleteTLSFiles handler = Some cause
          ∧ err = HandlerError 500 "Unable to remove TLS files from disk" (Some cause))
     ∨ (∃ cause, UpdateSettings_fault tx = Some cause
          ∧ err = HandlerError 500
                    "Unable to persist settings changes inside the database"
                    (Some cause))).
Proof.
  apply (settings_errors_are_classified handler tx payload w err w').
  - vm_compute. reflexivity.
Defined.

End settings_errors_are_classified_instance.

Section settings_calls_once_in_order_instance.
Import portainer settings settingsUpdatePayload.
Local Abbreviation verifiesTLS settings :=
  ((TLSConfiguration.TLS (LDAPSettings.TLSConfig (Settings.LDAPSettings settings))
    || LDAPSettings.StartTLS (Settings.LDAPSettings settings))
   && negb (TLSConfiguration.TLSSkipVerify
              (LDAPSettings.TLSConfig (Settings.LDAPSettings settings)))).
Local Abbreviation sh := (plainShapes).
Local Abbreviation handler := (sampleHandler false (λ _, true)).
Local Abbreviation tx := (soundStore).
Local Abbreviation payload := (timeoutPayload).
Local Abbreviation w := (sampleWorld).
Local Abbreviation res := ((updateSettings handler tx payload w).1).
Local Abbreviation w' := ((updateSettings handler tx payload w).2).

Lemma settings_calls_once_in_order_witness :
  ∃ evsH evsS evsU evsT,
    trace w' = trace w ++ evsH ++ evsS ++ evsU ++ evsT
    ∧ (evsH = [] ∨ ∃ url, evsH = [EvValidateHelmRepositoryURL url])
    ∧ (evsS = [] ∨ ∃ interval, evsS = [EvSetSnapshotInterval interval])
    ∧ (evsU = [] ∨ ∃ duration, evsU = [EvSetUserSessionDuration duration])
    ∧ (evsT = [] ∨ evsT = [EvGetPathForTLSFile] ∨ evsT = [EvDeleteTLSFiles])
    ∧ (∀ settings', res = inr settings' →
         evsT = [if verifiesTLS settings'
                 then EvGetPathForTLSFile else EvDeleteTLSFiles]).
Proof.
  apply (settings_calls_once_in_order handler tx payload w res w').
  - vm_compute. reflexivity.
Defined.

End settings_calls_once_in_order_instance.

Section helm_logo_telemetry_merge_instance.
Import portainer settings settingsUpdatePayload.
Local Abbreviation sh := (plainShapes).
Local Abbreviation handler := (sampleHandler false (λ _, true)).
Local Abbreviation tx := (soundStore).
Local Abbreviation payload := (helmPayload "https://Charts.Example.org/").
Local Abbreviation w := (sampleWorld).
Local Abbreviation w' := ((updateSettings handler tx payload w).2).
Local Abbreviation settings' := (persisted w').

Lemma helm_logo_telemetry_merge_witness :
  Settings.HelmRepositoryURL settings'
    = match HelmRepositoryURL payload with
      | Some url =>
          if nonEmpty url
          then strings.TrimSuffix (strings_ToLower handler url) "/"
          else ""
      | None => Settings.HelmRepositoryURL (persisted w)
      end
  ∧ (demoService_IsDemo handler = false →
     Settings.LogoURL settings'
       = default (Settings.LogoURL (persisted w)) (LogoURL payload)
     ∧ Settings.EnableTelemetry settings'
       = default (Settings.EnableTelemetry (persisted w)) (EnableTelemetry payload)).
Proof.
  apply (helm_logo_telemetry_merge handler tx payload w settings' w').
  - vm_compute. reflexivity.
Defined.

End helm_logo_telemetry_merge_instance.

Section settings_update_direct_errors_instance.
Import portainer settings settingsUpdatePayload settings_update.
Local Abbreviation handler := (sampleHandler false (λ _, true)).
Local Abbreviation v := (sampleValidators).
Local Abbreviation hideFields := (showAll).
Local Abbreviation DataStore := (soundStore).
Local Abbreviation UpdateTx := (unusedUpdateTx).
Local Abbreviation json_body := (@inr error _ invalidPayload).
Local Abbreviation w := (sampleWorld).
Local Abbreviation err := (BadRequest "Invalid request payload" (Some (ErrorString "Invalid authentication method value. Value must be one of: 1 (internal), 2 (LDAP/AD) or 3 (OAuth)"))).
Local Abbreviation w' := ((settingsUpdate handler v hideFields true DataStore UpdateTx json_body w).2).

Lemma settings_update_direct_errors_witness :
  persisted w' = persisted w
  ∧ ((∃ cause, DecodeAndValidateJSONPayload v json_body = inl cause
        ∧ err = BadRequest "Invalid request payload" (Some cause) ∧ w' = w)
     ∨ (∃ payload, DecodeAndValidateJSONPayload v json_body = inr payload
          ∧ updateSettings handler DataStore payload w = (inl err, w'))).
Proof.
  apply (settings_update_direct_errors handler v hideFields DataStore UpdateTx json_body w err w').
  - vm_compute. reflexivity.
Defined.

End settings_update_direct_errors_instance.

Section settings_update_persists_validated_instance.
Import portainer settings settingsUpdatePayload settings_update.
Local Abbreviation handler := (sampleHandler false (λ _, true)).
Local Abbreviation v := (sampleValidators).
Local Abbreviation hideFields := (showAll).
Local Abbreviation DataStore := (soundStore).
Local Abbreviation UpdateTx := (unusedUpdateTx).
Local Abbreviation payload := (validPayload).
Local Abbreviation w := (sampleWorld).
Local Abbreviation w' := ((settingsUpdate handler v hideFields true DataStore UpdateTx (inr payload) w).2).
Local Abbreviation out := (showAll (persisted w')).

Lemma settings_update_persists_validated_witness :
  out = hideFields (persisted w')
  ∧ (∀ method, AuthenticationMethod payload = Some method →
       Settings.AuthenticationMethod (persisted w') = method
       ∧ (method = 1 ∨ method = 2 ∨ method = 3))
  ∧ (∀ timeout, UserSessionTimeout payload = Some timeout →
       Settings.UserSessionTimeout (persisted w') = timeout
       ∧ time_ParseDuration_error v timeout = None)
  ∧ (∀ expiry, KubeconfigExpiry payload = Some expiry →
       Settings.KubeconfigExpiry (persisted w') = expiry
       ∧ time_ParseDuration_error v expiry = None)
  ∧ (∀ url, TemplatesURL payload = Some url →
       Settings.TemplatesURL (persisted w') = url
       ∧ (url = "" ∨ govalidator_IsURL v url = true))
  ∧ (∀ url, EdgePortainerURL payload = Some url →
       Settings.EdgePortainerURL (persisted w') = url
       ∧ (url = "" ∨ edge_ParseHostForEdge_error v url = None)).
Proof.
  apply (settings_update_persists_validated handler v hideFields DataStore UpdateTx payload w out w').
  - vm_compute. reflexivity.
Defined.

End settings_update_persists_validated_instance.

Section password_update_error_keeps_store_instance.
Import portainer users.
Local Abbreviation handler := (sampleHandler).
Local Abbreviation r := ({| route_id := inr 7; token_data := inr {| ID := 7; Role := 2 |}; json_body := inr {| Password := "a guess"; NewPassword := "correct horse battery" |} |}).
Local Abbreviation ds := (sampleStore).
Local Abbreviation err := (Forbidden "Current password doesn't match" (Some (ErrorString "Current password does not match the password provided. Please try again"))).
Local Abbreviation ds' := ((userUpdatePassword handler r ds).2).

Lemma password_update_error_keeps_store_witness :
  ds' = ds.
Proof.
  apply (password_update_error_keeps_store handler r ds err ds').
  - vm_compute. reflexivity.
Defined.

End password_update_error_keeps_store_instance.

Section password_update_forbidden_for_others_instance.
Import portainer users.
Local Abbreviation handler := (sampleHandler).
Local Abbreviation r := ({| route_id := inr 7; token_data := inr {| ID := 8; Role := 2 |}; json_body := inr {| Password := "hunter2"; NewPassword := "correct horse battery" |} |}).
Local Abbreviation ds := (sampleStore).
Local Abbreviation userID := (7).
Local Abbreviation tokenData := ({| ID := 8; Role := 2 |}).

Lemma password_update_forbidden_for_others_witness :
  userUpdatePassword handler r ds
  = (Some (if demoService_IsDemoUser handler userID
           then Forbidden (ErrNotAvailableInDemo_Error handler)
                  (Some (ErrNotAvailableInDemo handler))
           else Forbidden "Permission denied to update user"
                  (Some (ErrUnauthorized handler))), ds).
Proof.
  apply (password_update_forbidden_for_others handler r ds userID tokenData).
  - reflexivity.
  - reflexivity.
  - vm_compute. discriminate.
  - vm_compute. discriminate.
Defined.

End password_update_forbidden_for_others_instance.

